(** * GNN tutorial notebooks: a shallow embedding

    The repository is a set of Jupyter notebooks on graph neural networks
    (PyTorch Geometric, DGL).  The code cells are embedded as Rocq
    functions: Python exceptions become a [result] type, tensors become
    lists of slices along dimension 0, calls into torch / PyG whose code is
    not part of the notebooks are described by their documented behaviour.  *)

From Stdlib Require Import ZArith List Lia.
From stdpp Require Import base option list sorting strings gmap.

(** ** Python values that may raise *)

Module Py.

(** The exceptions that the embedded cells can raise.  [AssertionError]
    comes from an [assert] statement, [IndexError] from indexing a list or
    a tensor, [LibraryError] stands for whatever torch, PyG or DGL raise
    from inside their own code. *)
Inductive exn : Type :=
| AssertionError
| IndexError
| LibraryError.

Inductive result (A : Type) : Type :=
| Ok (a : A)
| Raise (e : exn).
Arguments Ok {A} a.
Arguments Raise {A} e.

Definition bind {A B} (m : result A) (k : A → result B) : result B :=
  match m with
  | Ok a => k a
  | Raise e => Raise e
  end.

Definition is_Ok {A} (r : result A) : bool :=
  match r with
  | Ok _ => true
  | Raise _ => false
  end.

(** [l[i]] on a Python list: negative indices count from the end. *)
Definition list_getitem {A} (l : list A) (i : Z) : result A :=
  let n := Z.of_nat (length l) in
  let j := if decide (i < 0)%Z then (n + i)%Z else i in
  if decide (0 ≤ j < n)%Z then
    match l !! Z.to_nat j with
    | Some a => Ok a
    | None => Raise IndexError
    end
  else Raise IndexError.

(** Cells that also read or change a state [S] (the random generator, the
    objects allocated so far). *)
Definition M (S A : Type) : Type := S → result (A * S).

Definition ret {S A} (a : A) : M S A := λ s, Ok (a, s).

Definition bindM {S A B} (m : M S A) (k : A → M S B) : M S B :=
  λ s, match m s with
       | Ok (a, s') => k a s'
       | Raise e => Raise e
       end.

Definition lift {S A} (r : result A) : M S A :=
  λ s, match r with
       | Ok a => Ok (a, s)
       | Raise e => Raise e
       end.

(** A list comprehension [[f(i) for i in l]]. *)
Fixpoint for_each {S A B} (f : A → M S B) (l : list A) : M S (list B) :=
  match l with
  | [] => ret []
  | a :: l' => bindM (f a) (λ b, bindM (for_each f l') (λ bs, ret (b :: bs)))
  end.

End Py.
Export Py.

Notation "'do!' x ':=' m 'in' k" := (Py.bindM m (λ x, k))
  (at level 10, x name, m at level 100, k at level 200, only parsing).

Notation "'let!' x ':=' m 'in' k" := (Py.bind m (λ x, k))
  (at level 10, x name, m at level 100, k at level 200, only parsing).

(** ** Slices of a tensor and their sums *)

(** A tensor is stored as the list of its slices along dimension 0; [T] is
    the type of one slice (for [src] of shape [6, dim1, dim2] a [dim1] by
    [dim2] block of numbers).  Only the zero slice and the addition of
    slices are used by the cells. *)
Class TensorOps (T : Type) : Type := {
  tzero : T;
  tadd : T → T → T
}.

Class TensorLaws (T : Type) `{TensorOps T} : Prop := {
  tadd_assoc a b c : tadd a (tadd b c) = tadd (tadd a b) c;
  tadd_zero_l a : tadd tzero a = a;
  tadd_zero_r a : tadd a tzero = a
}.

#[global] Instance Z_tensor_ops : TensorOps Z := {| tzero := 0%Z; tadd := Z.add |}.

#[global] Instance Z_tensor_laws : TensorLaws Z.
Proof. split; intros; simpl; lia. Qed.

Module Scatter.
Section defs.
Context {T : Type} `{TensorOps T}.

(** [t.sum(dim=0)] *)
Definition tsum (rows : list T) : T := foldr tadd tzero rows.

(** [index.unique()]: the distinct values of [index] in ascending order. *)
Definition unique (index : list nat) : list nat :=
  filter (λ v, v ∈ index) (seq 0 (S (max_list index))).

(** [index == i] *)
Definition mask_eq (index : list nat) (i : nat) : list bool :=
  (λ v, bool_decide (v = i)) <$> index.

Fixpoint select (src : list T) (mask : list bool) : list T :=
  match src, mask with
  | v :: src', b :: mask' =>
      if b then v :: select src' mask' else select src' mask'
  | _, _ => []
  end.

(** [src[mask]] with a boolean mask over dimension 0. *)
Definition masked_select (src : list T) (mask : list bool) : result (list T) :=
  if decide (length mask = length src) then Ok (select src mask)
  else Raise IndexError.

(** [out[i] = v] for a position [i]; [NaiveLoop.setitem] below takes any
    integer. *)
Definition setitem (out : list T) (i : nat) (v : T) : result (list T) :=
  if decide (i < length out) then Ok (<[i:=v]> out) else Raise IndexError.

(** The body of the loop of cell 20 of [2.gnn.ipynb]:
    [for i in ...: out_naive[i] = src[index == i].sum(dim=0)]. *)
Fixpoint naive_loop (todo : list nat) (src : list T) (index : list nat)
    (out : list T) : result (list T) :=
  match todo with
  | [] => Ok out
  | i :: todo' =>
      let! rows := masked_select src (mask_eq index i) in
      let! out' := setitem out i (tsum rows) in
      naive_loop todo' src index out'
  end.

(** [out_naive = torch.zeros(index.unique().shape[0], dim1, dim2)]
    followed by the loop over [index.unique().tolist()]. *)
Definition out_naive (src : list T) (index : list nat) : result (list T) :=
  naive_loop (unique index) src index
    (replicate (length (unique index)) tzero).

(** [out.scatter_add_(0, index, src)]: [out[index[p]] += src[p]] for the
    positions [p] in order. *)
Definition scatter_add_ (out : list T) (index : list nat) (src : list T)
    : list T :=
  foldl (λ acc p, alter (λ o, tadd o p.2) p.1 acc) out (zip index src).

(** [scatter(src, index, dim=0, dim_size=..., reduce="sum")] of
    [torch_geometric.utils]: the output has [dim_size] slices, by default
    [index.max() + 1] (none for an empty [index]); an index outside the
    output or an [index] that does not match [src] is an error of the
    library. *)
Definition scatter (src : list T) (index : list nat) (dim_size : option nat)
    : result (list T) :=
  if decide (length index = length src) then
    let n := default (match index with
                      | [] => 0
                      | _ => S (max_list index)
                      end) dim_size in
    if decide (Forall (λ i, i < n) index)
    then Ok (scatter_add_ (replicate n tzero) index src)
    else Raise LibraryError
  else Raise LibraryError.

End defs.
End Scatter.

(** ** The first layer of [1.mp_layer.ipynb] *)

Module NaiveGCN.
Section defs.
Context {T : Type} `{TensorOps T}.

(** [x.index_select(0, idx)], the gathering step of [propagate]. *)
Fixpoint index_select (x : list T) (idx : list nat) : result (list T) :=
  match idx with
  | [] => Ok []
  | j :: idx' =>
      match x !! j with
      | Some v => let! rest := index_select x idx' in Ok (v :: rest)
      | None => Raise LibraryError
      end
  end.

(** [MessagePassing.propagate(x=x, edge_index=edge_index)] for a layer
    built with [aggr='add'] that overrides neither [message] nor [update]:
    with the default flow (source to target) column [(j, i)] of
    [edge_index] carries the message [x_j = x[j]] to node [i], the
    messages are summed per target by [scatter] with one output slice per
    node of [x], and the default [update] returns the sums. *)
Definition propagate (x : list T) (edge_index : list (nat * nat))
    : result (list T) :=
  let! x_j := index_select x (fst <$> edge_index) in
  let msg := x_j in
  let! aggr_out := Scatter.scatter msg (snd <$> edge_index) (Some (length x)) in
  Ok aggr_out.

(** [NaiveGCNConv(dim, act)]: [self.linear = nn.Linear(dim, dim)], applied
    to every row of its input, and [self.act = getattr(nn, act)()], applied
    entrywise; both are modules of torch, kept as functions on one row. *)
Record NaiveGCNConv : Type := {
  linear : T → T;
  act : T → T
}.

Definition forward (self : NaiveGCNConv) (x : list T)
    (edge_index : list (nat * nat)) : result (list T) :=
  let x := linear self <$> x in
  let! x := propagate x edge_index in
  let x := act self <$> x in
  Ok x.

(** The sources [j] of the edges [j → i], in the order of [edge_index]. *)
Definition incoming (edge_index : list (nat * nat)) (i : nat) : list nat :=
  fst <$> filter (λ e, e.2 = i) edge_index.

End defs.
End NaiveGCN.

(** ** What the cells use from torch, PyG and DGL *)

(** The random sources and the reductions of the libraries are parameters
    of the embedding; [TorchSpec] records the part of their documentation
    that the properties below rely on. *)
Class Torch : Type := {
  rng : Type;
  scalar : Type;
  (** [torch.randint(low, high, (size,))] *)
  randint : Z → Z → Z → rng → result (list Z * rng);
  (** [torch.randn(rows, cols)] *)
  randn : Z → Z → rng → result (list (list scalar) * rng);
  (** [erdos_renyi_graph(num_nodes=..., edge_prob=...)] *)
  erdos_renyi_graph : Z → scalar → rng → result (list (nat * nat) * rng);
  (** [x.sum() / num_nodes] *)
  mean_all : list (list scalar) → Z → scalar
}.

Class TorchSpec `{Torch} : Prop := {
  randint_returns low high size g :
    (low < high)%Z → (0 ≤ size)%Z → ∃ l g', randint low high size g = Ok (l, g');
  randint_range low high size g l g' :
    randint low high size g = Ok (l, g') →
    Z.of_nat (length l) = size ∧ Forall (λ v, low ≤ v < high)%Z l;
  randn_returns rows cols g :
    (0 ≤ rows)%Z → (0 ≤ cols)%Z → ∃ t g', randn rows cols g = Ok (t, g');
  randn_shape rows cols g t g' :
    randn rows cols g = Ok (t, g') →
    Z.of_nat (length t) = rows ∧ Forall (λ row, Z.of_nat (length row) = cols) t;
  erdos_renyi_graph_returns num_nodes edge_prob g :
    (0 ≤ num_nodes)%Z → ∃ e g', erdos_renyi_graph num_nodes edge_prob g = Ok (e, g')
}.

(** ** [3.dataloader.ipynb] *)

Module ERData.
Section defs.
Context `{Torch}.

(** [torch_geometric.data.Data] with the attributes the notebook gives it;
    [edge_attr] is the optional edge-feature tensor. *)
Record Data : Type := {
  x : list (list scalar);
  edge_index : list (nat * nat);
  edge_attr : option (list (list scalar));
  y : list (list scalar);
  dummy : list (list scalar)
}.

(** [g.num_nodes], which PyG reads off the first dimension of [x]. *)
Definition num_nodes (g : Data) : nat := length (x g).

(** Objects live in a store; a reference is a position in it. *)
Record state : Type := {
  gen : rng;
  heap : list Data
}.

Definition with_rng {A} (f : rng → result (A * rng)) : M state A :=
  λ s, match f (gen s) with
       | Ok (a, g') => Ok (a, {| gen := g'; heap := heap s |})
       | Raise e => Raise e
       end.

(** Creating an object: [Data(...)]. *)
Definition new_Data (d : Data) : M state nat :=
  λ s, Ok (length (heap s), {| gen := gen s; heap := heap s ++ [d] |}).

Definition generate_er_graph (num_nodes : Z) (edge_prob : scalar)
    (feat_dim : Z) : M state nat :=
  do! edge_idx := with_rng (erdos_renyi_graph num_nodes edge_prob) in
  do! x := with_rng (randn num_nodes feat_dim) in
  let y := [[mean_all x num_nodes]] in
  do! dummy := with_rng (randn num_nodes 32) in
  do! g := new_Data {| x := x; edge_index := edge_idx; edge_attr := None;
                       y := y; dummy := dummy |} in
  ret g.

(** [class ERDataset(Dataset)]: the only attribute is the list [gs]. *)
Record ERDataset : Type := { gs : list nat }.

Definition ERDataset_init (num_graphs min_num_nodes max_num_nodes : Z)
    (edge_prob : scalar) : M state ERDataset :=
  do! num_nodes := with_rng (randint min_num_nodes max_num_nodes num_graphs) in
  do! gs := for_each
              (λ i, do! n := lift (list_getitem num_nodes i) in
                    generate_er_graph n edge_prob 16)
              (seqZ 0 num_graphs) in
  ret {| gs := gs |}.

Definition ERDataset_getitem (self : ERDataset) (index : Z) : M state nat :=
  lift (list_getitem (gs self) index).

Definition ERDataset_len (self : ERDataset) : nat := length (gs self).

(** Feature dimension consistency of a [Data] object. *)
Definition consistent (g : Data) : Prop :=
  (∃ d, Forall (λ row, length row = d) (x g))
  ∧ (∀ ea, edge_attr g = Some ea →
       length ea = length (edge_index g)
       ∧ ∃ d, Forall (λ row, length row = d) ea).

End defs.
End ERData.

(** ** [Tutorial 0 - B.Y.O.Graphs.ipynb] *)

Module DGL.
Section defs.
Context `{Torch}.

Record DGLGraph : Type := {
  num_nodes : nat;
  edges : list (nat * nat);
  ndata : gmap string (list (list scalar));
  edata : gmap string (list (list scalar))
}.

(** [dgl.graph((u, v), num_nodes=...)]: without [num_nodes] the number of
    nodes is the largest node id plus one; a smaller [num_nodes] is
    refused by DGL. *)
Definition graph (u v : list nat) (num_nodes : option nat) : result DGLGraph :=
  if decide (length u = length v) then
    let inferred := match u ++ v with
                    | [] => 0
                    | _ => S (max_list (u ++ v))
                    end in
    let n := default inferred num_nodes in
    if decide (inferred ≤ n)
    then Ok {| num_nodes := n; edges := zip u v; ndata := ∅; edata := ∅ |}
    else Raise LibraryError
  else Raise LibraryError.

Definition number_of_nodes (g : DGLGraph) : nat := num_nodes g.
Definition number_of_edges (g : DGLGraph) : nat := length (edges g).

(** [g.ndata[key] = t]; DGL refuses a tensor that does not have one row
    per node. *)
Definition set_ndata (g : DGLGraph) (key : string) (t : list (list scalar))
    : result DGLGraph :=
  if decide (length t = num_nodes g)
  then Ok {| num_nodes := num_nodes g; edges := edges g;
             ndata := <[key:=t]> (ndata g); edata := edata g |}
  else Raise LibraryError.

(** [g.edata[key] = t]; one row per edge. *)
Definition set_edata (g : DGLGraph) (key : string) (t : list (list scalar))
    : result DGLGraph :=
  if decide (length t = length (edges g))
  then Ok {| num_nodes := num_nodes g; edges := edges g;
             ndata := ndata g; edata := <[key:=t]> (edata g) |}
  else Raise LibraryError.

(** Cells 8 to 13 of the notebook, in order. *)
Definition tutorial0 : M rng DGLGraph :=
  let u := [0; 0; 0; 1] in
  let v := [1; 2; 3; 3] in
  do! g := lift (graph u v None) in
  do! g := lift (graph u v (Some 8)) in
  let node_feat_dim := 7%Z in
  let edge_feat_dim := 3%Z in
  do! nf := randn (Z.of_nat (number_of_nodes g)) node_feat_dim in
  do! g := lift (set_ndata g "feat" nf) in
  do! ef := randn (Z.of_nat (number_of_edges g)) edge_feat_dim in
  do! g := lift (set_edata g "feat" ef) in
  ret g.

(** Feature dimension consistency of a DGL graph. *)
Definition consistent (g : DGLGraph) : Prop :=
  (∀ key t, ndata g !! key = Some t →
     length t = num_nodes g ∧ ∃ d, Forall (λ row, length row = d) t)
  ∧ (∀ key t, edata g !! key = Some t →
       length t = length (edges g) ∧ ∃ d, Forall (λ row, length row = d) t).

End defs.
End DGL.

(** ** Mini-batches of graphs *)

Module Batching.
Section defs.
Context `{Torch}.
Import ERData.

(** The attributes printed for a [DataBatch] in [3.dataloader.ipynb]. *)
Record DataBatch : Type := {
  bx : list (list scalar);
  bedge_index : list (nat * nat);
  by_ : list (list scalar);
  batch : list nat;
  ptr : list nat
}.

(** Modelled from the spec: [Batch.from_data_list] and the collation of
    the PyG [DataLoader] are code of torch_geometric and absent from the
    notebooks.  Following the description "a batched-graph object that
    concatenates multiple graphs and records per-node graph membership",
    the graphs are appended one after the other: graph number [i], whose
    first node becomes node [offset] of the batch, contributes its rows of
    [x], its edges shifted by [offset], its label, [i] once per node to
    [batch], and [offset] to [ptr]. *)
Fixpoint collate (i offset : nat) (data_list : list Data) : DataBatch :=
  match data_list with
  | [] => {| bx := []; bedge_index := []; by_ := []; batch := [];
             ptr := [offset] |}
  | g :: rest =>
      let b := collate (S i) (offset + num_nodes g) rest in
      {| bx := x g ++ bx b;
         bedge_index :=
           ((λ e, (offset + e.1, offset + e.2)) <$> edge_index g)
           ++ bedge_index b;
         by_ := y g ++ by_ b;
         batch := replicate (num_nodes g) i ++ batch b;
         ptr := offset :: ptr b |}
  end.

Definition from_data_list (data_list : list Data) : DataBatch :=
  collate 0 0 data_list.

(** The position, in the batch, of the first node of graph [i]. *)
Definition first_node (data_list : list Data) (i : nat) : nat :=
  sum_list (num_nodes <$> take i data_list).

(** Modelled from the spec: the edge features of the batch of [data_list],
    which the cells of [2.gnn.ipynb] read as [gs.edge_attr].  A batch
    "concatenates multiple graphs": when every graph has edge features,
    those of the batch are theirs, one graph after the other, as for the
    rows of [x]; when a graph has none, neither has the batch. *)
Definition batch_edge_attr (data_list : list Data)
    : option (list (list scalar)) :=
  (λ eas, concat eas) <$> mapM edge_attr data_list.

(** Feature dimension consistency of the batch of [data_list]: [batch]
    has one entry per row of [x], the rows of [x] have one dimension, and
    the edge features, when the batch has any, have one row per edge, all
    of one dimension. *)
Definition consistent (data_list : list Data) : Prop :=
  let b := from_data_list data_list in
  length (batch b) = length (bx b)
  ∧ (∃ d, Forall (λ row, length row = d) (bx b))
  ∧ (∀ ea, batch_edge_attr data_list = Some ea →
       length ea = length (bedge_index b)
       ∧ ∃ d, Forall (λ row, length row = d) ea).

End defs.
End Batching.

(** ** The random graphs of [1.mp_layer.ipynb] and [2.gnn.ipynb] *)

Module GraphGen.
Section defs.
Context `{Torch}.
Import ERData.

(** Modelled from the spec: [generate_random_graph] is imported from
    [common.graph_gen], a module of the repository that is not among its
    notebooks.  The data model of the spec, "a graph object holding node
    feature tensors, an edge index (pair of node-id lists), optional edge
    feature tensors", with the keywords of the calls ([num_node],
    [p_edges], [node_feat_dim], [edge_feat_dim]) and the shapes printed by
    cells 6 and 12 of [1.mp_layer.ipynb] (5 rows of 16 for the nodes, 12
    rows of 16 for the 12 edges), gives: a random edge index over
    [num_node] nodes, a random node-feature tensor of [num_node] rows of
    [node_feat_dim] entries, and a random edge-feature tensor of one row
    of [edge_feat_dim] entries per edge. *)
Definition generate_random_graph (num_node : Z) (p_edges : scalar)
    (node_feat_dim edge_feat_dim : Z) : M state nat :=
  do! edge_index := with_rng (erdos_renyi_graph num_node p_edges) in
  do! x := with_rng (randn num_node node_feat_dim) in
  do! edge_attr := with_rng (randn (Z.of_nat (length edge_index))
                               edge_feat_dim) in
  do! g := new_Data {| x := x; edge_index := edge_index;
                       edge_attr := Some edge_attr; y := []; dummy := [] |} in
  ret g.

(** Cell 5 of [2.gnn.ipynb], the list handed to [Batch.from_data_list]:
    [[generate_random_graph(5 * (i+1), node_feat_dim=dim,
    edge_feat_dim=dim) for i in range(3)]].  The call leaves [p_edges] to
    its default, which the notebooks do not show. *)
Definition three_graphs (p_edges : scalar) (dim : Z) : M state (list nat) :=
  for_each (λ i, generate_random_graph (5 * (i + 1)) p_edges dim dim)
    (seqZ 0 3).

End defs.
End GraphGen.

(** ** A deterministic instance of the random sources

    Used to run the cells on concrete inputs: a linear congruential
    generator for the integers, its state for the entries of [randn], a
    path for the random graph. *)

Module Pseudo.

Definition next (g : Z) : Z := ((g * 1103515245 + 12345) `mod` 2147483648)%Z.

Fixpoint ints (low high : Z) (n : nat) (g : Z) : list Z * Z :=
  match n with
  | 0 => ([], g)
  | S n' =>
      let g1 := next g in
      let '(l, g') := ints low high n' g1 in
      ((low + g1 `mod` (high - low))%Z :: l, g')
  end.

Definition path (n : nat) : list (nat * nat) :=
  (λ i, (i, S i)) <$> seq 0 (pred n).

#[global] Instance torch : Torch := {|
  rng := Z;
  scalar := Z;
  randint low high size g :=
    if decide (low < high ∧ 0 ≤ size)%Z
    then Ok (ints low high (Z.to_nat size) g)
    else Raise LibraryError;
  randn rows cols g :=
    if decide (0 ≤ rows ∧ 0 ≤ cols)%Z
    then Ok (replicate (Z.to_nat rows) (replicate (Z.to_nat cols) (next g)),
             next g)
    else Raise LibraryError;
  erdos_renyi_graph num_nodes edge_prob g :=
    if decide (0 ≤ num_nodes)%Z
    then Ok (path (Z.to_nat num_nodes), next g)
    else Raise LibraryError;
  mean_all t n := 0%Z
|}.

(** An empty store and a seed. *)
Definition start : @ERData.state torch := @ERData.Build_state torch 7%Z [].

End Pseudo.

(** ** Tutorial 4: the helper that loads a benchmark dataset *)

Module GCNTutorial.
Section defs.
(** [Planetoid(root=..., name=...)] of [torch_geometric.datasets], which
    downloads the dataset and may raise from inside the library. *)
Context {Dataset : Type} (Planetoid : string → string → result Dataset).

Definition dataset_names : list string := ["Cora"; "CiteSeer"; "PubMed"].

Definition get_dataset (name : string) : result Dataset :=
  if decide (name ∈ dataset_names)
  then let! dataset := Planetoid ("/tmp/" +:+ name) name in
       Ok dataset
  else Raise AssertionError.

End defs.
End GCNTutorial.

(** ** The code cells as syntax

    Claims about what the notebooks contain (which classes they define, what
    a constructor creates, where a check or a loop occurs) are settled on
    the syntax of the code cells.  The grammar is the part of Python's
    abstract syntax that the cells use, and the statements a check, a retry
    or a recovery would need ([if], [while], [raise], [try]).  Type
    annotations and the format specifications of f-strings are left out;
    string literals are kept as spelled in the source. *)

Module Ast.

#[local] Unset Elimination Schemes.

Inductive expr : Type :=
| Name (id : string)
| Num (n : Z)
| Float (repr : string)
| Str (s : string)
| Const (repr : string)
| FString (parts : list expr)
| Attr (e : expr) (a : string)
| Subscript (e : expr) (i : expr)
| Slice (lo hi : option expr)
| Call (f : expr) (args : list expr) (kwargs : list (string * expr))
| BinOp (l : expr) (op : string) (r : expr)
| Neg (e : expr)
| Tuple (es : list expr)
| ListE (es : list expr)
| ListComp (elt target iter : expr)
| Dict (items : list (expr * expr)).

Inductive stmt : Type :=
| ImportAs (modname : string) (asname : option string)
| FromImport (modname : string) (names : list string)
| Assign (target value : expr)
| ExprStmt (e : expr)
| Assert (test : expr)
| Return (e : expr)
| RaiseStmt (e : expr)
| If (test : expr) (body orelse : list stmt)
| For (target iter : expr) (body : list stmt)
| While (test : expr) (body : list stmt)
| Try (body handlers : list stmt)
| FunctionDef (name : string) (params : list (string * option expr))
    (body : list stmt)
| ClassDef (name : string) (bases : list expr) (body : list stmt).

#[local] Set Elimination Schemes.

(** A notebook: its code cells, each with its position among the cells. *)
Record notebook : Type := {
  nb_name : string;
  cells : list (nat * list stmt)
}.

(** *** Traversals *)

Definition of_option (o : option expr) : list expr :=
  match o with
  | Some e => [e]
  | None => []
  end.

(** An expression and all the expressions inside it. *)
Fixpoint subexprs (e : expr) : list expr :=
  e :: match e with
       | Name _ | Num _ | Float _ | Str _ | Const _ => []
       | FString parts => flat_map subexprs parts
       | Attr e' _ => subexprs e'
       | Subscript a i => subexprs a ++ subexprs i
       | Slice lo hi =>
           match lo with Some a => subexprs a | None => [] end
           ++ match hi with Some a => subexprs a | None => [] end
       | Call f args kwargs =>
           subexprs f ++ flat_map subexprs args
           ++ flat_map (λ kw, subexprs (snd kw)) kwargs
       | BinOp l _ r => subexprs l ++ subexprs r
       | Neg e' => subexprs e'
       | Tuple es | ListE es => flat_map subexprs es
       | ListComp elt target iter =>
           subexprs elt ++ subexprs target ++ subexprs iter
       | Dict items =>
           flat_map (λ kv, subexprs (fst kv) ++ subexprs (snd kv)) items
       end.

(** The expressions a statement is made of, nested statements aside. *)
Definition stmt_exprs (s : stmt) : list expr :=
  match s with
  | ImportAs _ _ | FromImport _ _ => []
  | Assign target value => [target; value]
  | ExprStmt e | Assert e | Return e | RaiseStmt e => [e]
  | If test _ _ | While test _ => [test]
  | For target iter _ => [target; iter]
  | Try _ _ => []
  | FunctionDef _ params _ => flat_map (λ p, of_option (snd p)) params
  | ClassDef _ bases _ => bases
  end.

(** A statement and all the statements nested in it. *)
Fixpoint substmts (s : stmt) : list stmt :=
  s :: match s with
       | If _ body orelse => flat_map substmts body ++ flat_map substmts orelse
       | Try body handlers =>
           flat_map substmts body ++ flat_map substmts handlers
       | For _ _ body | While _ body | FunctionDef _ _ body
       | ClassDef _ _ body => flat_map substmts body
       | _ => []
       end.

Definition statements (nb : notebook) : list stmt :=
  flat_map (λ c, flat_map substmts (snd c)) (cells nb).

Definition expressions (nb : notebook) : list expr :=
  flat_map (λ s, flat_map subexprs (stmt_exprs s)) (statements nb).

(** The cells in which some statement (at any depth) satisfies [p]. *)
Definition cells_with (p : stmt → bool) (nb : notebook) : list nat :=
  fst <$> filter (λ c, existsb p (flat_map substmts (snd c)) = true) (cells nb).

(** *** Names and where they come from *)

(** The names bound by the import statements, with their module. *)
Definition imports (nb : notebook) : list (string * string) :=
  flat_map (λ s, match s with
                 | ImportAs m None => [(m, m)]
                 | ImportAs m (Some a) => [(a, m)]
                 | FromImport m names => (λ n, (n, m)) <$> names
                 | _ => []
                 end) (statements nb).

Definition modules_of (nb : notebook) (id : string) : list string :=
  snd <$> filter (λ p, p.1 = id) (imports nb).

(** Modules of the machine-learning frameworks, as opposed to the modules
    [common.*] of the repository. *)
Definition framework_module (m : string) : bool :=
  String.prefix "torch" m || String.prefix "dgl" m.

Definition layer_module (m : string) : bool :=
  String.prefix "torch_geometric.nn" m || String.eqb m "common.layers".

(** *** Classes *)

Definition methods (cls : stmt) : list string :=
  match cls with
  | ClassDef _ _ body =>
      flat_map (λ s, match s with
                     | FunctionDef name _ _ => [name]
                     | _ => []
                     end) body
  | _ => []
  end.

(** The bases of a class that are names imported from a framework. *)
Definition framework_bases (nb : notebook) (cls : stmt) : list string :=
  match cls with
  | ClassDef _ bases _ =>
      flat_map (λ b, match b with
                     | Name id =>
                         if existsb framework_module (modules_of nb id)
                         then [id] else []
                     | _ => []
                     end) bases
  | _ => []
  end.

Definition class_name (cls : stmt) : list string :=
  match cls with
  | ClassDef name _ _ => [name]
  | _ => []
  end.

Definition classes (nb : notebook) : list stmt :=
  filter (λ s, class_name s ≠ []) (statements nb).

Definition class_named (nb : notebook) (name : string) : list stmt :=
  filter (λ s, class_name s = [name]) (statements nb).

(** The classes of the notebook that derive from a class of a framework,
    each with these bases and with the methods it defines. *)
Definition framework_subclasses (nb : notebook)
    : list (string * list string * list string) :=
  flat_map (λ cls, match cls, framework_bases nb cls with
                   | ClassDef name _ _, (_ :: _) as bases =>
                       [(name, bases, methods cls)]
                   | _, _ => []
                   end) (statements nb).

(** The statements of the constructor of a class. *)
Definition init_body (cls : stmt) : list stmt :=
  match cls with
  | ClassDef _ _ body =>
      flat_map (λ s, match s with
                     | FunctionDef name _ b =>
                         if String.eqb name "__init__" then b else []
                     | _ => []
                     end) body
  | _ => []
  end.

Definition is_super_init (f : expr) : bool :=
  match f with
  | Attr (Call (Name s) [] []) m =>
      String.eqb s "super" && String.eqb m "__init__"
  | _ => false
  end.

(** The values passed as [aggr=...] to [super().__init__]. *)
Definition aggr_choices (cls : stmt) : list expr :=
  flat_map (λ e, match e with
                 | Call f _ kwargs =>
                     if is_super_init f
                     then snd <$> filter (λ kw, kw.1 = "aggr") kwargs
                     else []
                 | _ => []
                 end)
    (flat_map subexprs (flat_map stmt_exprs (init_body cls))).

Definition is_nn (f : expr) (cls : string) : bool :=
  match f with
  | Attr (Name m) a => String.eqb m "nn" && String.eqb a cls
  | _ => false
  end.

(** The feed-forward networks an expression creates: the calls of
    [nn.Sequential] and the calls of [nn.Linear] that are not an argument
    of such a call. *)
Fixpoint networks (e : expr) : list expr :=
  match e with
  | Name _ | Num _ | Float _ | Str _ | Const _ => []
  | FString parts => flat_map networks parts
  | Attr e' _ => networks e'
  | Subscript a i => networks a ++ networks i
  | Slice lo hi =>
      match lo with Some a => networks a | None => [] end
      ++ match hi with Some a => networks a | None => [] end
  | Call f args kwargs =>
      if is_nn f "Sequential" || is_nn f "Linear" then [e]
      else networks f ++ flat_map networks args
           ++ flat_map (λ kw, networks (snd kw)) kwargs
  | BinOp l _ r => networks l ++ networks r
  | Neg e' => networks e'
  | Tuple es | ListE es => flat_map networks es
  | ListComp elt target iter =>
      networks elt ++ networks target ++ networks iter
  | Dict items =>
      flat_map (λ kv, networks (fst kv) ++ networks (snd kv)) items
  end.

(** The feed-forward networks created by the constructor of a class. *)
Definition feed_forward_networks (cls : stmt) : list expr :=
  flat_map networks (flat_map stmt_exprs (init_body cls)).

(** *** Checks, retries, recovery *)

Definition is_validation (s : stmt) : bool :=
  match s with
  | Assert _ | RaiseStmt _ | If _ _ _ => true
  | _ => false
  end.

Definition is_retry (s : stmt) : bool :=
  match s with
  | While _ _ => true
  | _ => false
  end.

Definition is_recovery (s : stmt) : bool :=
  match s with
  | Try _ _ => true
  | _ => false
  end.

(** The functions and methods a notebook defines, each with the
    validation statements of its body. *)
Definition defined_functions (nb : notebook) : list (string * list stmt) :=
  flat_map (λ s, match s with
                 | FunctionDef name _ body =>
                     [(name, filter (λ t, is_validation t = true)
                               (flat_map substmts body))]
                 | _ => []
                 end) (statements nb).

(** *** Aggregation written out by hand *)

Definition is_reduction (e : expr) : bool :=
  match e with
  | Call (Attr _ m) _ _ =>
      bool_decide (m ∈ ["sum"; "mean"; "max"; "min"; "prod"])
  | _ => false
  end.

(** A loop whose body stores a reduction into one slot of a tensor per
    iteration: [for i in ...: out[i] = (...).sum(...)]. *)
Definition is_loop_aggregation (s : stmt) : bool :=
  match s with
  | For _ _ body =>
      existsb (λ b, match b with
                    | Assign (Subscript _ _) value =>
                        existsb is_reduction (subexprs value)
                    | _ => false
                    end) body
  | _ => false
  end.

(** A class that replaces the aggregation machinery of its base. *)
Definition overrides_aggregation (cls : stmt) : bool :=
  existsb (λ m, bool_decide
                  (m ∈ ["propagate"; "aggregate"; "message_and_aggregate"]))
    (methods cls).

(** *** What a notebook does *)

(** A call that builds a graph or a dataset of graphs. *)
Definition is_graph_construction (e : expr) : bool :=
  match e with
  | Call (Name f) _ _ =>
      bool_decide (f ∈ ["generate_random_graph"; "ERDataset"; "Planetoid"])
  | Call (Attr (Name m) f) _ _ =>
      String.eqb m "dgl" && String.eqb f "graph"
  | _ => false
  end.

(** The classes of layers and models a notebook can instantiate: those
    it imports from [torch_geometric.nn] or [common.layers] and those it
    defines on top of an imported layer class. *)
Definition layer_classes (nb : notebook) : list string :=
  (fst <$> filter (λ p, layer_module p.2 = true) (imports nb))
  ++ flat_map (λ cls,
       match cls with
       | ClassDef name bases _ =>
           if existsb (λ b, match b with
                            | Name id => existsb layer_module (modules_of nb id)
                            | _ => false
                            end) bases
           then [name] else []
       | _ => []
       end) (statements nb).

(** The variables bound to an instance of such a class. *)
Definition model_vars (nb : notebook) : list string :=
  flat_map (λ s, match s with
                 | Assign (Name v) (Call (Name c) _ _) =>
                     if bool_decide (c ∈ layer_classes nb) then [v] else []
                 | _ => []
                 end) (statements nb).

(** The forward passes: calls of a variable bound to a layer or model. *)
Definition forward_passes (nb : notebook) : list expr :=
  filter (λ e, match e with
               | Call (Name v) _ _ => bool_decide (v ∈ model_vars nb)
               | _ => false
               end = true) (expressions nb).

End Ast.

(** ** The five notebooks *)

Module Notebooks.
Import Ast.

Definition mp_layer : notebook := {|
  nb_name := "1.mp_layer.ipynb";
  cells :=
    [(1,
      [ImportAs "torch" None;
       ImportAs "torch.nn" (Some "nn");
       FromImport "torch_geometric.nn.conv" ["MessagePassing"];
       FromImport "common.graph_gen" ["generate_random_graph"]]);
     (4,
      [ClassDef "NaiveGCNConv" [Name "MessagePassing"]
         [FunctionDef "__init__"
            [("self", None); ("dim", None); ("act", Some (Str "ReLU"))]
            [ExprStmt
               (Call (Attr (Call (Name "super") [] []) "__init__") []
                 [("aggr", Str "add")]);
             Assign (Attr (Name "self") "linear")
               (Call (Attr (Name "nn") "Linear") [Name "dim"; Name "dim"] []);
             Assign (Attr (Name "self") "act")
               (Call (Call (Name "getattr") [Name "nn"; Name "act"] []) []
                 [])];
          FunctionDef "forward"
            [("self", None); ("x", None); ("edge_index", None)]
            [Assign (Name "x")
               (Call (Attr (Name "self") "linear") [Name "x"] []);
             Assign (Name "x")
               (Call (Attr (Name "self") "propagate") []
                 [("x", Name "x"); ("edge_index", Name "edge_index")]);
             Assign (Name "x")
               (Call (Attr (Name "self") "act") [Name "x"] []);
             Return (Name "x")]]]);
     (5,
      [Assign (Name "num_node") (Num 5%Z);
       Assign (Name "n_dim") (Num 16%Z);
       Assign (Name "g")
         (Call (Name "generate_random_graph") []
           [("num_node", Name "num_node"); ("p_edges", Float "0.5");
            ("node_feat_dim", Name "n_dim");
            ("edge_feat_dim", Name "n_dim")])]);
     (6,
      [Assign (Name "conv")
         (Call (Name "NaiveGCNConv") [] [("dim", Name "n_dim")]);
       Assign (Name "gc_out")
         (Call (Name "conv")
           [Attr (Name "g") "x"; Attr (Name "g") "edge_index"]
           []);
       ExprStmt (Call (Name "print") [Attr (Name "gc_out") "shape"] [])]);
     (8,
      [ClassDef "EdgeConv" [Name "MessagePassing"]
         [FunctionDef "__init__" [("self", None); ("dim", None)]
            [ExprStmt
               (Call (Attr (Call (Name "super") [] []) "__init__") []
                 [("aggr", Str "max")]);
             Assign (Attr (Name "self") "h")
               (Call (Attr (Name "nn") "Sequential")
                 [Call (Attr (Name "nn") "Linear")
                    [BinOp (Name "dim") "*" (Num 2%Z); Name "dim"]
                    [];
                  Call (Attr (Name "nn") "ReLU") [] [];
                  Call (Attr (Name "nn") "Linear") [Name "dim"; Name "dim"]
                    []]
                 [])];
          FunctionDef "forward"
            [("self", None); ("x", None); ("edge_index", None)]
            [Return
               (Call (Attr (Name "self") "propagate") [Name "edge_index"]
                 [("x", Name "x")])];
          FunctionDef "message" [("self", None); ("x_i", None); ("x_j", None)]
            [Assign (Name "msg")
               (Call (Attr (Name "torch") "cat")
                 [ListE [Name "x_i"; BinOp (Name "x_j") "-" (Name "x_i")]]
                 [("dim", Neg (Num 1%Z))]);
             Assign (Name "msg")
               (Call (Attr (Name "self") "h") [Name "msg"] []);
             Return (Name "msg")]]]);
     (9,
      [Assign (Name "conv")
         (Call (Name "EdgeConv") [] [("dim", Name "n_dim")]);
       Assign (Name "gc_out")
         (Call (Name "conv")
           [Attr (Name "g") "x"; Attr (Name "g") "edge_index"]
           []);
       ExprStmt (Call (Name "print") [Attr (Name "gc_out") "shape"] [])]);
     (11,
      [ClassDef "InteractionNetworkLayer" [Name "MessagePassing"]
         [FunctionDef "__init__" [("self", None); ("dim", None)]
            [ExprStmt
               (Call (Attr (Call (Name "super") [] []) "__init__") []
                 [("aggr", Str "add")]);
             Assign (Attr (Name "self") "f")
               (Call (Attr (Name "nn") "Sequential")
                 [Call (Attr (Name "nn") "Linear")
                    [BinOp (Name "dim") "*" (Num 3%Z); Name "dim"]
                    [];
                  Call (Attr (Name "nn") "ReLU") [] [];
                  Call (Attr (Name "nn") "Linear") [Name "dim"; Name "dim"]
                    []]
                 []);
             Assign (Attr (Name "self") "g")
               (Call (Attr (Name "nn") "Sequential")
                 [Call (Attr (Name "nn") "Linear")
                    [BinOp (Name "dim") "*" (Num 2%Z); Name "dim"]
                    [];
                  Call (Attr (Name "nn") "ReLU") [] [];
                  Call (Attr (Name "nn") "Linear") [Name "dim"; Name "dim"]
                    []]
                 [])];
          FunctionDef "forward"
            [("self", None); ("x", None); ("edge_index", None);
             ("edge_attr", None)]
            [Assign (Name "updated_ef")
               (Call (Attr (Name "self") "edge_updater") []
                 [("edge_index", Name "edge_index"); ("x", Name "x");
                  ("edge_attr", Name "edge_attr")]);
             Assign (Name "updated_nf")
               (Call (Attr (Name "self") "propagate") []
                 [("edge_index", Name "edge_index"); ("x", Name "x");
                  ("edge_attr", Name "updated_ef")]);
             Return (Tuple [Name "updated_nf"; Name "updated_ef"])];
          FunctionDef "edge_update"
            [("self", None); ("x", None); ("edge_index", None);
             ("edge_attr", None)]
            [Assign (Tuple [Name "row"; Name "col"]) (Name "edge_index");
             Assign (Tuple [Name "x_i"; Name "x_j"])
               (Tuple
                 [Subscript (Name "x") (Name "row");
                  Subscript (Name "x") (Name "col")]);
             Return
               (Call (Attr (Name "self") "f")
                 [Call (Attr (Name "torch") "cat")
                    [ListE [Name "x_i"; Name "x_j"; Name "edge_attr"]]
                    [("dim", Neg (Num 1%Z))]]
                 [])];
          FunctionDef "message" [("self", None); ("edge_attr", None)]
            [Return (Name "edge_attr")];
          FunctionDef "update"
            [("self", None); ("aggr_msg", None); ("x", None)]
            [Return
               (Call (Attr (Name "self") "g")
                 [Call (Attr (Name "torch") "cat")
                    [ListE [Name "x"; Name "aggr_msg"]]
                    [("dim", Neg (Num 1%Z))]]
                 [])]]]);
     (12,
      [Assign (Name "conv")
         (Call (Name "InteractionNetworkLayer") [] [("dim", Name "n_dim")]);
       Assign (Tuple [Name "updated_nf"; Name "updated_ef"])
         (Call (Name "conv")
           [Attr (Name "g") "x";
            Attr (Name "g") "edge_index";
            Attr (Name "g") "edge_attr"]
           []);
       ExprStmt
         (Call (Name "print")
           [Attr (Name "updated_nf") "shape";
            Attr (Name "updated_ef") "shape"]
           [])]);
     (14,
      [FromImport "torch_geometric.nn" ["aggr"];
       ClassDef "AttentiveINLayer" [Name "MessagePassing"]
         [FunctionDef "__init__" [("self", None); ("dim", None)]
            [Assign (Name "gate_nn")
               (Call (Attr (Name "nn") "Sequential")
                 [Call (Attr (Name "nn") "Linear") [Name "dim"; Name "dim"]
                    [];
                  Call (Attr (Name "nn") "Tanh") [] [];
                  Call (Attr (Name "nn") "Linear") [Name "dim"; Num 1%Z] []]
                 []);
             ExprStmt
               (Call (Attr (Call (Name "super") [] []) "__init__") []
                 [("aggr",
                   Call (Attr (Name "aggr") "AttentionalAggregation") []
                     [("gate_nn", Name "gate_nn")])]);
             Assign (Attr (Name "self") "f")
               (Call (Attr (Name "nn") "Sequential")
                 [Call (Attr (Name "nn") "Linear")
                    [BinOp (Name "dim") "*" (Num 3%Z); Name "dim"]
                    [];
                  Call (Attr (Name "nn") "ReLU") [] [];
                  Call (Attr (Name "nn") "Linear") [Name "dim"; Name "dim"]
                    []]
                 []);
             Assign (Attr (Name "self") "g")
               (Call (Attr (Name "nn") "Sequential")
                 [Call (Attr (Name "nn") "Linear")
                    [BinOp (Name "dim") "*" (Num 2%Z); Name "dim"]
                    [];
                  Call (Attr (Name "nn") "ReLU") [] [];
                  Call (Attr (Name "nn") "Linear") [Name "dim"; Name "dim"]
                    []]
                 [])];
          FunctionDef "forward"
            [("self", None); ("x", None); ("edge_index", None);
             ("edge_attr", None)]
            [Assign (Name "updated_ef")
               (Call (Attr (Name "self") "edge_updater") []
                 [("edge_index", Name "edge_index"); ("x", Name "x");
                  ("edge_attr", Name "edge_attr")]);
             Assign (Name "updated_nf")
               (Call (Attr (Name "self") "propagate") [Name "edge_index"]
                 [("x", Name "x"); ("edge_attr", Name "updated_ef")]);
             Return (Tuple [Name "updated_nf"; Name "updated_ef"])];
          FunctionDef "edge_update"
            [("self", None); ("x", None); ("edge_index", None);
             ("edge_attr", None)]
            [Assign (Tuple [Name "row"; Name "col"]) (Name "edge_index");
             Assign (Tuple [Name "x_i"; Name "x_j"])
               (Tuple
                 [Subscript (Name "x") (Name "row");
                  Subscript (Name "x") (Name "col")]);
             Return
               (Call (Attr (Name "self") "f")
                 [Call (Attr (Name "torch") "cat")
                    [ListE [Name "x_i"; Name "x_j"; Name "edge_attr"]]
                    [("dim", Neg (Num 1%Z))]]
                 [])];
          FunctionDef "message" [("self", None); ("edge_attr", None)]
            [Return (Name "edge_attr")];
          FunctionDef "update"
            [("self", None); ("aggr_msg", None); ("x", None)]
            [Return
               (Call (Attr (Name "self") "g")
                 [Call (Attr (Name "torch") "cat")
                    [ListE [Name "x"; Name "aggr_msg"]]
                    [("dim", Neg (Num 1%Z))]]
                 [])]]]);
     (15,
      [Assign (Name "conv")
         (Call (Name "AttentiveINLayer") [] [("dim", Name "n_dim")]);
       Assign (Tuple [Name "updated_nf"; Name "updated_ef"])
         (Call (Name "conv")
           [Attr (Name "g") "x";
            Attr (Name "g") "edge_index";
            Attr (Name "g") "edge_attr"]
           []);
       ExprStmt
         (Call (Name "print")
           [Attr (Name "updated_nf") "shape";
            Attr (Name "updated_ef") "shape"]
           [])])]
|}.

Definition gnn : notebook := {|
  nb_name := "2.gnn.ipynb";
  cells :=
    [(3,
      [FromImport "torch_geometric.nn" ["Sequential"];
       FromImport "torch_geometric.data" ["Batch"];
       FromImport "common.graph_gen" ["generate_random_graph"];
       FromImport "common.layers" ["InteractionNetworkLayer"];
       ExprStmt
         (Call (Name "print")
           [Call (Name "help")
              [Attr (Name "InteractionNetworkLayer") "forward"]
              []]
           [])]);
     (4,
      [Assign (Name "dim") (Num 5%Z);
       Assign (Name "model")
         (Call (Name "Sequential")
           [Str "x, edge_index, edge_attr";
            ListE
              [Tuple
                 [Call (Name "InteractionNetworkLayer") [Name "dim"] [];
                  Str "x, edge_index, edge_attr -> x, edge_attr"];
               Tuple
                 [Call (Name "InteractionNetworkLayer") [Name "dim"] [];
                  Str "x, edge_index, edge_attr -> x, edge_attr"]]]
           [])]);
     (5,
      [Assign (Name "gs")
         (Call (Attr (Name "Batch") "from_data_list")
           [ListComp
              (Call (Name "generate_random_graph")
                [BinOp (Num 5%Z) "*" (BinOp (Name "i") "+" (Num 1%Z))]
                [("node_feat_dim", Name "dim");
                 ("edge_feat_dim", Name "dim")])
              (Name "i")
              (Call (Name "range") [Num 3%Z] [])]
           [])]);
     (6,
      [Assign (Tuple [Name "unf"; Name "uef"])
         (Call (Name "model")
           [Attr (Name "gs") "x";
            Attr (Name "gs") "edge_index";
            Attr (Name "gs") "edge_attr"]
           [])]);
     (9,
      [FromImport "torch_geometric.nn" ["GCNConv"];
       Assign (Name "out_dim") (Num 13%Z);
       Assign (Name "gcn_conv")
         (Call (Name "GCNConv") [Name "dim"; Name "out_dim"] []);
       Assign (Name "updated_x")
         (Call (Name "gcn_conv")
           [Attr (Name "gs") "x"; Attr (Name "gs") "edge_index"]
           []);
       ExprStmt
         (Call (Name "print")
           [FString
              [Str "Input node feature size: ";
               Attr (Attr (Name "gs") "x") "shape"]]
           []);
       ExprStmt
         (Call (Name "print")
           [FString
              [Str "Output node feature size: ";
               Attr (Name "updated_x") "shape"; Str " \n"]]
           []);
       Assign (Name "gcn")
         (Call (Name "Sequential")
           [Str "x, edge_index";
            ListE
              [Tuple
                 [Call (Name "GCNConv") [Name "dim"; Name "dim"] [];
                  Str "x, edge_index -> x"];
               Tuple
                 [Call (Name "GCNConv") [Name "dim"; Name "dim"] [];
                  Str "x, edge_index -> x"];
               Tuple
                 [Call (Name "GCNConv") [Name "dim"; Name "dim"] [];
                  Str "x, edge_index -> x"]]]
           []);
       ExprStmt
         (Call (Name "print")
           [FString [Str "Model spec: \n "; Name "gcn"; Str " \n"]]
           []);
       Assign (Name "gcn_out")
         (Call (Name "gcn")
           [Attr (Name "gs") "x"; Attr (Name "gs") "edge_index"]
           []);
       ExprStmt
         (Call (Name "print")
           [FString
              [Str "Input node feature size: ";
               Attr (Attr (Name "gs") "x") "shape"]]
           []);
       ExprStmt
         (Call (Name "print")
           [FString
              [Str "GCN output node feature size: ";
               Attr (Name "gcn_out") "shape"]]
           [])]);
     (11,
      [FromImport "torch_geometric.nn.models" ["GCN"];
       Assign (Name "gcn")
         (Call (Name "GCN") []
           [("in_channels", Name "dim");
            ("hidden_channels", Name "dim");
            ("out_channels", Name "dim"); ("num_layers", Num 3%Z)]);
       Assign (Name "gcn_out")
         (Call (Name "gcn")
           [Attr (Name "gs") "x"; Attr (Name "gs") "edge_index"]
           []);
       ExprStmt
         (Call (Name "print")
           [FString
              [Str "Input node feature size: ";
               Attr (Attr (Name "gs") "x") "shape"]]
           []);
       ExprStmt
         (Call (Name "print")
           [FString
              [Str "GCN output node feature size: ";
               Attr (Name "gcn_out") "shape"]]
           [])]);
     (13,
      [FromImport "torch_geometric.nn" ["SAGEConv"];
       Assign (Name "sage_conv")
         (Call (Name "SAGEConv") []
           [("in_channels", Name "dim");
            ("out_channels", Name "dim"); ("aggr", Str "mean")]);
       ExprStmt (Call (Name "print") [Name "sage_conv"] []);
       Assign (Name "sage_out")
         (Call (Name "sage_conv")
           [Attr (Name "gs") "x"; Attr (Name "gs") "edge_index"]
           []);
       ExprStmt
         (Call (Name "print")
           [FString
              [Str "Input node feature size: ";
               Attr (Attr (Name "gs") "x") "shape"]]
           []);
       ExprStmt
         (Call (Name "print")
           [FString
              [Str "Graph SAVE output node feature size: ";
               Attr (Name "sage_out") "shape"]]
           [])]);
     (14,
      [FromImport "torch_geometric.nn.models" ["GraphSAGE"];
       Assign (Name "sage_conv_kwargs") (Dict [(Str "aggr", Str "mean")]);
       Assign (Name "graph_sage")
         (Call (Name "GraphSAGE") []
           [("in_channels", Neg (Num 1%Z));
            ("hidden_channels", Name "dim");
            ("out_channels", Num 13%Z); ("num_layers", Num 3%Z);
            ("**", Name "sage_conv_kwargs")]);
       ExprStmt (Name "graph_sage")]);
     (15,
      [Assign (Name "graph_sage_out")
         (Call (Name "graph_sage")
           [Attr (Name "gs") "x"; Attr (Name "gs") "edge_index"]
           []);
       ExprStmt
         (Call (Name "print")
           [FString
              [Str "Input node feature size: ";
               Attr (Attr (Name "gs") "x") "shape"]]
           []);
       ExprStmt
         (Call (Name "print")
           [FString
              [Str "Graph SAVE output node feature size: ";
               Attr (Name "graph_sage_out") "shape"]]
           [])]);
     (18,
      [FromImport "torch_geometric.nn.pool"
         ["global_add_pool"; "global_mean_pool"; "global_max_pool"];
       Assign (Name "pooled")
         (Call (Name "global_add_pool") []
           [("x", Attr (Name "gs") "x");
            ("batch", Attr (Name "gs") "batch")]);
       ExprStmt (Attr (Name "pooled") "shape")]);
     (20,
      [ImportAs "torch" None;
       FromImport "torch_scatter" ["scatter"];
       FromImport "torch_geometric.utils" ["scatter"];
       Assign (Tuple [Name "dim1"; Name "dim2"]) (Tuple [Num 11%Z; Num 13%Z]);
       Assign (Name "src")
         (Call (Attr (Name "torch") "randn")
           [Num 6%Z; Name "dim1"; Name "dim2"]
           []);
       Assign (Name "index")
         (Call (Attr (Name "torch") "tensor")
           [ListE [Num 0%Z; Num 1%Z; Num 0%Z; Num 1%Z; Num 2%Z; Num 1%Z]]
           []);
       Assign (Name "out_naive")
         (Call (Attr (Name "torch") "zeros")
           [Subscript
              (Attr (Call (Attr (Name "index") "unique") [] []) "shape")
              (Num 0%Z);
            Name "dim1"; Name "dim2"]
           []);
       For (Name "i")
         (Call (Attr (Call (Attr (Name "index") "unique") [] []) "tolist") []
           [])
         [Assign (Subscript (Name "out_naive") (Name "i"))
            (Call
              (Attr
                (Subscript (Name "src")
                  (BinOp (Name "index") "==" (Name "i")))
                "sum")
              []
              [("dim", Num 0%Z)])];
       Assign (Name "out")
         (Call (Name "scatter") [Name "src"; Name "index"]
           [("dim", Num 0%Z); ("reduce", Str "sum")]);
       Assert
         (Call (Attr (Name "torch") "allclose") [Name "out_naive"; Name "out"]
           [])]);
     (21,
      [FromImport "torch_geometric.utils" ["segment"];
       Assign (Name "src")
         (Call (Attr (Name "torch") "randn") [Num 10%Z; Num 6%Z; Num 64%Z]
           []);
       Assign (Name "indptr")
         (Call (Attr (Name "torch") "tensor")
           [ListE [Num 0%Z; Num 2%Z; Num 5%Z; Num 6%Z]]
           []);
       Assign (Name "indptr")
         (Call (Attr (Name "indptr") "view") [Num 1%Z; Neg (Num 1%Z)] []);
       Assign (Name "out")
         (Call (Name "segment") [Name "src"; Name "indptr"]
           [("reduce", Str "sum")])]);
     (23,
      [FromImport "torch_scatter.composite"
         ["scatter_softmax"; "scatter_std"; "scatter_logsumexp"];
       FromImport "torch_geometric.utils" ["softmax"];
       Assign (Name "src")
         (Call (Attr (Name "torch") "randn") [Num 10%Z; Num 1%Z] []);
       Assign (Name "idx")
         (Call (Attr (Name "torch") "tensor")
           [ListE
              [Num 0%Z; Num 0%Z; Num 0%Z; Num 1%Z; Num 1%Z; Num 2%Z; Num 2%Z;
               Num 2%Z; Num 2%Z; Num 2%Z]]
           []);
       Assign (Name "out")
         (Call (Name "scatter_softmax") [Name "src"; Name "idx"]
           [("dim", Num 0%Z)]);
       ExprStmt (Call (Name "print") [Attr (Name "out") "shape"] []);
       ExprStmt (Call (Name "print") [Str "Results of 'scatter_softmax'"] []);
       ExprStmt
         (Call (Name "print")
           [FString
              [Str "1st batch: ";
               Call
                 (Attr (Subscript (Name "out") (Slice None (Some (Num 3%Z))))
                   "view")
                 [Neg (Num 1%Z)]
                 [];
               Str ", sum=";
               Call
                 (Attr (Subscript (Name "out") (Slice None (Some (Num 3%Z))))
                   "sum")
                 []
                 []]]
           []);
       ExprStmt
         (Call (Name "print")
           [FString
              [Str "2nd batch: ";
               Call
                 (Attr
                   (Subscript (Name "out")
                     (Slice (Some (Num 3%Z)) (Some (Num 5%Z))))
                   "view")
                 [Neg (Num 1%Z)]
                 [];
               Str ", sum=";
               Call
                 (Attr
                   (Subscript (Name "out")
                     (Slice (Some (Num 3%Z)) (Some (Num 5%Z))))
                   "sum")
                 []
                 []]]
           []);
       ExprStmt
         (Call (Name "print")
           [FString
              [Str "3rd batch: ";
               Call
                 (Attr (Subscript (Name "out") (Slice (Some (Num 5%Z)) None))
                   "view")
                 [Neg (Num 1%Z)]
                 [];
               Str ", sum=";
               Call
                 (Attr (Subscript (Name "out") (Slice (Some (Num 5%Z)) None))
                   "sum")
                 []
                 []]]
           [])])]
|}.

Definition dataloader : notebook := {|
  nb_name := "3.dataloader.ipynb";
  cells :=
    [(1,
      [ImportAs "warnings" None;
       ExprStmt
         (Call (Attr (Name "warnings") "filterwarnings") []
           [("action", Str "ignore")])]);
     (2,
      [ImportAs "torch" None;
       FromImport "torch.utils.data" ["Dataset"];
       FromImport "torch_geometric.utils" ["erdos_renyi_graph"];
       FromImport "torch_geometric.data" ["Data"]]);
     (3,
      [FunctionDef "generate_er_graph"
         [("num_nodes", None); ("edge_prob", None);
          ("feat_dim", Some (Num 16%Z))]
         [Assign (Name "edge_idx")
            (Call (Name "erdos_renyi_graph") []
              [("num_nodes", Name "num_nodes");
               ("edge_prob", Name "edge_prob")]);
          Assign (Name "x")
            (Call (Attr (Name "torch") "randn")
              [Name "num_nodes"; Name "feat_dim"]
              []);
          Assign (Name "y")
            (Call
              (Attr
                (BinOp (Call (Attr (Name "x") "sum") [] []) "/"
                  (Name "num_nodes"))
                "view")
              [Num 1%Z; Num 1%Z]
              []);
          Assign (Name "dummy")
            (Call (Attr (Name "torch") "randn") [Name "num_nodes"; Num 32%Z]
              []);
          Assign (Name "g")
            (Call (Name "Data") []
              [("x", Name "x");
               ("edge_index", Name "edge_idx"); ("y", Name "y");
               ("dummy", Name "dummy")]);
          Return (Name "g")]]);
     (4,
      [ClassDef "ERDataset" [Name "Dataset"]
         [FunctionDef "__init__"
            [("self", None); ("num_graphs", None);
             ("min_num_nodes", Some (Num 32%Z));
             ("max_num_nodes", Some (Num 64%Z));
             ("edge_prob", Some (Float "0.3"))]
            [Assign (Name "num_nodes")
               (Call (Attr (Name "torch") "randint")
                 [Name "min_num_nodes"; Name "max_num_nodes";
                  Tuple [Name "num_graphs"]]
                 []);
             Assign (Attr (Name "self") "gs")
               (ListComp
                 (Call (Name "generate_er_graph")
                   [Subscript (Name "num_nodes") (Name "i"); Name "edge_prob"]
                   [])
                 (Name "i")
                 (Call (Name "range") [Name "num_graphs"] []))];
          FunctionDef "__getitem__" [("self", None); ("index", None)]
            [Return (Subscript (Attr (Name "self") "gs") (Name "index"))];
          FunctionDef "__len__" [("self", None)]
            [Return (Call (Name "len") [Attr (Name "self") "gs"] [])]]]);
     (5,
      [Assign (Name "dataset") (Call (Name "ERDataset") [Num 128%Z] []);
       ExprStmt
         (Call (Name "print") [Subscript (Name "dataset") (Num 0%Z)] [])]);
     (7,
      [FromImport "torch_geometric.data" ["DataLoader"];
       Assign (Name "dataloader")
         (Call (Name "DataLoader") [Name "dataset"]
           [("follow_batch", ListE [Str "batch"]);
            ("exclude_keys", ListE [Str "dummy"]); ("batch_size", Num 32%Z);
            ("shuffle", Const "True")]);
       Assign (Name "batched_g")
         (Call (Name "next") [Call (Name "iter") [Name "dataloader"] []] []);
       ExprStmt (Call (Name "print") [Name "batched_g"] []);
       ExprStmt
         (Call (Name "print")
           [FString
              [Str "Number of graphs in batch: ";
               Attr (Name "batched_g") "num_graphs"]]
           [])]);
     (9,
      [FromImport "torch_geometric.nn.models" ["GCN"];
       Assign (Name "model")
         (Call (Name "GCN") []
           [("in_channels", Num 16%Z);
            ("hidden_channels", Num 32%Z);
            ("out_channels", Num 1%Z); ("num_layers", Num 3%Z)]);
       Assign (Name "pred")
         (Call (Name "model")
           [Attr (Name "batched_g") "x"; Attr (Name "batched_g") "edge_index"]
           []);
       ExprStmt (Call (Name "print") [Attr (Name "pred") "shape"] [])])]
|}.

Definition gcn : notebook := {|
  nb_name := "Tutorial 4 (GCN)";
  cells :=
    [(1,
      [ImportAs "torch" None;
       FromImport "torch_geometric.datasets" ["Planetoid"; "NELL"];
       FromImport "torch_geometric.nn.models" ["GCN"];
       FromImport "tqdm.auto" ["tqdm"]]);
     (2,
      [FunctionDef "get_dataset" [("name", None)]
         [Assert
            (BinOp (Name "name") "in"
              (ListE [Str "Cora"; Str "CiteSeer"; Str "PubMed"]));
          Assign (Name "dataset")
            (Call (Name "Planetoid") []
              [("root", FString [Str "/tmp/"; Name "name"]);
               ("name", FString [Name "name"])]);
          Return (Name "dataset")];
       FunctionDef "train"
         [("model", None); ("data", None);
          ("num_epochs", Some (Num 200%Z));
          ("device", Some (Str "cpu"))]
         [Assign (Name "model")
            (Call (Attr (Name "model") "to") [Name "device"] []);
          Assign (Name "data")
            (Call (Attr (Name "data") "to") [Name "device"] []);
          Assign (Name "opt")
            (Call (Attr (Attr (Name "torch") "optim") "Adam")
              [Call (Attr (Name "model") "parameters") [] []]
              [("lr", Float "0.001"); ("weight_decay", Float "0.0005")]);
          Assign (Name "loss_fn")
            (Call (Attr (Attr (Name "torch") "nn") "CrossEntropyLoss") [] []);
          ExprStmt (Call (Attr (Name "model") "train") [] []);
          Assign (Name "pbar")
            (Call (Name "tqdm") [Call (Name "range") [Name "num_epochs"] []]
              [("total", Name "num_epochs"); ("ascii", Str " =");
               ("leave", Const "True")]);
          For (Name "epoch") (Name "pbar")
            [Assign (Name "out")
               (Call (Name "model")
                 [Attr (Name "data") "x"; Attr (Name "data") "edge_index"]
                 []);
             ExprStmt (Call (Attr (Name "opt") "zero_grad") [] []);
             Assign (Name "loss")
               (Call (Name "loss_fn")
                 [Subscript (Name "out") (Attr (Name "data") "train_mask");
                  Subscript (Attr (Name "data") "y")
                    (Attr (Name "data") "train_mask")]
                 []);
             ExprStmt (Call (Attr (Name "loss") "backward") [] []);
             ExprStmt (Call (Attr (Name "opt") "step") [] []);
             ExprStmt
               (Call (Attr (Name "pbar") "set_description")
                 [Call (Attr (Str "Epoch {:03d} loss {:.4f}") "format")
                    [Name "epoch"; Call (Attr (Name "loss") "item") [] []]
                    []]
                 [])];
          Assign (Name "model")
            (Call (Attr (Name "model") "to") [Str "cpu"] [])];
       FunctionDef "test" [("model", None); ("data", None)]
         [ExprStmt (Call (Attr (Name "model") "eval") [] []);
          Assign (Tuple [Name "_"; Name "pred"])
            (Call
              (Attr
                (Call (Name "model")
                  [Attr (Name "data") "x"; Attr (Name "data") "edge_index"]
                  [])
                "max")
              []
              [("dim", Num 1%Z)]);
          Assign (Name "correct")
            (Call (Name "int")
              [Call
                 (Attr
                   (Call
                     (Attr
                       (Call
                         (Attr
                           (Subscript (Name "pred")
                             (Attr (Name "data") "test_mask"))
                           "eq")
                         [Subscript (Attr (Name "data") "y")
                            (Attr (Name "data") "test_mask")]
                         [])
                       "sum")
                     []
                     [])
                   "item")
                 []
                 []]
              []);
          Assign (Name "acc")
            (BinOp (Name "correct") "/"
              (Call (Name "int")
                [Call (Attr (Attr (Name "data") "test_mask") "sum") [] []]
                []));
          ExprStmt
            (Call (Name "print")
              [Call (Attr (Str "Accuracy: {:.4f}") "format") [Name "acc"] []]
              [])]]);
     (3,
      [Assign (Name "dataset_names")
         (ListE [Str "Cora"; Str "CiteSeer"; Str "PubMed"]);
       Assign (Name "device") (Str "cuda:0");
       For (Name "dataset_name") (Name "dataset_names")
         [Assign (Name "dataset")
            (Call (Name "get_dataset") [Name "dataset_name"] []);
          Assign (Name "model")
            (Call (Name "GCN") []
              [("in_channels", Attr (Name "dataset") "num_node_features");
               ("hidden_channels", Num 32%Z); ("num_layers", Num 2%Z);
               ("out_channels", Attr (Name "dataset") "num_classes");
               ("dropout", Float "0.5"); ("norm", Str "batch")]);
          ExprStmt
            (Call (Name "train")
              [Name "model"; Subscript (Name "dataset") (Num 0%Z)]
              [("device", Name "device")]);
          ExprStmt
            (Call (Name "print")
              [FString [Str "--- "; Name "dataset_name"; Str " ---"]]
              []);
          ExprStmt
            (Call (Name "test")
              [Name "model"; Subscript (Name "dataset") (Num 0%Z)]
              [])]])]
|}.

Definition byo_graphs : notebook := {|
  nb_name := "Tutorial 0 - B.Y.O.Graphs.ipynb";
  cells :=
    [(2,
      [ImportAs "networkx" (Some "nx");
       ImportAs "matplotlib.pyplot" (Some "plt")]);
     (3,
      [Assign (Name "G") (Call (Attr (Name "nx") "Graph") [] []);
       ExprStmt (Call (Attr (Name "G") "add_node") [Num 1%Z] []);
       ExprStmt (Call (Attr (Name "G") "add_node") [Num 2%Z] []);
       ExprStmt (Call (Attr (Name "G") "add_node") [Num 3%Z] []);
       ExprStmt (Call (Attr (Name "nx") "draw") [Name "G"] [])]);
     (5,
      [ExprStmt (Call (Attr (Name "G") "add_edge") [Num 1%Z; Num 2%Z] []);
       ExprStmt (Call (Attr (Name "G") "add_edge") [Num 2%Z; Num 3%Z] []);
       ExprStmt (Call (Attr (Name "nx") "draw") [Name "G"] [])]);
     (7, [ImportAs "dgl" None; ImportAs "torch" None]);
     (8,
      [Assign (Tuple [Name "u"; Name "v"])
         (Tuple
           [Call (Attr (Name "torch") "tensor")
              [ListE [Num 0%Z; Num 0%Z; Num 0%Z; Num 1%Z]]
              [];
            Call (Attr (Name "torch") "tensor")
              [ListE [Num 1%Z; Num 2%Z; Num 3%Z; Num 3%Z]]
              []]);
       Assign (Name "g")
         (Call (Attr (Name "dgl") "graph") [Tuple [Name "u"; Name "v"]] []);
       ExprStmt (Call (Name "print") [Name "g"] [])]);
     (10,
      [Assign (Name "g")
         (Call (Attr (Name "dgl") "graph") [Tuple [Name "u"; Name "v"]]
           [("num_nodes", Num 8%Z)]);
       ExprStmt (Call (Name "print") [Name "g"] [])]);
     (12,
      [Assign (Name "node_feat_dim") (Num 7%Z);
       Assign (Name "edge_feat_dim") (Num 3%Z)]);
     (13,
      [Assign (Subscript (Attr (Name "g") "ndata") (Str "feat"))
         (Call (Attr (Name "torch") "randn")
           [Call (Attr (Name "g") "number_of_nodes") [] [];
            Name "node_feat_dim"]
           []);
       Assign (Subscript (Attr (Name "g") "edata") (Str "feat"))
         (Call (Attr (Name "torch") "randn")
           [Call (Attr (Name "g") "number_of_edges") [] [];
            Name "edge_feat_dim"]
           []);
       ExprStmt (Call (Name "print") [Name "g"] [])])]
|}.

Definition all : list notebook :=
  [mp_layer; gnn; dataloader; gcn; byo_graphs].

End Notebooks.

(** ** The layers with edge features of [1.mp_layer.ipynb] *)

Module INLayer.
Section defs.
Context {N E : Type} `{TensorOps E}.

(** [x[idx]] for an index tensor [idx] of positions: the rows of [x] at
    these positions; [INLayerLong.tensor_getitem] below takes any
    integers. *)
Fixpoint tensor_getitem (x : list N) (idx : list nat) : result (list N) :=
  match idx with
  | [] => Ok []
  | j :: idx' =>
      match x !! j with
      | Some v => let! rest := tensor_getitem x idx' in Ok (v :: rest)
      | None => Raise IndexError
      end
  end.

(** [self.f(torch.cat([x_i, x_j, edge_attr], dim=-1))]: the three tensors
    must have as many rows, and [f] is [self.f] on one concatenated row. *)
Definition edge_update (f : N → N → E → E) (x : list N)
    (edge_index : list (nat * nat)) (edge_attr : list E) : result (list E) :=
  let row := fst <$> edge_index in
  let col := snd <$> edge_index in
  let! x_i := tensor_getitem x row in
  let! x_j := tensor_getitem x col in
  if decide (length edge_attr = length x_i)
  then Ok (zip_with (λ ends a, f ends.1 ends.2 a) (zip x_i x_j) edge_attr)
  else Raise LibraryError.

(** [self.propagate(edge_index, x=x, edge_attr=updated_ef)] for a layer
    whose [message(self, edge_attr)] returns [edge_attr] and whose
    [update(self, aggr_msg, x)] returns [self.g(torch.cat([x, aggr_msg]))].
    Neither hook asks for [x_i] or [x_j], so [propagate] learns no number
    of nodes from [x] and the aggregation sizes its output from the largest
    target index; [torch.cat] then needs [aggr_msg] to have as many rows
    as [x].  [aggregate] is the aggregation chosen in the constructor,
    applied to the messages and to the targets [edge_index[1]]. *)
Definition propagate (aggregate : list E → list nat → result (list E))
    (g : N → E → N) (x : list N) (edge_index : list (nat * nat))
    (edge_attr : list E) : result (list N) :=
  let msg := edge_attr in
  let! aggr_msg := aggregate msg (snd <$> edge_index) in
  if decide (length aggr_msg = length x)
  then Ok (zip_with g x aggr_msg)
  else Raise LibraryError.

(** The [forward] that both classes define, word for word. *)
Definition forward_with (aggregate : list E → list nat → result (list E))
    (f : N → N → E → E) (g : N → E → N) (x : list N)
    (edge_index : list (nat * nat)) (edge_attr : list E)
    : result (list N * list E) :=
  let! updated_ef := edge_update f x edge_index edge_attr in
  let! updated_nf := propagate aggregate g x edge_index updated_ef in
  Ok (updated_nf, updated_ef).

(** [InteractionNetworkLayer(dim)]: [aggr='add'], the networks [self.f] and
    [self.g]. *)
Record InteractionNetworkLayer : Type := {
  f : N → N → E → E;
  g : N → E → N
}.

Definition forward (self : InteractionNetworkLayer) (x : list N)
    (edge_index : list (nat * nat)) (edge_attr : list E)
    : result (list N * list E) :=
  forward_with (λ msg index, Scatter.scatter msg index None)
    (f self) (g self) x edge_index edge_attr.




(** The number of rows the aggregation returns when it is not told the
    number of nodes. *)
Definition inferred_size (edge_index : list (nat * nat)) : nat :=
  match snd <$> edge_index with
  | [] => 0
  | index => S (max_list index)
  end.

End defs.
End INLayer.

(** ** [EdgeConv] of [1.mp_layer.ipynb] *)

(** The messages of [EdgeConv] are compared entrywise: [mmax] is the
    entrywise maximum of two rows and [mzero] the zero row. *)
Class MaxOps (M : Type) : Type := {
  mzero : M;
  mmax : M → M → M
}.

(** [a - b] on rows. *)
Class TensorSub (N : Type) : Type := {
  tsub : N → N → N
}.

#[global] Instance Z_max_ops : MaxOps Z := {| mzero := 0%Z; mmax := Z.max |}.
#[global] Instance Z_tensor_sub : TensorSub Z := {| tsub := Z.sub |}.

Module EdgeConvLayer.
Section defs.
Context {N M : Type} `{MaxOps M} `{TensorSub N}.

(** The maximum of the messages of one node; the zero row when there is
    none. *)
Definition max_of (ms : list M) : M :=
  match ms with
  | [] => mzero
  | m :: ms' => foldl mmax m ms'
  end.

(** One message [m] arriving at a row that holds [o]: nothing yet, or the
    maximum so far. *)
Definition arrive (o : option M) (m : M) : option M :=
  Some (match o with
        | None => m
        | Some a => mmax a m
        end).

(** The [max] aggregation of PyG with a known number of nodes: row [i] of
    the output is the maximum of the messages sent to [i], and stays zero
    when nothing is sent to [i]. *)
Definition scatter_max (msg : list M) (index : list nat) (dim_size : nat)
    : result (list M) :=
  if decide (length index = length msg) then
    if decide (Forall (λ i, i < dim_size) index)
    then Ok (default mzero <$>
               foldl (λ acc p, alter (λ o, arrive o p.2) p.1 acc)
                 (replicate dim_size None) (zip index msg))
    else Raise LibraryError
  else Raise LibraryError.

(** [EdgeConv(dim)]: [aggr='max'] and the network [self.h]; [h xi d] is
    [self.h] on the concatenation of the rows [xi] and [d]. *)
Record EdgeConv : Type := {
  h : N → N → M
}.

(** [message(self, x_i, x_j)], on the rows gathered along the edges. *)
Definition message (self : EdgeConv) (x_i x_j : list N) : list M :=
  zip_with (λ xi xj, h self xi (tsub xj xi)) x_i x_j.

(** [self.propagate(edge_index, x=x)].  PyG hands to [message] the rows of
    the aggregating nodes as [x_i], gathered along the targets
    [edge_index[1]], and the rows of their neighbours as [x_j], gathered
    along the sources [edge_index[0]] (the comment in the cell names them
    the other way round; the formula above the cell, with [x_i] the node
    that takes the maximum, is the one the code computes).  The messages
    are reduced per target over the nodes of [x]. *)
Definition propagate (self : EdgeConv) (edge_index : list (nat * nat))
    (x : list N) : result (list M) :=
  let! x_i := NaiveGCN.index_select x (snd <$> edge_index) in
  let! x_j := NaiveGCN.index_select x (fst <$> edge_index) in
  let msg := message self x_i x_j in
  let! out := scatter_max msg (snd <$> edge_index) (length x) in
  Ok out.

Definition forward (self : EdgeConv) (x : list N)
    (edge_index : list (nat * nat)) : result (list M) :=
  propagate self edge_index x.

End defs.
End EdgeConvLayer.

(** ** Tutorial 4: evaluation and the driver cell *)

Module Evaluation.
Section defs.
Context {X EI Logits : Type}.

(** The attributes of a Planetoid graph that [test] reads. *)
Record Data : Type := {
  x : X;
  edge_index : EI;
  y : list nat;
  test_mask : list bool
}.

(** What a call of [test] ends with.  [Accuracy correct total]: the
    division [correct / total] succeeded and [test] goes on to print its
    quotient; the two integers are kept, while the quotient as a float and
    the text that ['{:.4f}'] makes of it, rounded to four decimals, are not
    modelled.  [ZeroDivisionError]: that division failed.  [Raised e]: an
    exception was raised before. *)
Inductive outcome : Type :=
| Accuracy (correct total : nat)
| ZeroDivisionError
| Raised (e : exn).

(** [int(mask.sum())] *)
Definition count_true (mask : list bool) : nat :=
  length (filter (λ b, b = true) mask).

(** [test(model, data)].  [model] is the forward pass of the model in
    evaluation mode and [argmax] the index returned by [.max(dim=1)] for one
    row of its output. *)
Definition test (argmax : Logits → nat)
    (model : X → EI → result (list Logits)) (data : Data) : outcome :=
  match model (x data) (edge_index data) with
  | Raise e => Raised e
  | Ok out =>
      let pred := argmax <$> out in
      match Scatter.masked_select pred (test_mask data) with
      | Raise e => Raised e
      | Ok p =>
          match Scatter.masked_select (y data) (test_mask data) with
          | Raise e => Raised e
          | Ok t =>
              let correct := length (filter (λ pt, pt.1 = pt.2) (zip p t)) in
              let total := count_true (test_mask data) in
              if decide (total = 0) then ZeroDivisionError
              else Accuracy correct total
          end
      end
  end.

End defs.

Section driver.
Context {Dataset Failure : Type}.

(** Where the last cell stops, if it does: in [get_dataset], with the
    exception it raises, or in what follows for the dataset of that name
    (building, training and testing a model), with a failure of theirs. *)
Inductive stopped : Type :=
| InGetDataset (e : exn)
| InRun (dataset_name : string) (failure : Failure).

(** [for dataset_name in dataset_names: ...]; [None] when the loop runs to
    its end. *)
Fixpoint for_names (body : string → option stopped) (names : list string)
    : option stopped :=
  match names with
  | [] => None
  | name :: names' =>
      match body name with
      | Some stop => Some stop
      | None => for_names body names'
      end
  end.

(** The last cell; [run] stands for everything it does with a dataset
    after [get_dataset] has returned it. *)
Definition driver (Planetoid : string → string → result Dataset)
    (run : string → Dataset → option Failure) : option stopped :=
  let dataset_names := ["Cora"; "CiteSeer"; "PubMed"] in
  for_names (λ dataset_name,
               match GCNTutorial.get_dataset Planetoid dataset_name with
               | Raise e => Some (InGetDataset e)
               | Ok dataset =>
                   InRun dataset_name <$> run dataset_name dataset
               end)
    dataset_names.

End driver.
End Evaluation.

(** ** Cell 13 of the DGL tutorial, for any graph *)

Module DGLFeatures.
Section defs.
Context `{Torch}.
Import DGL.

(** [g.ndata['feat'] = torch.randn(g.number_of_nodes(), node_feat_dim)]
    and [g.edata['feat'] = torch.randn(g.number_of_edges(), edge_feat_dim)]. *)
Definition attach_features (g : DGLGraph) (node_feat_dim edge_feat_dim : Z)
    : M rng DGLGraph :=
  do! nf := randn (Z.of_nat (number_of_nodes g)) node_feat_dim in
  do! g := lift (set_ndata g "feat" nf) in
  do! ef := randn (Z.of_nat (number_of_edges g)) edge_feat_dim in
  do! g := lift (set_edata g "feat" ef) in
  ret g.

End defs.
End DGLFeatures.

(** ** Integer tensors used as indices *)

Module TensorIndex.

(** The position that torch reads for the integer [i] in a dimension of [n]
    slices when a tensor is indexed, [t[i]] or [t[idx]]: a negative [i]
    counts from the end, and anything outside [-n, n) is refused. *)
Definition position (n : nat) (i : Z) : option nat :=
  if decide (0 ≤ i < Z.of_nat n)%Z then Some (Z.to_nat i)
  else if decide (- Z.of_nat n ≤ i < 0)%Z then Some (Z.to_nat (Z.of_nat n + i))
  else None.

End TensorIndex.

(** ** Cell 20 of [2.gnn.ipynb] on any integer index

    [Scatter.out_naive] reads the entries of [index] as positions, which
    they are in the cell and wherever the loop is compared with [scatter].
    [index] is a tensor of integers, though, and the loop also runs when
    some of them are negative: [out_naive[i] = ...] with [i < 0] writes from
    the end.  The definitions of this module take [index] as it is; on an
    index without negative entries they are those of [Scatter]. *)

Module NaiveLoop.
Section defs.
Context {T : Type} `{TensorOps T}.

(** [index.unique()]: the distinct values of [index] in ascending order. *)
Definition unique (index : list Z) : list Z :=
  merge_sort Z.le (remove_dups index).

(** [index == i] *)
Definition mask_eq (index : list Z) (i : Z) : list bool :=
  (λ v, bool_decide (v = i)) <$> index.

(** [out[i] = v] *)
Definition setitem (out : list T) (i : Z) (v : T) : result (list T) :=
  match TensorIndex.position (length out) i with
  | Some p => Ok (<[p:=v]> out)
  | None => Raise IndexError
  end.

(** [for i in ...: out_naive[i] = src[index == i].sum(dim=0)] *)
Fixpoint naive_loop (todo : list Z) (src : list T) (index : list Z)
    (out : list T) : result (list T) :=
  match todo with
  | [] => Ok out
  | i :: todo' =>
      let! rows := Scatter.masked_select src (mask_eq index i) in
      let! out' := setitem out i (Scatter.tsum rows) in
      naive_loop todo' src index out'
  end.

(** [out_naive = torch.zeros(index.unique().shape[0], dim1, dim2)]
    followed by the loop over [index.unique().tolist()]. *)
Definition out_naive (src : list T) (index : list Z) : result (list T) :=
  naive_loop (unique index) src index
    (replicate (length (unique index)) tzero).

(** The pairs [(index[p], src[p])] with [index[p] = v], in the order of
    [p]: the group of [v]. *)
Definition group (index : list Z) (src : list T) (v : Z) : list (Z * T) :=
  filter (λ p, p.1 = v) (zip index src).

End defs.
End NaiveLoop.

(** ** [InteractionNetworkLayer] on any integer edge index

    [INLayer] names the two ends of an edge by node, a position in [x].
    The [edge_index] that [forward] receives is a tensor of integers:
    [edge_update] indexes [x] with its two rows, and indexing reads a
    negative entry from the end, while the aggregation of [propagate]
    refuses one.  The definitions of this module take [edge_index] as it
    is. *)

Module INLayerLong.
Section defs.
Context {N E : Type} `{TensorOps E}.

(** [x[idx]] for a tensor [idx] of integers. *)
Fixpoint tensor_getitem (x : list N) (idx : list Z) : result (list N) :=
  match idx with
  | [] => Ok []
  | j :: idx' =>
      match TensorIndex.position (length x) j ≫= (x !!.) with
      | Some v => let! rest := tensor_getitem x idx' in Ok (v :: rest)
      | None => Raise IndexError
      end
  end.

(** [edge_update(self, x, edge_index, edge_attr)] *)
Definition edge_update (f : N → N → E → E) (x : list N)
    (edge_index : list (Z * Z)) (edge_attr : list E) : result (list E) :=
  let row := fst <$> edge_index in
  let col := snd <$> edge_index in
  let! x_i := tensor_getitem x row in
  let! x_j := tensor_getitem x col in
  if decide (length edge_attr = length x_i)
  then Ok (zip_with (λ ends a, f ends.1 ends.2 a) (zip x_i x_j) edge_attr)
  else Raise LibraryError.

(** The index that [propagate] hands to the aggregation, [edge_index[1]]:
    the sum aggregation scatters with [scatter_add_], which refuses a
    negative entry. *)
Definition aggregation_index (edge_index : list (Z * Z)) : result (list nat) :=
  if decide (Forall (λ e, (0 ≤ e.2)%Z) edge_index)
  then Ok ((λ e, Z.to_nat e.2) <$> edge_index)
  else Raise LibraryError.

(** [self.propagate(edge_index, x=x, edge_attr=updated_ef)], as in
    [INLayer.propagate]. *)
Definition propagate (g : N → E → N) (x : list N)
    (edge_index : list (Z * Z)) (edge_attr : list E) : result (list N) :=
  let msg := edge_attr in
  let! index := aggregation_index edge_index in
  let! aggr_msg := Scatter.scatter msg index None in
  if decide (length aggr_msg = length x)
  then Ok (zip_with g x aggr_msg)
  else Raise LibraryError.

(** [InteractionNetworkLayer.forward] *)
Definition forward (self : INLayer.InteractionNetworkLayer) (x : list N)
    (edge_index : list (Z * Z)) (edge_attr : list E)
    : result (list N * list E) :=
  let! updated_ef := edge_update (INLayer.f self) x edge_index edge_attr in
  let! updated_nf := propagate (INLayer.g self) x edge_index updated_ef in
  Ok (updated_nf, updated_ef).

(** The edge between the nodes that [forward] reads for an edge whose
    source may be negative. *)
Definition resolve (n : nat) (e : Z * Z) : nat * nat :=
  (Z.to_nat (e.1 `mod` Z.of_nat n), Z.to_nat e.2).

End defs.
End INLayerLong.

(* ================================================================== *)
(** * Properties *)

Section scatter_facts.
Import Scatter.
Context {T : Type} `{TensorLaws T}.

Lemma select_mask_eq_cons (v : T) src j i index :
  select (v :: src) (mask_eq (j :: index) i) =
  (if bool_decide (j = i) then [v] else []) ++ select src (mask_eq index i).
Proof. simpl. by destruct (bool_decide (j = i)). Qed.

Lemma tsum_app (l k : list T) : tsum (l ++ k) = tadd (tsum l) (tsum k).
Proof.
  induction l as [|a l IH]; simpl.
  - by rewrite tadd_zero_l.
  - fold (tsum (l ++ k)). fold (tsum l). by rewrite IH, tadd_assoc.
Qed.

(** What [scatter_add_] leaves at position [j]: the old slice plus the sum
    of the slices sent to [j]. *)
Lemma scatter_add__lookup (index : list nat) : ∀ (src out : list T) j,
  length index = length src →
  scatter_add_ out index src !! j =
    (λ o, tadd o (tsum (select src (mask_eq index j)))) <$> out !! j.
Proof.
  unfold scatter_add_.
  induction index as [|i index IH]; intros [|v src] out j Hlen;
    simplify_eq/=.
  - destruct (out !! j); simpl; [|done]. by rewrite tadd_zero_r.
  - rewrite IH by done. fold (mask_eq index j).
    destruct (decide (i = j)) as [->|Hne].
    + rewrite list_lookup_alter_eq, bool_decide_eq_true_2 by done.
      destruct (out !! j); simpl; [|done].
      fold (tsum (select src (mask_eq index j))).
      by rewrite tadd_assoc.
    + rewrite list_lookup_alter_ne, bool_decide_eq_false_2 by done. done.
Qed.

Lemma scatter_add__length (index : list nat) : ∀ (src out : list T),
  length (scatter_add_ out index src) = length out.
Proof.
  unfold scatter_add_.
  induction index as [|i index IH]; intros [|v src] out; simpl; try done.
  by rewrite IH, length_alter.
Qed.

Lemma filter_all {A} (P : A → Prop) `{∀ a, Decision (P a)} (l : list A) :
  Forall P l → filter P l = l.
Proof.
  induction 1 as [|a l Ha _ IH]; [done|].
  by rewrite filter_cons_True, IH.
Qed.

Lemma unique_exact (index : list nat) k :
  (∀ v, v ∈ index ↔ v < k) → unique index = seq 0 k.
Proof.
  intros Hk. unfold unique.
  destruct k as [|k].
  - destruct index as [|v index].
    + done.
    + exfalso. assert (v < 0) by (apply Hk; left). lia.
  - assert (index ≠ []) as Hne.
    { intros ->. assert (k ∈ @nil nat) as Hin by (apply Hk; lia).
      by apply elem_of_nil in Hin. }
    assert (max_list index = k) as ->.
    { apply max_list_elem_of, Hk in Hne.
      assert (k ≤ max_list index); [|lia].
      apply max_list_elem_of_le, Hk. lia. }
    apply filter_all, Forall_seq. intros j Hj. apply Hk. lia.
Qed.

(** The loop never raises while it stays inside [out]; it then amounts to
    one in-place write per visited index. *)
Lemma naive_loop_ok (src : list T) index : ∀ todo out,
  length index = length src →
  Forall (λ i, i < length out) todo →
  naive_loop todo src index out =
    Ok (foldl (λ o i, <[i:=tsum (select src (mask_eq index i))]> o) out todo).
Proof.
  induction todo as [|i todo IH]; intros out Hlen Hall; simpl; [done|].
  apply Forall_cons in Hall as [Hi Hall].
  unfold masked_select, mask_eq. rewrite length_fmap.
  rewrite decide_True by done. simpl.
  unfold setitem. rewrite decide_True by done. simpl.
  apply IH; [done|]. by rewrite length_insert.
Qed.

Lemma foldl_insert_lookup (f : nat → T) : ∀ todo (out : list T) j,
  j < length out →
  foldl (λ o i, <[i:=f i]> o) out todo !! j =
    if decide (j ∈ todo) then Some (f j) else out !! j.
Proof.
  induction todo as [|i todo IH]; intros out j Hj; simpl.
  - done.
  - rewrite IH by (by rewrite length_insert).
    destruct (decide (i = j)) as [->|Hne].
    + rewrite (decide_True (P := j ∈ j :: todo)) by left.
      case_decide; [done|]. by apply list_lookup_insert_eq.
    + rewrite list_lookup_insert_ne by done.
      destruct (decide (j ∈ todo)) as [Hin|Hnin].
      * rewrite decide_True by (by right). done.
      * rewrite decide_False; [done|].
        intros [?|?]%elem_of_cons; [congruence|done].
Qed.

Lemma foldl_insert_length (f : nat → T) : ∀ todo (out : list T),
  length (foldl (λ o i, <[i:=f i]> o) out todo) = length out.
Proof.
  induction todo as [|i todo IH]; intros out; simpl; [done|].
  by rewrite IH, length_insert.
Qed.

Lemma default_dim_size_exact (index : list nat) k :
  (∀ v, v ∈ index ↔ v < k) →
  match index with [] => 0 | _ => S (max_list index) end = k.
Proof.
  intros Hk. destruct index as [|v index].
  - destruct k as [|k]; [done|].
    assert (k ∈ @nil nat) as Hin by (apply Hk; lia).
    by apply elem_of_nil in Hin.
  - assert (max_list (v :: index) < k)
      by (apply Hk, max_list_elem_of; done).
    destruct k as [|k]; [lia|].
    assert (k ≤ max_list (v :: index)); [|lia].
    apply max_list_elem_of_le, Hk. lia.
Qed.

(** C4: for a source tensor [src] and an index vector of the same length
    whose set of values is exactly {0, ..., k-1}, the naive loop of the
    notebook and the library call [scatter(src, index, dim=0,
    reduce="sum")] return the same tensor: [k] slices, slice [i] being the
    sum of the slices of [src] whose index equals [i]. *)
Theorem out_naive_eq_scatter (src : list T) (index : list nat) (k : nat) :
  length index = length src →
  (∀ v, v ∈ index ↔ v < k) →
  ∃ out, out_naive src index = Ok out
       ∧ scatter src index None = Ok out
       ∧ length out = k
       ∧ ∀ i, i < k → out !! i = Some (tsum (select src (mask_eq index i))).
Proof.
  intros Hlen Hk.
  set (f := λ i, tsum (select src (mask_eq index i))).
  exists (foldl (λ o i, <[i:=f i]> o) (replicate k tzero) (seq 0 k)).
  assert (∀ i, i < k →
    foldl (λ o i, <[i:=f i]> o) (replicate k tzero) (seq 0 k) !! i
    = Some (f i)) as Hlook.
  { intros i Hi. rewrite foldl_insert_lookup by (by rewrite length_replicate).
    rewrite decide_True; [done|]. apply elem_of_seq. lia. }
  split_and!.
  - unfold out_naive. rewrite (unique_exact index k), length_seq by done.
    apply naive_loop_ok; [done|].
    apply Forall_seq. intros j Hj. rewrite length_replicate. lia.
  - unfold scatter. rewrite decide_True by done. simpl.
    rewrite (default_dim_size_exact index k) by done.
    rewrite decide_True by (apply Forall_forall; intros; by apply Hk).
    f_equal. apply list_eq. intros j.
    rewrite scatter_add__lookup by done.
    destruct (decide (j < k)) as [Hj|Hj].
    + rewrite Hlook, lookup_replicate_2 by done. simpl.
      by rewrite tadd_zero_l.
    + rewrite (lookup_ge_None_2 (replicate k tzero))
        by (rewrite length_replicate; lia).
      simpl. symmetry. apply lookup_ge_None_2.
      rewrite foldl_insert_length, length_replicate. lia.
  - by rewrite foldl_insert_length, length_replicate.
  - done.
Qed.

End scatter_facts.

(** The index vector of cell 20, [[0, 1, 0, 1, 2, 1]], with [k = 3]. *)
Lemma out_naive_eq_scatter_witness :
  ∃ out, Scatter.out_naive [10; 20; 30; 40; 50; 60]%Z [0; 1; 0; 1; 2; 1] = Ok out
       ∧ Scatter.scatter [10; 20; 30; 40; 50; 60]%Z [0; 1; 0; 1; 2; 1] None = Ok out
       ∧ length out = 3
       ∧ ∀ i, i < 3 → out !! i =
           Some (Scatter.tsum (Scatter.select [10; 20; 30; 40; 50; 60]%Z
                   (Scatter.mask_eq [0; 1; 0; 1; 2; 1] i))).
Proof.
  apply (out_naive_eq_scatter [10; 20; 30; 40; 50; 60]%Z [0; 1; 0; 1; 2; 1] 3).
  - reflexivity.
  - intros v. rewrite !elem_of_cons, elem_of_nil. lia.
Defined.

(** The index vector of the cell, on integer slices. *)
Example out_naive_cell20 :
  Scatter.out_naive [10; 20; 30; 40; 50; 60]%Z [0; 1; 0; 1; 2; 1]
  = Ok [40; 120; 50]%Z.
Proof. reflexivity. Qed.

(** Without the hypothesis on the values of [index] the loop writes outside
    [out_naive]. *)
Example out_naive_gap :
  Scatter.out_naive [10; 20]%Z [0; 2] = Raise IndexError
  ∧ Scatter.scatter [10; 20]%Z [0; 2] None = Ok [10; 0; 20]%Z.
Proof. split; reflexivity. Qed.

Section naive_gcn_facts.
Import Scatter NaiveGCN.
Context {T : Type} `{TensorLaws T}.

Lemma index_select_total (x : list T) : ∀ idx,
  Forall (λ j, j < length x) idx →
  ∃ l, index_select x idx = Ok l ∧ Forall2 (λ j v, x !! j = Some v) idx l.
Proof.
  induction idx as [|j idx IH]; intros Hall; simpl.
  - exists []. by split.
  - apply Forall_cons in Hall as [Hj Hall].
    destruct (lookup_lt_is_Some_2 x j Hj) as [v Hv].
    destruct (IH Hall) as (l & -> & Hl).
    rewrite Hv. simpl. exists (v :: l). split; [done|]. by constructor.
Qed.

Lemma select_incoming (P : nat → T → Prop) i : ∀ edge_index msgs,
  Forall2 P (fst <$> edge_index) msgs →
  Forall2 P (incoming edge_index i)
    (select msgs (mask_eq (snd <$> edge_index) i)).
Proof.
  unfold incoming.
  induction edge_index as [|[j i'] es IH]; intros msgs Hall;
    inversion Hall; simplify_eq/=.
  - constructor.
  - fold (mask_eq (snd <$> es) i).
    destruct (decide (i' = i)) as [->|Hne].
    + rewrite filter_cons_True, bool_decide_eq_true_2 by done.
      simpl. constructor; [done|]. by apply IH.
    + rewrite filter_cons_False, bool_decide_eq_false_2 by done.
      by apply IH.
Qed.

Lemma Forall2_lookup_fmap (f : T → T) (x : list T) : ∀ idx l,
  Forall2 (λ j v, (f <$> x) !! j = Some v) idx l →
  ∃ xs, Forall2 (λ j v, x !! j = Some v) idx xs ∧ l = f <$> xs.
Proof.
  induction 1 as [|j v idx l Hv _ (xs & Hxs & ->)].
  - exists []. by split.
  - rewrite list_lookup_fmap in Hv.
    destruct (x !! j) as [w|] eqn:Hw; simplify_eq/=.
    exists (w :: xs). split; [by constructor|done].
Qed.

(** C9: for node features [x] and an edge index over the nodes of [x],
    [NaiveGCNConv.forward(x, edge_index)] returns one row per node, and the
    row of node [i] is [act] applied to the sum, over the edges [j → i], of
    [linear x_j] (that is [W x_j + b]); a node without incoming edges gets
    [act] of the zero row. *)
Theorem NaiveGCNConv_forward_spec (conv : NaiveGCNConv) (x : list T)
    (edge_index : list (nat * nat)) :
  Forall (λ e, e.1 < length x ∧ e.2 < length x) edge_index →
  ∃ out, forward conv x edge_index = Ok out
       ∧ length out = length x
       ∧ ∀ i, i < length x →
           (∃ xs, Forall2 (λ j x_j, x !! j = Some x_j)
                    (incoming edge_index i) xs
                ∧ out !! i = Some (act conv (tsum (linear conv <$> xs))))
           ∧ (incoming edge_index i = [] →
              out !! i = Some (act conv tzero)).
Proof.
  intros Hwf. unfold forward, propagate.
  destruct (index_select_total (linear conv <$> x) (fst <$> edge_index))
    as (msgs & -> & Hmsgs).
  { apply Forall_fmap. eapply Forall_impl; [exact Hwf|].
    intros [j i] [Hj _]. simpl in *. by rewrite length_fmap. }
  simpl. unfold scatter.
  assert (length (snd <$> edge_index) = length msgs) as Hlen.
  { apply Forall2_length in Hmsgs. by rewrite !length_fmap in *. }
  rewrite decide_True by done. simpl.
  rewrite decide_True; last first.
  { apply Forall_fmap. eapply Forall_impl; [exact Hwf|].
    intros [j i] [_ Hi]. simpl in *. by rewrite length_fmap. }
  simpl. eexists. split; [done|].
  split.
  { by rewrite length_fmap, scatter_add__length, length_replicate,
      length_fmap. }
  intros i Hi.
  assert (∃ xs, Forall2 (λ j x_j, x !! j = Some x_j)
                  (incoming edge_index i) xs
              ∧ (act conv <$> scatter_add_
                   (replicate (length (linear conv <$> x)) tzero)
                   (snd <$> edge_index) msgs) !! i
                = Some (act conv (tsum (linear conv <$> xs))))
    as (xs & Hxs & Hout).
  { apply (select_incoming _ i) in Hmsgs.
    apply Forall2_lookup_fmap in Hmsgs as (xs & Hxs & Heq).
    exists xs. split; [done|].
    rewrite list_lookup_fmap, scatter_add__lookup by done.
    rewrite lookup_replicate_2 by (by rewrite length_fmap).
    simpl. by rewrite tadd_zero_l, Heq. }
  split; [exists xs; by split|].
  intros Hnone. rewrite Hnone in Hxs. inversion Hxs; subst. exact Hout.
Qed.

End naive_gcn_facts.

(** Three nodes, the edges 0 → 1, 2 → 1 and 1 → 0, [linear v = 2 v + 1] and
    [act = relu]. *)
Lemma NaiveGCNConv_forward_spec_witness :
  let conv := {| NaiveGCN.linear := λ v, (2 * v + 1)%Z;
                 NaiveGCN.act := Z.max 0 |} in
  let x := [5; -7; 3]%Z in
  let edge_index := [(0, 1); (2, 1); (1, 0)] in
  ∃ out, NaiveGCN.forward conv x edge_index = Ok out
       ∧ length out = length x
       ∧ ∀ i, i < length x →
           (∃ xs, Forall2 (λ j x_j, x !! j = Some x_j)
                    (NaiveGCN.incoming edge_index i) xs
                ∧ out !! i = Some (NaiveGCN.act conv
                    (Scatter.tsum (NaiveGCN.linear conv <$> xs))))
           ∧ (NaiveGCN.incoming edge_index i = [] →
              out !! i = Some (NaiveGCN.act conv tzero)).
Proof.
  intros conv x edge_index.
  apply (NaiveGCNConv_forward_spec conv x edge_index).
  repeat constructor; simpl; lia.
Defined.

(** Node 1 receives [relu((2*5+1) + (2*3+1))], node 0 receives
    [relu(2*(-7)+1)] and node 2, without incoming edge, [relu(0)]. *)
Example NaiveGCNConv_forward_small :
  NaiveGCN.forward {| NaiveGCN.linear := λ v, (2 * v + 1)%Z;
                      NaiveGCN.act := Z.max 0 |}
    [5; -7; 3]%Z [(0, 1); (2, 1); (1, 0)] = Ok [0; 18; 0]%Z.
Proof. reflexivity. Qed.

(** ** The dataset of [3.dataloader.ipynb] *)

Lemma list_getitem_Ok {A} (l : list A) (i : Z) (a : A) :
  list_getitem l i = Ok a → a ∈ l.
Proof.
  unfold list_getitem. intros Hget.
  repeat case_match; simplify_eq; by eapply list_elem_of_lookup_2.
Qed.

Lemma list_getitem_in_range {A} (l : list A) (i : Z) :
  (0 ≤ i < Z.of_nat (length l))%Z →
  ∃ a, l !! Z.to_nat i = Some a ∧ list_getitem l i = Ok a.
Proof.
  intros Hi. unfold list_getitem. cbv zeta.
  destruct (decide (i < 0)%Z); [lia|].
  rewrite decide_True by lia.
  destruct (lookup_lt_is_Some_2 l (Z.to_nat i)) as [a Ha]; [lia|].
  exists a. by rewrite Ha.
Qed.

Section er_facts.
Import ERData.
Context `{TorchSpec}.

(** One call of [generate_er_graph] allocates exactly one object, whose
    [x] has [num_nodes] rows of [feat_dim] entries. *)
Lemma generate_er_graph_inv (n : Z) (p : scalar) (fd : Z) (s s' : state) r :
  generate_er_graph n p fd s = Ok (r, s') →
  r = length (heap s)
  ∧ ∃ d, heap s' = heap s ++ [d]
       ∧ Z.of_nat (length (x d)) = n
       ∧ Forall (λ row, Z.of_nat (length row) = fd) (x d)
       ∧ edge_attr d = None.
Proof.
  unfold generate_er_graph, bindM, with_rng, new_Data, ret. simpl.
  intros Hrun.
  destruct (erdos_renyi_graph n p (gen s)) as [[e g1]|] eqn:He; [|done].
  simpl in Hrun.
  destruct (randn n fd g1) as [[t g2]|] eqn:Hx; [|done]. simpl in Hrun.
  destruct (randn n 32 g2) as [[t' g3]|] eqn:Hd; [|done]. simpl in Hrun.
  simplify_eq. split; [done|]. eexists. split; [done|]. simpl.
  apply randn_shape in Hx as [? ?]. done.
Qed.

Lemma generate_er_graph_returns (n : Z) (p : scalar) (fd : Z) (s : state) :
  (0 ≤ n)%Z → (0 ≤ fd)%Z → ∃ r s', generate_er_graph n p fd s = Ok (r, s').
Proof.
  intros Hn Hfd.
  unfold generate_er_graph, bindM, with_rng, new_Data, ret. simpl.
  destruct (erdos_renyi_graph_returns n p (gen s) Hn) as (e & g1 & ->).
  simpl.
  destruct (randn_returns n fd g1 Hn Hfd) as (t & g2 & ->). simpl.
  destruct (randn_returns n 32 g2 Hn) as (t' & g3 & ->); [lia|]. simpl.
  eauto.
Qed.

(** A comprehension whose body allocates one object per element returns
    consecutive references to the objects it appended to the store. *)
Lemma for_each_alloc {A} (P : A → Data → Prop) (f : A → M state nat) :
  (∀ a s r s', f a s = Ok (r, s') →
     r = length (heap s) ∧ ∃ d, heap s' = heap s ++ [d] ∧ P a d) →
  ∀ l s rs s', for_each f l s = Ok (rs, s') →
    rs = seq (length (heap s)) (length l)
    ∧ ∃ ds, heap s' = heap s ++ ds ∧ Forall2 P l ds.
Proof.
  intros Hf. induction l as [|a l IH]; intros s rs s' Hrun; simpl in *.
  - unfold ret in Hrun. simplify_eq. split; [done|].
    exists []. by rewrite app_nil_r.
  - unfold bindM in Hrun at 1.
    destruct (f a s) as [[r s1]|] eqn:Ha; [|done].
    unfold bindM in Hrun.
    destruct (for_each f l s1) as [[rs' s2]|] eqn:Hl; [|done].
    unfold ret in Hrun. simplify_eq.
    apply Hf in Ha as (-> & d & Hd & HP).
    apply IH in Hl as (-> & ds & Hds & HPs).
    rewrite Hd, length_app in *. simpl. split.
    + f_equal. f_equal. lia.
    + exists (d :: ds). rewrite Hds, <- app_assoc. split; [done|].
      by constructor.
Qed.

Lemma ERDataset_init_inv (num_graphs lo hi : Z) (p : scalar)
    (s s' : state) (d : ERDataset) :
  ERDataset_init num_graphs lo hi p s = Ok (d, s') →
  (0 ≤ num_graphs)%Z
  ∧ gs d = seq (length (heap s)) (Z.to_nat num_graphs)
  ∧ ∃ ds, heap s' = heap s ++ ds
        ∧ length ds = Z.to_nat num_graphs
        ∧ Forall (λ g, (lo ≤ Z.of_nat (num_nodes g) < hi)%Z
                       ∧ Forall (λ row, length row = 16) (x g)
                       ∧ edge_attr g = None) ds.
Proof.
  unfold ERDataset_init, bindM at 1, with_rng. simpl. intros Hrun.
  destruct (randint lo hi num_graphs (gen s)) as [[ns g1]|] eqn:Hns; [|done].
  apply randint_range in Hns as [Hlen Hns]. simpl in Hrun.
  unfold bindM at 1 in Hrun.
  match type of Hrun with
  | match for_each ?f ?l ?s1 with _ => _ end = _ =>
      destruct (for_each f l s1) as [[rs s2]|] eqn:Hl; [|done];
      apply (for_each_alloc
               (λ (i : Z) g, (lo ≤ Z.of_nat (num_nodes g) < hi)%Z
                             ∧ Forall (λ row, length row = 16) (x g)
                             ∧ edge_attr g = None)) in Hl
  end.
  - unfold ret in Hrun. simplify_eq. simpl in *.
    destruct Hl as (-> & ds & Hds & HP).
    rewrite length_seqZ in *.
    split; [lia|]. split; [done|]. exists ds.
    split; [done|]. split.
    + apply Forall2_length in HP. by rewrite length_seqZ in HP.
    + eapply Forall2_Forall_r; [exact HP|]. apply Forall_true. done.
  - intros i s0 r s1. unfold bindM, lift.
    destruct (list_getitem ns i) as [n|] eqn:Hn; [|done].
    intros Hg. apply generate_er_graph_inv in Hg
      as (-> & g & Hg & Hx & Hrows & Hea).
    split; [done|]. exists g. split; [done|].
    apply list_getitem_Ok in Hn.
    rewrite Forall_forall in Hns. apply Hns in Hn.
    unfold num_nodes. rewrite Hx. split; [done|]. split; [|done].
    eapply Forall_impl; [exact Hrows|]. simpl. lia.
Qed.

Lemma fresh_refs_lookup (P : Data → Prop) (h ds : list Data) :
  Forall P ds →
  Forall (λ r, ∃ g, (h ++ ds) !! r = Some g ∧ P g)
    (seq (length h) (length ds)).
Proof.
  intros HP. apply Forall_seq. intros j Hj.
  destruct (lookup_lt_is_Some_2 ds (j - length h)) as [g Hg]; [lia|].
  exists g. split.
  - rewrite lookup_app_r by lia. done.
  - rewrite Forall_forall in HP. eapply HP, list_elem_of_lookup_2, Hg.
Qed.

(** C3: [ERDataset] is a list wrapper.  For every dataset and every index
    [i] with [0 <= i < len(dataset)], [__getitem__(i)] returns the
    reference stored at position [i] of [self.gs] and changes nothing;
    [__len__] is the length of [self.gs]; for a dataset built by the
    constructor this is the argument [num_graphs], and every stored
    reference points to an object of the store. *)
Theorem ERDataset_list_wrapper :
  (∀ (self : ERDataset) (i : Z) (s : state),
     (0 ≤ i < Z.of_nat (ERDataset_len self))%Z →
     ∃ r, gs self !! Z.to_nat i = Some r
        ∧ ERDataset_getitem self i s = Ok (r, s))
  ∧ (∀ self : ERDataset, ERDataset_len self = length (gs self))
  ∧ (∀ num_graphs lo hi p s self s',
       ERDataset_init num_graphs lo hi p s = Ok (self, s') →
       Z.of_nat (ERDataset_len self) = num_graphs
       ∧ Forall (λ r, is_Some (heap s' !! r)) (gs self)).
Proof.
  split_and!.
  - intros self i s Hi. unfold ERDataset_getitem, lift.
    destruct (list_getitem_in_range (gs self) i Hi) as (r & Hr & ->).
    by exists r.
  - done.
  - intros num_graphs lo hi p s self s' Hinit.
    apply ERDataset_init_inv in Hinit
      as (Hn & Hgs & ds & Hheap & Hlen & Hds).
    unfold ERDataset_len. rewrite Hgs, length_seq. split; [lia|].
    rewrite Hheap, <- Hlen.
    eapply Forall_impl; [apply (fresh_refs_lookup (λ _, True))|].
    + by apply Forall_true.
    + intros r (g & -> & _). by eexists.
Qed.

(** C10: every graph of an [ERDataset] built with [(num_graphs,
    min_num_nodes, max_num_nodes, edge_prob)] has a number of nodes [n]
    with [min_num_nodes <= n < max_num_nodes]; the upper bound is
    exclusive. *)
Theorem ERDataset_node_count_range (num_graphs min_num_nodes max_num_nodes : Z)
    (edge_prob : scalar) (s s' : state) (self : ERDataset) :
  ERDataset_init num_graphs min_num_nodes max_num_nodes edge_prob s
    = Ok (self, s') →
  Forall (λ r, ∃ g, heap s' !! r = Some g
                  ∧ (min_num_nodes ≤ Z.of_nat (num_nodes g) < max_num_nodes)%Z
                  ∧ Z.of_nat (num_nodes g) ≠ max_num_nodes)
    (gs self).
Proof.
  intros Hinit.
  apply ERDataset_init_inv in Hinit as (Hn & Hgs & ds & Hheap & Hlen & Hds).
  rewrite Hgs, Hheap, <- Hlen.
  eapply Forall_impl; [apply fresh_refs_lookup, Hds|].
  intros r (g & Hg & Hrange & _). exists g. split; [done|]. lia.
Qed.

(** The constructor returns whenever the range of node counts is not
    empty and starts at a non-negative number. *)
Lemma for_each_returns {A} (f : A → M state nat) (l : list A) :
  (∀ a s, a ∈ l → ∃ r s', f a s = Ok (r, s')) →
  ∀ s, ∃ rs s', for_each f l s = Ok (rs, s').
Proof.
  induction l as [|a l IH]; intros Hf s; simpl.
  - unfold ret. eauto.
  - unfold bindM.
    destruct (Hf a s) as (r & s1 & ->); [left|].
    destruct (IH (λ a s Ha, Hf a s (list_elem_of_further _ _ _ Ha)) s1)
      as (rs & s2 & ->).
    unfold ret. eauto.
Qed.

(** [ERDataset(num_graphs, min_num_nodes, max_num_nodes, edge_prob)] returns a
    dataset whenever [num_graphs >= 0] and [0 <= min_num_nodes <
    max_num_nodes]. *)
Lemma ERDataset_init_returns (num_graphs lo hi : Z) (p : scalar) (s : state) :
  (0 ≤ num_graphs)%Z → (0 ≤ lo < hi)%Z →
  ∃ self s', ERDataset_init num_graphs lo hi p s = Ok (self, s').
Proof.
  intros Hn Hlo. unfold ERDataset_init, bindM at 1, with_rng.
  destruct (randint_returns lo hi num_graphs (gen s)) as (ns & g1 & Hns);
    [lia|done|].
  rewrite Hns. apply randint_range in Hns as [Hlen Hns].
  unfold bindM at 1.
  match goal with
  | |- context [for_each ?f ?l ?s1] =>
      destruct (for_each_returns f l) with (s := s1) as (rs & s2 & ->)
  end.
  - intros i s0 Hi. apply elem_of_seqZ in Hi. unfold bindM, lift.
    destruct (list_getitem_in_range ns i) as (n & Hnth & ->); [lia|].
    apply generate_er_graph_returns; [|lia].
    apply list_elem_of_lookup_2 in Hnth.
    rewrite Forall_forall in Hns. apply Hns in Hnth. lia.
  - unfold ret. eauto.
Qed.

(** A graph returned by [generate_er_graph] has one row of [x] per
    requested node, every row of dimension [feat_dim], and no edge-feature
    tensor. *)
Lemma generate_er_graph_consistent (n : Z) (p : scalar) (fd : Z)
    (s s' : state) r :
  generate_er_graph n p fd s = Ok (r, s') →
  ∃ g, heap s' !! r = Some g
     ∧ Z.of_nat (num_nodes g) = n
     ∧ Forall (λ row, Z.of_nat (length row) = fd) (x g)
     ∧ consistent g.
Proof.
  intros Hg.
  apply generate_er_graph_inv in Hg as (-> & g & Hheap & Hn & Hrows & Hea).
  exists g. rewrite Hheap. split; [apply list_lookup_middle; done|].
  split; [done|]. split; [done|]. split.
  - exists (Z.to_nat fd). eapply Forall_impl; [exact Hrows|]. simpl. lia.
  - intros ea Hsome. congruence.
Qed.

(** The graphs of an [ERDataset]: rows of dimension 16 and no edge
    features. *)
Lemma ERDataset_graphs num_graphs lo hi p s self s' :
  ERDataset_init num_graphs lo hi p s = Ok (self, s') →
  Forall (λ r, ∃ g, heap s' !! r = Some g
                  ∧ Forall (λ row, length row = 16) (x g)
                  ∧ edge_attr g = None) (gs self).
Proof.
  intros Hinit.
  apply ERDataset_init_inv in Hinit as (Hn & Hgs & ds & Hheap & Hlen & Hds).
  rewrite Hgs, Hheap, <- Hlen.
  eapply Forall_impl; [apply fresh_refs_lookup, Hds|].
  intros r (g & Hg & _ & Hrows & Hea). by exists g.
Qed.

(** The same holds, with dimension 16, for every graph of an [ERDataset]. *)
Lemma ERDataset_consistent num_graphs lo hi p s self s' :
  ERDataset_init num_graphs lo hi p s = Ok (self, s') →
  Forall (λ r, ∃ g, heap s' !! r = Some g
                  ∧ Forall (λ row, length row = 16) (x g)
                  ∧ consistent g) (gs self).
Proof.
  intros Hinit.
  eapply Forall_impl; [by eapply ERDataset_graphs|].
  intros r (g & Hg & Hrows & Hea). exists g.
  split; [done|]. split; [done|]. split; [by exists 16|].
  intros ea Hsome. congruence.
Qed.

(** The cells of the DGL tutorial return a graph with 8 nodes and 4 edges
    whose node features have one row per node, all of dimension 7, and
    whose edge features have one row per edge, all of dimension 3. *)
Lemma tutorial0_consistent (g0 : rng) :
  ∃ g g1,
    DGL.tutorial0 g0 = Ok (g, g1)
    ∧ DGL.num_nodes g = 8 ∧ length (DGL.edges g) = 4
    ∧ DGL.consistent g
    ∧ (∃ t, DGL.ndata g !! "feat" = Some t
          ∧ length t = 8 ∧ Forall (λ row, length row = 7) t)
    ∧ (∃ t, DGL.edata g !! "feat" = Some t
          ∧ length t = 4 ∧ Forall (λ row, length row = 3) t).
Proof.
  unfold DGL.tutorial0. cbv zeta.
  unfold bindM at 1. simpl.
  unfold bindM at 1. simpl.
  unfold bindM at 1. simpl.
  destruct (randn_returns (Z.of_nat 8) 7 g0) as (nf & g1 & Hnf); [lia..|].
  rewrite Hnf. apply randn_shape in Hnf as [Hnf_len Hnf_rows].
  unfold bindM at 1, lift, DGL.set_ndata. simpl.
  rewrite decide_True by lia.
  unfold bindM at 1. simpl.
  unfold DGL.number_of_edges. cbn [DGL.edges length].
  destruct (randn_returns (Z.of_nat 4) 3 g1) as (ef & g2 & Hef); [lia..|].
  rewrite Hef. apply randn_shape in Hef as [Hef_len Hef_rows].
  unfold bindM, DGL.set_edata. simpl.
  rewrite decide_True by lia. unfold ret.
  assert (Forall (λ row : list scalar, length row = 7) nf) as Hnf7
    by (eapply Forall_impl; [exact Hnf_rows|]; simpl; lia).
  assert (Forall (λ row : list scalar, length row = 3) ef) as Hef3
    by (eapply Forall_impl; [exact Hef_rows|]; simpl; lia).
  eexists _, _. split; [done|]. simpl.
  split; [done|]. split; [done|]. split_and!.
  - split; simpl; intros key t [[_ <-]|[_ Ht]]%lookup_insert_Some;
      try (by apply lookup_empty_Some in Ht).
    + split; [lia|]. by exists 7.
    + split; [lia|]. by exists 3.
  - exists nf. rewrite lookup_insert_eq. split; [done|]. split; [lia|done].
  - exists ef. rewrite lookup_insert_eq. split; [done|]. split; [lia|done].
Qed.

End er_facts.

(** The deterministic instance meets the documented behaviour. *)
Lemma Pseudo_ints_spec (low high : Z) (n : nat) : ∀ g,
  (low < high)%Z →
  length (Pseudo.ints low high n g).1 = n
  ∧ Forall (λ v, low ≤ v < high)%Z (Pseudo.ints low high n g).1.
Proof.
  induction n as [|n IH]; intros g Hlt; simpl; [by split|].
  specialize (IH (Pseudo.next g) Hlt).
  destruct (Pseudo.ints low high n (Pseudo.next g)) as [l g'].
  destruct IH as [IHlen IHall]. simpl in *. split; [by f_equal|].
  constructor; [|done].
  pose proof (Z.mod_pos_bound (Pseudo.next g) (high - low)). lia.
Qed.

#[global] Instance Pseudo_torch_spec : @TorchSpec Pseudo.torch.
Proof.
  split; simpl.
  - intros low high size g Hlt Hsize. rewrite decide_True by done.
    destruct (Pseudo.ints low high (Z.to_nat size) g); eauto.
  - intros low high size g l g' Hrun. case_decide as Hok; [|done].
    destruct Hok as [Hlt Hsize].
    destruct (Pseudo_ints_spec low high (Z.to_nat size) g Hlt) as [Hlen Hall].
    injection Hrun as Hrun. rewrite Hrun in *. simpl in *. split; [lia|done].
  - intros rows cols g Hr Hc. rewrite decide_True by done. eauto.
  - intros rows cols g t g' Hrun. case_decide as Hok; [|done]. simplify_eq.
    rewrite length_replicate. split; [lia|].
    apply Forall_replicate. rewrite length_replicate. lia.
  - intros n p g Hn. rewrite decide_True by done. eauto.
Qed.

(** [ERDataset(3)] with the default bounds, on the deterministic
    generator: three graphs, and [dataset[2]] is the third reference. *)
Lemma ERDataset_list_wrapper_witness :
  match ERData.ERDataset_init (H := Pseudo.torch) 3 32 64 0%Z Pseudo.start with
  | Ok (self, s') =>
      Z.of_nat (ERData.ERDataset_len self) = 3%Z
      ∧ Forall (λ r, is_Some (ERData.heap s' !! r)) (ERData.gs self)
      ∧ ∃ r, ERData.gs self !! Z.to_nat 2 = Some r
           ∧ ERData.ERDataset_getitem self 2 s' = Ok (r, s')
  | Raise _ => False
  end.
Proof.
  assert (is_Ok (ERData.ERDataset_init (H := Pseudo.torch) 3 32 64 0%Z
                   Pseudo.start) = true) as Hok by (vm_compute; reflexivity).
  destruct (ERData.ERDataset_init (H := Pseudo.torch) 3 32 64 0%Z Pseudo.start)
    as [[self s']|e] eqn:Hinit; [|discriminate Hok].
  destruct (proj2 (proj2 ERDataset_list_wrapper) _ _ _ _ _ _ _ Hinit)
    as [Hlen Hlive].
  split; [exact Hlen|]. split; [exact Hlive|].
  apply (proj1 ERDataset_list_wrapper). lia.
Defined.

(** The same dataset: every graph has between 32 and 63 nodes. *)
Lemma ERDataset_node_count_range_witness :
  match ERData.ERDataset_init (H := Pseudo.torch) 3 32 64 0%Z Pseudo.start with
  | Ok (self, s') =>
      Forall (λ r, ∃ g, ERData.heap s' !! r = Some g
                      ∧ (32 ≤ Z.of_nat (ERData.num_nodes g) < 64)%Z
                      ∧ Z.of_nat (ERData.num_nodes g) ≠ 64%Z)
        (ERData.gs self)
  | Raise _ => False
  end.
Proof.
  assert (is_Ok (ERData.ERDataset_init (H := Pseudo.torch) 3 32 64 0%Z
                   Pseudo.start) = true) as Hok by (vm_compute; reflexivity).
  destruct (ERData.ERDataset_init (H := Pseudo.torch) 3 32 64 0%Z Pseudo.start)
    as [[self s']|e] eqn:Hinit; [|discriminate Hok].
  exact (ERDataset_node_count_range (H := Pseudo.torch) 3 32 64 0%Z _ _ _ Hinit).
Defined.

(** Three graphs drawn with the deterministic generator: 52, 61 and 50
    nodes, all inside [32, 64). *)
Example ERDataset_sizes :
  match ERData.ERDataset_init (H := Pseudo.torch) 3 32 64 0%Z Pseudo.start with
  | Ok (self, s') =>
      (ERData.gs self, ERData.num_nodes <$> ERData.heap s')
  | Raise _ => ([], [])
  end = ([0; 1; 2], [52; 61; 50]).
Proof. vm_compute. reflexivity. Qed.

(** ** Batching *)

Section batching_facts.
Import ERData Batching.
Context `{Torch}.

Lemma collate_bx (data_list : list Data) : ∀ i offset,
  bx (collate i offset data_list) = concat (x <$> data_list).
Proof.
  induction data_list as [|g rest IH]; intros i offset; simpl; [done|].
  by rewrite IH.
Qed.

Lemma collate_batch_length (data_list : list Data) : ∀ i offset,
  length (batch (collate i offset data_list))
  = sum_list (num_nodes <$> data_list).
Proof.
  induction data_list as [|g rest IH]; intros i offset; simpl; [done|].
  by rewrite length_app, length_replicate, IH.
Qed.

Lemma concat_x_length (data_list : list Data) :
  length (concat (x <$> data_list)) = sum_list (num_nodes <$> data_list).
Proof.
  induction data_list as [|g rest IH]; [done|].
  rewrite !fmap_cons. cbn [concat]. rewrite length_app, IH. done.
Qed.

Lemma first_node_0 (data_list : list Data) : first_node data_list 0 = 0.
Proof. by destruct data_list. Qed.

Lemma first_node_S (g : Data) (rest : list Data) k :
  first_node (g :: rest) (S k) = num_nodes g + first_node rest k.
Proof. done. Qed.

Lemma collate_member (data_list : list Data) : ∀ i offset k g q,
  data_list !! k = Some g → q < num_nodes g →
  batch (collate i offset data_list) !! (first_node data_list k + q)
    = Some (i + k)
  ∧ bx (collate i offset data_list) !! (first_node data_list k + q)
    = x g !! q.
Proof.
  induction data_list as [|g0 rest IH]; intros i offset k g q Hk Hq;
    [done|].
  cbn [collate batch bx].
  destruct k as [|k].
  - rewrite first_node_0. simplify_eq/=. split.
    + rewrite lookup_app_l by (by rewrite length_replicate).
      rewrite lookup_replicate_2 by done. f_equal. lia.
    + by rewrite lookup_app_l by done.
  - rewrite first_node_S. simpl in Hk.
    destruct (IH (S i) (offset + num_nodes g0) k g q Hk Hq) as [Hb Hx].
    split.
    + rewrite lookup_app_r by (rewrite length_replicate; lia).
      rewrite length_replicate.
      replace (num_nodes g0 + first_node rest k + q - num_nodes g0)
        with (first_node rest k + q) by lia.
      rewrite Hb. f_equal. lia.
    + rewrite lookup_app_r by (unfold num_nodes; lia).
      replace (num_nodes g0 + first_node rest k + q - length (x g0))
        with (first_node rest k + q) by (unfold num_nodes; lia).
      done.
Qed.

Lemma node_origin (data_list : list Data) : ∀ p,
  p < sum_list (num_nodes <$> data_list) →
  ∃ k g q, data_list !! k = Some g ∧ q < num_nodes g
         ∧ p = first_node data_list k + q.
Proof.
  induction data_list as [|g0 rest IH]; intros p Hp.
  - simpl in Hp. lia.
  - change (sum_list (num_nodes <$> g0 :: rest))
      with (num_nodes g0 + sum_list (num_nodes <$> rest)) in Hp.
    destruct (decide (p < num_nodes g0)) as [Hlt|Hge].
    + exists 0, g0, p. rewrite first_node_0. split_and!; [done|done|lia].
    + destruct (IH (p - num_nodes g0)) as (k & g & q & Hk & Hq & Heq);
        [lia|].
      exists (S k), g, q. rewrite first_node_S.
      split_and!; [done|done|lia].
Qed.

(** C5: the batch built from a list of graphs concatenates them.  Its
    node-feature matrix is the concatenation of the matrices of the graphs
    in list order, its number of nodes is the sum of their numbers of
    nodes, and [batch] has one entry per node: the node at position [q] of
    graph number [i] sits at position [first_node data_list i + q] of the
    batch, keeps its feature row and is labelled [i]; every node of the
    batch arises this way. *)
Theorem from_data_list_concatenates (data_list : list Data) :
  let b := from_data_list data_list in
  bx b = concat (x <$> data_list)
  ∧ length (bx b) = sum_list (num_nodes <$> data_list)
  ∧ length (batch b) = length (bx b)
  ∧ (∀ i g q, data_list !! i = Some g → q < num_nodes g →
       batch b !! (first_node data_list i + q) = Some i
       ∧ bx b !! (first_node data_list i + q) = x g !! q)
  ∧ (∀ p, p < length (bx b) →
       ∃ i g q, data_list !! i = Some g ∧ q < num_nodes g
              ∧ p = first_node data_list i + q).
Proof.
  unfold from_data_list. simpl.
  rewrite collate_bx, collate_batch_length, concat_x_length.
  split_and!; try done.
  - intros i g q Hi Hq.
    destruct (collate_member data_list 0 0 i g q Hi Hq) as [Hb Hx].
    by rewrite collate_bx in Hx.
  - apply node_origin.
Qed.

End batching_facts.

(** Two graphs of 2 and 3 nodes: node 1 of the second graph is node 3 of
    the batch. *)
Lemma from_data_list_concatenates_witness :
  let g0 := @ERData.Build_Data Pseudo.torch [[1]; [2]]%Z [(0, 1)] None [[0]]%Z [] in
  let g1 := @ERData.Build_Data Pseudo.torch [[3]; [4]; [5]]%Z [(0, 2)] None [[0]]%Z [] in
  Batching.batch (Batching.from_data_list [g0; g1]) !! 3 = Some 1
  ∧ Batching.bx (Batching.from_data_list [g0; g1]) !! 3 = Some [4]%Z.
Proof.
  intros g0 g1.
  apply (proj1 (proj2 (proj2 (proj2
           (from_data_list_concatenates [g0; g1])))) 1 g1 1).
  - reflexivity.
  - unfold g1, ERData.num_nodes. simpl. lia.
Defined.

(** The batch of cell 5 of [2.gnn.ipynb]: graphs of 5, 10 and 15 nodes give
    30 nodes, labelled 0, 1 and 2. *)
Example batch_of_three :
  let g n := @ERData.Build_Data Pseudo.torch (replicate n [0%Z]) [] None [] [] in
  let b := Batching.from_data_list [g 5; g 10; g 15] in
  length (Batching.bx b) = 30
  ∧ Batching.batch b = replicate 5 0 ++ replicate 10 1 ++ replicate 15 2
  ∧ Batching.ptr b = [0; 5; 15; 30].
Proof. repeat split. Qed.

(** ** Feature dimension consistency *)

Section consistency_facts.
Import ERData Batching GraphGen.
Context `{TorchSpec}.

(** A graph that [dgl.graph] has just built carries no feature. *)
Lemma graph_consistent (u v : list nat) (n : option nat) (g : DGL.DGLGraph) :
  DGL.graph u v n = Ok g →
  DGL.ndata g = ∅ ∧ DGL.edata g = ∅ ∧ DGL.consistent g.
Proof.
  unfold DGL.graph. repeat case_decide; intros Hg; simplify_eq.
  split; [done|]. split; [done|].
  split; simpl; intros key t Ht; by apply lookup_empty_Some in Ht.
Qed.

(** Cell 13 of the DGL tutorial on any graph: what it stores under
    ['feat'] has one row per node, or per edge, of the dimension asked
    for, and a consistent graph stays consistent. *)
Lemma attach_features_consistent (g g' : DGL.DGLGraph)
    (node_feat_dim edge_feat_dim : Z) (g0 g1 : rng) :
  DGLFeatures.attach_features g node_feat_dim edge_feat_dim g0 = Ok (g', g1) →
  DGL.num_nodes g' = DGL.num_nodes g ∧ DGL.edges g' = DGL.edges g
  ∧ (∃ t, DGL.ndata g' !! "feat" = Some t
        ∧ length t = DGL.num_nodes g
        ∧ Forall (λ row, Z.of_nat (length row) = node_feat_dim) t)
  ∧ (∃ t, DGL.edata g' !! "feat" = Some t
        ∧ length t = length (DGL.edges g)
        ∧ Forall (λ row, Z.of_nat (length row) = edge_feat_dim) t)
  ∧ (DGL.consistent g → DGL.consistent g').
Proof.
  unfold DGLFeatures.attach_features, DGL.number_of_nodes,
    DGL.number_of_edges.
  unfold bindM at 1.
  destruct (randn (Z.of_nat (DGL.num_nodes g)) node_feat_dim g0)
    as [[nf g2]|] eqn:Hnf; [|done].
  apply randn_shape in Hnf as [Hnf_len Hnf_rows].
  unfold bindM at 1, lift, DGL.set_ndata.
  destruct (decide (length nf = DGL.num_nodes g)) as [Hn|]; [|done].
  cbn [DGL.edges]. unfold bindM at 1.
  destruct (randn (Z.of_nat (length (DGL.edges g))) edge_feat_dim g2)
    as [[ef g3]|] eqn:Hef; [|done].
  apply randn_shape in Hef as [Hef_len Hef_rows].
  unfold bindM, DGL.set_edata. cbn [DGL.edges].
  destruct (decide (length ef = length (DGL.edges g))) as [He|]; [|done].
  unfold ret. intros [= <- <-]. cbn.
  split; [done|]. split; [done|]. split_and!.
  - exists nf. by rewrite lookup_insert_eq.
  - exists ef. by rewrite lookup_insert_eq.
  - intros [Hcn Hce]. split; cbn; intros key t.
    + destruct (decide (key = "feat")) as [->|Hkey].
      * rewrite lookup_insert_eq. intros [= <-]. split; [done|].
        exists (Z.to_nat node_feat_dim).
        eapply Forall_impl; [exact Hnf_rows|]. simpl. lia.
      * rewrite lookup_insert_ne by done. apply Hcn.
    + destruct (decide (key = "feat")) as [->|Hkey].
      * rewrite lookup_insert_eq. intros [= <-]. split; [done|].
        exists (Z.to_nat edge_feat_dim).
        eapply Forall_impl; [exact Hef_rows|]. simpl. lia.
      * rewrite lookup_insert_ne by done. apply Hce.
Qed.

(** One call of [generate_random_graph] allocates exactly one object, with
    node features and edge features of the shapes asked for. *)
Lemma generate_random_graph_inv (n : Z) (p : scalar) (nfd efd : Z)
    (s s' : state) r :
  generate_random_graph n p nfd efd s = Ok (r, s') →
  r = length (heap s)
  ∧ ∃ d ea, heap s' = heap s ++ [d]
          ∧ Z.of_nat (num_nodes d) = n
          ∧ Forall (λ row, Z.of_nat (length row) = nfd) (x d)
          ∧ edge_attr d = Some ea
          ∧ length ea = length (edge_index d)
          ∧ Forall (λ row, Z.of_nat (length row) = efd) ea.
Proof.
  unfold generate_random_graph, bindM, with_rng, new_Data, ret. simpl.
  intros Hrun.
  destruct (erdos_renyi_graph n p (gen s)) as [[e g1]|] eqn:He; [|done].
  simpl in Hrun.
  destruct (randn n nfd g1) as [[t g2]|] eqn:Hx; [|done]. simpl in Hrun.
  destruct (randn (Z.of_nat (length e)) efd g2) as [[t' g3]|] eqn:Ha;
    [|done]. simpl in Hrun.
  simplify_eq. split; [done|]. eexists _, t'. split; [done|].
  unfold num_nodes. simpl.
  apply randn_shape in Hx as [? ?]. apply randn_shape in Ha as [? ?].
  split_and!; try done. lia.
Qed.

Lemma Forall_concat {A} (P : A → Prop) (ls : list (list A)) :
  Forall (Forall P) ls → Forall P (concat ls).
Proof.
  induction 1 as [|l ls Hl _ IH]; simpl; [constructor|].
  by apply Forall_app.
Qed.

Lemma collate_edges_length (data_list : list Data) : ∀ i offset,
  length (bedge_index (collate i offset data_list))
  = sum_list ((λ g, length (edge_index g)) <$> data_list).
Proof.
  induction data_list as [|g rest IH]; intros i offset; simpl; [done|].
  by rewrite length_app, length_fmap, IH.
Qed.

(** The batch of graphs whose node features have one dimension [dn], and
    whose edge features, for the graphs that have any, have one row per
    edge and one dimension [de]. *)
Lemma from_data_list_consistent (data_list : list Data) (dn de : nat) :
  Forall (λ g, Forall (λ row, length row = dn) (x g)
               ∧ ∀ a, edge_attr g = Some a →
                   length a = length (edge_index g)
                   ∧ Forall (λ row, length row = de) a) data_list →
  Batching.consistent data_list
  ∧ Forall (λ row, length row = dn) (bx (from_data_list data_list))
  ∧ ∀ ea, batch_edge_attr data_list = Some ea →
      Forall (λ row, length row = de) ea.
Proof.
  intros Hall.
  assert (Forall (λ row, length row = dn) (bx (from_data_list data_list)))
    as Hx.
  { unfold from_data_list. rewrite collate_bx. apply Forall_concat.
    apply Forall_fmap. eapply Forall_impl; [exact Hall|]. by intros g [? _]. }
  assert (∀ ea, batch_edge_attr data_list = Some ea →
            length ea = length (bedge_index (from_data_list data_list))
            ∧ Forall (λ row, length row = de) ea) as Hea.
  { unfold batch_edge_attr, from_data_list. intros ea Hsome.
    apply fmap_Some in Hsome as (eas & Heas & ->).
    rewrite collate_edges_length. clear Hx.
    revert eas Heas. induction Hall as [|g rest [_ Hg] _ IH]; intros eas Heas.
    - apply mapM_Some in Heas. inversion Heas. by split.
    - simpl in Heas.
      destruct (edge_attr g) as [a|] eqn:Ha; [|done]. simpl in Heas.
      destruct (mapM edge_attr rest) as [eas'|] eqn:Hrest; [|done].
      simpl in Heas. injection Heas as <-.
      destruct (Hg a eq_refl) as [Hlen Hrows].
      destruct (IH _ eq_refl) as [IHlen IHrows]. simpl. split.
      + by rewrite length_app, Hlen, IHlen.
      + by apply Forall_app. }
  split; [|split; [done|]; intros ea Hsome; by apply Hea].
  unfold Batching.consistent. simpl. split_and!.
  - unfold from_data_list.
    by rewrite collate_batch_length, collate_bx, concat_x_length.
  - by exists dn.
  - intros ea Hsome. destruct (Hea ea Hsome) as [Hlen Hrows].
    split; [done|]. by exists de.
Qed.

(** The objects behind the references of a comprehension that allocates
    one object per element. *)
Lemma fresh_refs_objects (h ds : list Data) :
  Forall2 (λ r g, (h ++ ds) !! r = Some g) (seq (length h) (length ds)) ds.
Proof.
  apply Forall2_same_length_lookup. split; [by rewrite length_seq|].
  intros i r g Hr Hg. apply lookup_seq in Hr as [-> _].
  rewrite lookup_app_r by lia.
  by replace (length h + i - length h) with i by lia.
Qed.

(** C8: the graphs built by the cells are dimension consistent, and what
    the cells do to a graph keeps it so.
    - A graph returned by [generate_er_graph] has one row of [x] per
      requested node, every row of dimension [feat_dim], and no
      edge-feature tensor; the same holds, with dimension 16, for every
      graph of an [ERDataset].
    - The cells of the DGL tutorial return a graph with 8 nodes and 4
      edges whose node features have one row per node, all of dimension
      7, and whose edge features have one row per edge, all of dimension
      3.  More generally a graph that [dgl.graph] has just built carries
      no feature, and attaching features as cell 13 does keeps any
      consistent graph consistent.
    - A graph returned by [generate_random_graph] has one row of [x] per
      requested node, of dimension [node_feat_dim], and an edge-feature
      tensor with one row per edge, of dimension [edge_feat_dim].
    - A batch of graphs whose features have one dimension is consistent:
      one entry of [batch] per row of [x], rows of that dimension, and,
      when the graphs have edge features, one row per edge of the batch.
      This covers the batches that the loader draws from an [ERDataset]
      (rows of dimension 16) and the batch of three random graphs of
      [2.gnn.ipynb]. *)
Theorem graphs_feature_consistent :
  (∀ (n : Z) (p : scalar) (fd : Z) (s s' : state) r,
     generate_er_graph n p fd s = Ok (r, s') →
     ∃ g, heap s' !! r = Some g
        ∧ Z.of_nat (num_nodes g) = n
        ∧ Forall (λ row, Z.of_nat (length row) = fd) (x g)
        ∧ ERData.consistent g)
  ∧ (∀ num_graphs lo hi p s self s',
       ERDataset_init num_graphs lo hi p s = Ok (self, s') →
       Forall (λ r, ∃ g, heap s' !! r = Some g
                       ∧ Forall (λ row, length row = 16) (x g)
                       ∧ ERData.consistent g) (gs self))
  ∧ (∀ g0 : rng, ∃ g g1,
       DGL.tutorial0 g0 = Ok (g, g1)
       ∧ DGL.num_nodes g = 8 ∧ length (DGL.edges g) = 4
       ∧ DGL.consistent g
       ∧ (∃ t, DGL.ndata g !! "feat" = Some t
             ∧ length t = 8 ∧ Forall (λ row, length row = 7) t)
       ∧ (∃ t, DGL.edata g !! "feat" = Some t
             ∧ length t = 4 ∧ Forall (λ row, length row = 3) t))
  ∧ (∀ u v n g, DGL.graph u v n = Ok g →
       DGL.ndata g = ∅ ∧ DGL.edata g = ∅ ∧ DGL.consistent g)
  ∧ (∀ g g' node_feat_dim edge_feat_dim (g0 g1 : rng),
       DGLFeatures.attach_features g node_feat_dim edge_feat_dim g0
         = Ok (g', g1) →
       DGL.num_nodes g' = DGL.num_nodes g ∧ DGL.edges g' = DGL.edges g
       ∧ (∃ t, DGL.ndata g' !! "feat" = Some t
             ∧ length t = DGL.num_nodes g
             ∧ Forall (λ row, Z.of_nat (length row) = node_feat_dim) t)
       ∧ (∃ t, DGL.edata g' !! "feat" = Some t
             ∧ length t = length (DGL.edges g)
             ∧ Forall (λ row, Z.of_nat (length row) = edge_feat_dim) t)
       ∧ (DGL.consistent g → DGL.consistent g'))
  ∧ (∀ (n : Z) (p : scalar) (nfd efd : Z) (s s' : state) r,
       generate_random_graph n p nfd efd s = Ok (r, s') →
       ∃ g ea, heap s' !! r = Some g
             ∧ Z.of_nat (num_nodes g) = n
             ∧ Forall (λ row, Z.of_nat (length row) = nfd) (x g)
             ∧ edge_attr g = Some ea
             ∧ length ea = length (edge_index g)
             ∧ Forall (λ row, Z.of_nat (length row) = efd) ea
             ∧ ERData.consistent g)
  ∧ (∀ (data_list : list Data) (dn de : nat),
       Forall (λ g, Forall (λ row, length row = dn) (x g)
                    ∧ ∀ a, edge_attr g = Some a →
                        length a = length (edge_index g)
                        ∧ Forall (λ row, length row = de) a) data_list →
       Batching.consistent data_list
       ∧ Forall (λ row, length row = dn) (bx (from_data_list data_list))
       ∧ ∀ ea, batch_edge_attr data_list = Some ea →
           Forall (λ row, length row = de) ea)
  ∧ (∀ num_graphs lo hi p s self s' (picked : list nat) (graphs : list Data),
       ERDataset_init num_graphs lo hi p s = Ok (self, s') →
       Forall (λ r, r ∈ gs self) picked →
       Forall2 (λ r g, heap s' !! r = Some g) picked graphs →
       Batching.consistent graphs
       ∧ Forall (λ row, length row = 16) (bx (from_data_list graphs)))
  ∧ (∀ (p : scalar) (dim : Z) (s s' : state) (refs : list nat),
       three_graphs p dim s = Ok (refs, s') →
       ∃ graphs ea,
         Forall2 (λ r g, heap s' !! r = Some g) refs graphs
         ∧ Batching.consistent graphs
         ∧ Forall (λ row, length row = Z.to_nat dim)
             (bx (from_data_list graphs))
         ∧ batch_edge_attr graphs = Some ea
         ∧ length ea = length (bedge_index (from_data_list graphs))
         ∧ Forall (λ row, length row = Z.to_nat dim) ea).
Proof.
  split_and!.
  - apply generate_er_graph_consistent.
  - apply ERDataset_consistent.
  - apply tutorial0_consistent.
  - apply graph_consistent.
  - apply attach_features_consistent.
  - intros n p nfd efd s s' r Hg.
    apply generate_random_graph_inv in Hg
      as (-> & g & ea & Hheap & Hn & Hrows & Hea & Hlen & Harows).
    exists g, ea. rewrite Hheap.
    split; [apply list_lookup_middle; done|]. split_and!; try done. split.
    + exists (Z.to_nat nfd). eapply Forall_impl; [exact Hrows|]. simpl. lia.
    + intros ea' Hsome. rewrite Hea in Hsome. injection Hsome as <-.
      split; [done|]. exists (Z.to_nat efd).
      eapply Forall_impl; [exact Harows|]. simpl. lia.
  - apply from_data_list_consistent.
  - intros num_graphs lo hi p s self s' picked graphs Hinit Hpicked Hgraphs.
    pose proof (ERDataset_graphs _ _ _ _ _ _ _ Hinit) as Hgs.
    destruct (from_data_list_consistent graphs 16 0) as (Hb & Hx & _);
      [|by split].
    apply Forall_forall. intros g Hg.
    apply list_elem_of_lookup in Hg as [k Hk].
    destruct (Forall2_lookup_r _ _ _ _ _ Hgraphs Hk) as (r & Hr & Hheap).
    apply list_elem_of_lookup_2 in Hr.
    rewrite Forall_forall in Hgs, Hpicked.
    destruct (Hgs r (Hpicked r Hr)) as (g' & Hg' & Hrows & Hnone).
    rewrite Hheap in Hg'. injection Hg' as <-. split; [done|].
    intros a Ha. congruence.
  - intros p dim s s' refs Hrun. unfold three_graphs in Hrun.
    apply (for_each_alloc
             (λ (i : Z) d, Forall (λ row, length row = Z.to_nat dim) (x d)
                           ∧ ∃ a, edge_attr d = Some a
                                ∧ length a = length (edge_index d)
                                ∧ Forall (λ row, length row = Z.to_nat dim) a))
      in Hrun; last first.
    { intros i s0 r s1 Hg.
      apply generate_random_graph_inv in Hg
        as (-> & g & ea & Hheap & Hn & Hrows & Hea & Hlen & Harows).
      split; [done|]. exists g. split; [done|]. split.
      - eapply Forall_impl; [exact Hrows|]. simpl. lia.
      - exists ea. split; [done|]. split; [done|].
        eapply Forall_impl; [exact Harows|]. simpl. lia. }
    destruct Hrun as (-> & ds & Hheap & HP).
    assert (length ds = length (seqZ 0 3)) as Hlen
      by (symmetry; by eapply Forall2_length).
    assert (Forall (λ d, Forall (λ row, length row = Z.to_nat dim) (x d)
                         ∧ ∃ a, edge_attr d = Some a
                              ∧ length a = length (edge_index d)
                              ∧ Forall (λ row, length row = Z.to_nat dim) a) ds)
      as Hds.
    { eapply Forall2_Forall_r; [exact HP|]. by apply Forall_true. }
    destruct (from_data_list_consistent ds (Z.to_nat dim) (Z.to_nat dim))
      as (Hb & Hx & Hea).
    { eapply Forall_impl; [exact Hds|].
      intros d (Hrows & a & Ha & Hl & Harows). split; [done|].
      intros a' Ha'. rewrite Ha in Ha'. by injection Ha' as <-. }
    assert (is_Some (batch_edge_attr ds)) as [ea Hsome].
    { unfold batch_edge_attr. apply fmap_is_Some, mapM_is_Some.
      eapply Forall_impl; [exact Hds|].
      intros d (_ & a & Ha & _). simpl. by rewrite Ha. }
    exists ds, ea. split_and!; try done.
    + rewrite Hheap, <- Hlen. apply fresh_refs_objects.
    + by apply Hb.
    + by apply Hea.
Qed.

End consistency_facts.

(** [generate_er_graph(5, ., 16)] and [generate_random_graph(5, ., 16, 16)]
    on the deterministic generator. *)
Lemma graphs_feature_consistent_witness :
  match ERData.generate_er_graph (H := Pseudo.torch) 5 0%Z 16 Pseudo.start with
  | Ok (r, s') =>
      ∃ g, ERData.heap s' !! r = Some g
         ∧ Z.of_nat (ERData.num_nodes g) = 5%Z
         ∧ Forall (λ row, Z.of_nat (length row) = 16%Z) (ERData.x g)
         ∧ ERData.consistent g
  | Raise _ => False
  end
  ∧ match GraphGen.generate_random_graph (H := Pseudo.torch) 5 0%Z 16 16
            Pseudo.start with
    | Ok (r, s') =>
        ∃ g ea, ERData.heap s' !! r = Some g
              ∧ Z.of_nat (ERData.num_nodes g) = 5%Z
              ∧ Forall (λ row, Z.of_nat (length row) = 16%Z) (ERData.x g)
              ∧ ERData.edge_attr g = Some ea
              ∧ length ea = length (ERData.edge_index g)
              ∧ Forall (λ row, Z.of_nat (length row) = 16%Z) ea
              ∧ ERData.consistent g
    | Raise _ => False
    end.
Proof.
  split.
  - assert (is_Ok (ERData.generate_er_graph (H := Pseudo.torch) 5 0%Z 16
                     Pseudo.start) = true) as Hok by (vm_compute; reflexivity).
    destruct (ERData.generate_er_graph (H := Pseudo.torch) 5 0%Z 16
                Pseudo.start) as [[r s']|e] eqn:Hgen; [|discriminate Hok].
    exact (proj1 graphs_feature_consistent _ _ _ _ _ _ Hgen).
  - assert (is_Ok (GraphGen.generate_random_graph (H := Pseudo.torch) 5 0%Z
                     16 16 Pseudo.start) = true) as Hok
      by (vm_compute; reflexivity).
    destruct (GraphGen.generate_random_graph (H := Pseudo.torch) 5 0%Z 16 16
                Pseudo.start) as [[r s']|e] eqn:Hgen; [|discriminate Hok].
    exact (proj1 (proj2 (proj2 (proj2 (proj2 (proj2
             graphs_feature_consistent))))) _ _ _ _ _ _ _ Hgen).
Defined.

(** The batch of cell 5 of [2.gnn.ipynb] on the deterministic generator:
    graphs of 5, 10 and 15 nodes with 4, 9 and 14 edges. *)
Example three_graphs_batch :
  match GraphGen.three_graphs (H := Pseudo.torch) 0%Z 5 Pseudo.start with
  | Ok (refs, s') =>
      let b := Batching.from_data_list (ERData.heap s') in
      (refs, length (Batching.bx b), length (Batching.bedge_index b),
       length <$> Batching.batch_edge_attr (ERData.heap s'))
  | Raise _ => ([], 0, 0, None)
  end = ([0; 1; 2], 30, 27, Some 27).
Proof. vm_compute. reflexivity. Qed.

(** ** The loader of benchmark datasets *)

Section gcn_tutorial_facts.
Import GCNTutorial Ast Notebooks.

(** C2 (counterexample): ["NELL"], a dataset the notebook imports, is
    refused by the assertion of [get_dataset] itself, before the library
    is called. *)
Lemma get_dataset_refuses_NELL :
  get_dataset (Dataset := unit) (λ _ _, Ok ()) "NELL" = Raise AssertionError
  ∧ AssertionError ≠ LibraryError.
Proof. split; [reflexivity|discriminate]. Qed.

(** C2 (amended): the assertion of [get_dataset] is the only validation a
    function of the repository performs.  [get_dataset] raises
    [AssertionError] for every name other than Cora, CiteSeer and PubMed,
    and for these three it returns or raises what [Planetoid] does; no
    other function or method of the notebooks contains an [assert],
    [raise] or [if] (the one other [assert], in cell 20 of [2.gnn.ipynb],
    stands at the top level of the cell), and no notebook contains a
    [while] loop (retry) or a [try] statement (recovery). *)
Theorem get_dataset_only_validation {Dataset : Type}
    (Planetoid : string → string → result Dataset) (name : string) :
  (name ∉ dataset_names → get_dataset Planetoid name = Raise AssertionError)
  ∧ (name ∈ dataset_names →
     get_dataset Planetoid name = Planetoid ("/tmp/" +:+ name) name)
  ∧ flat_map (λ nb, filter (λ f, f.2 ≠ []) (defined_functions nb)) all
    = [("get_dataset",
        [Assert (BinOp (Name "name") "in"
                   (ListE [Str "Cora"; Str "CiteSeer"; Str "PubMed"]))])]
  ∧ (λ nb, (nb_name nb, cells_with is_validation nb)) <$> all
    = [("1.mp_layer.ipynb", []); ("2.gnn.ipynb", [20]);
       ("3.dataloader.ipynb", []); ("Tutorial 4 (GCN)", [2]);
       ("Tutorial 0 - B.Y.O.Graphs.ipynb", [])]
  ∧ Forall (λ nb, cells_with is_retry nb = []
                  ∧ cells_with is_recovery nb = []) all.
Proof.
  split_and!.
  - intros Hnot. unfold get_dataset. by rewrite decide_False.
  - intros Hin. unfold get_dataset. rewrite decide_True by done.
    by destruct (Planetoid _ _).
  - vm_compute. reflexivity.
  - vm_compute. reflexivity.
  - repeat constructor.
Qed.

End gcn_tutorial_facts.

(** With a library call that always fails: the failure for Cora is the
    library's, the failure for another name is the assertion's. *)
Lemma get_dataset_only_validation_witness :
  GCNTutorial.get_dataset (Dataset := nat) (λ _ _, Raise LibraryError) "Cora"
    = Raise LibraryError
  ∧ GCNTutorial.get_dataset (Dataset := nat) (λ _ _, Raise LibraryError) "Reddit"
    = Raise AssertionError.
Proof.
  split.
  - apply (proj1 (proj2 (get_dataset_only_validation
                           (λ _ _, Raise LibraryError) "Cora"))).
    unfold GCNTutorial.dataset_names. rewrite !elem_of_cons. by left.
  - apply (proj1 (get_dataset_only_validation
                    (λ _ _, Raise LibraryError) "Reddit")).
    unfold GCNTutorial.dataset_names.
    rewrite !not_elem_of_cons. split_and!; [discriminate..|].
    apply not_elem_of_nil.
Defined.

(** ** What the notebooks contain *)

Section notebook_facts.
Import Ast Notebooks.

(** C6 (counterexample): the constructor of [AttentiveINLayer] creates
    three feed-forward networks, [gate_nn], [self.f] and [self.g]. *)
Lemma AttentiveINLayer_creates_three_networks :
  (length ∘ feed_forward_networks) <$> class_named mp_layer "AttentiveINLayer"
    = [3]
  ∧ ¬ Forall (λ cls, length (aggr_choices cls) = 1
                     ∧ 1 ≤ length (feed_forward_networks cls) ≤ 2)
        (classes mp_layer).
Proof.
  split; [vm_compute; reflexivity|].
  intros Hall. rewrite Forall_forall in Hall.
  destruct (class_named mp_layer "AttentiveINLayer") as [|cls l] eqn:Hcls;
    [vm_compute in Hcls; discriminate|].
  assert (cls ∈ classes mp_layer) as Hin.
  { assert (cls ∈ class_named mp_layer "AttentiveINLayer") as Hc
      by (rewrite Hcls; left).
    unfold class_named in Hc. apply list_elem_of_filter in Hc as [Hname Hc].
    unfold classes. apply list_elem_of_filter. split; [|done].
    by rewrite Hname. }
  apply Hall in Hin as [_ Hcount].
  assert (length (feed_forward_networks cls) = 3); [|lia].
  assert ((length ∘ feed_forward_networks)
            <$> class_named mp_layer "AttentiveINLayer" = [3]) as Heq
    by (vm_compute; reflexivity).
  rewrite Hcls in Heq. by injection Heq.
Qed.

(** C6 (amended): the four layer classes of [1.mp_layer.ipynb] derive
    from [MessagePassing], imported from [torch_geometric.nn.conv]; the
    constructor of each passes exactly one aggregation choice to the base
    class and creates one ([NaiveGCNConv], [EdgeConv]), two
    ([InteractionNetworkLayer]) or three ([AttentiveINLayer])
    feed-forward networks. *)
Theorem layer_classes_are_configurations :
  (λ cls, (class_name cls, framework_bases mp_layer cls, aggr_choices cls,
           length (feed_forward_networks cls))) <$> classes mp_layer
  = [(["NaiveGCNConv"], ["MessagePassing"], [Str "add"], 1);
     (["EdgeConv"], ["MessagePassing"], [Str "max"], 1);
     (["InteractionNetworkLayer"], ["MessagePassing"], [Str "add"], 2);
     (["AttentiveINLayer"], ["MessagePassing"],
      [Call (Attr (Name "aggr") "AttentionalAggregation") []
         [("gate_nn", Name "gate_nn")]], 3)]
  ∧ modules_of mp_layer "MessagePassing" = ["torch_geometric.nn.conv"]
  ∧ Forall (λ cls, length (aggr_choices cls) = 1
                   ∧ 1 ≤ length (feed_forward_networks cls) ≤ 3)
      (classes mp_layer).
Proof.
  split_and!; [vm_compute; reflexivity..|].
  refine (bool_decide_unpack _ _). vm_compute. exact I.
Qed.

(** C1 (counterexample): cell 20 of [2.gnn.ipynb] contains a loop that
    computes a scatter-sum by hand. *)
Lemma gnn_has_handwritten_scatter :
  cells_with is_loop_aggregation gnn = [20]
  ∧ ¬ Forall (λ nb, cells_with is_loop_aggregation nb = []) all.
Proof.
  split; [vm_compute; reflexivity|].
  intros Hall. rewrite Forall_forall in Hall.
  assert (gnn ∈ all) as Hin by (right; left).
  apply Hall in Hin. vm_compute in Hin. discriminate Hin.
Qed.

(** C1 (amended): aggregation is delegated to the dependency everywhere
    except in cell 20 of [2.gnn.ipynb].  That cell holds the only loop of
    the notebooks that aggregates by hand; no class of the notebooks
    replaces [propagate], [aggregate] or [message_and_aggregate]; every
    layer class selects its aggregation through one [aggr] keyword; and
    the aggregation functions called in [2.gnn.ipynb] are imported from
    torch_scatter or torch_geometric. *)
Theorem aggregation_is_delegated_except_cell20 :
  (λ nb, (nb_name nb, cells_with is_loop_aggregation nb)) <$> all
  = [("1.mp_layer.ipynb", []); ("2.gnn.ipynb", [20]);
     ("3.dataloader.ipynb", []); ("Tutorial 4 (GCN)", []);
     ("Tutorial 0 - B.Y.O.Graphs.ipynb", [])]
  ∧ Forall (λ nb, Forall (λ cls, overrides_aggregation cls = false)
                    (classes nb)) all
  ∧ Forall (λ cls, length (aggr_choices cls) = 1) (classes mp_layer)
  ∧ (λ f, (f, modules_of gnn f))
      <$> ["scatter"; "segment"; "scatter_softmax"; "global_add_pool"]
    = [("scatter", ["torch_scatter"; "torch_geometric.utils"]);
       ("segment", ["torch_geometric.utils"]);
       ("scatter_softmax", ["torch_scatter.composite"]);
       ("global_add_pool", ["torch_geometric.nn.pool"])].
Proof.
  split_and!.
  - vm_compute. reflexivity.
  - refine (bool_decide_unpack _ _). vm_compute. exact I.
  - refine (bool_decide_unpack _ _). vm_compute. exact I.
  - vm_compute. reflexivity.
Qed.

(** C7 (counterexample): the DGL notebook defines no class at all, and
    neither do [2.gnn.ipynb] and Tutorial 4. *)
Lemma byo_graphs_defines_no_subclass :
  framework_subclasses byo_graphs = []
  ∧ classes byo_graphs = []
  ∧ ¬ Forall (λ nb, framework_subclasses nb ≠ []) all.
Proof.
  split_and!; [vm_compute; reflexivity..|].
  intros Hall. rewrite Forall_forall in Hall.
  apply (Hall byo_graphs); [|vm_compute; reflexivity].
  do 4 right. left.
Qed.

(** C7 (amended): every notebook builds a graph or a dataset of graphs;
    [1.mp_layer.ipynb] and [3.dataloader.ipynb] are the two notebooks that
    define subclasses of a framework class ([MessagePassing], with the
    hooks [forward], [message], [update], [edge_update]; [Dataset], with
    [__getitem__] and [__len__]); the four PyG notebooks call a layer or
    model, the DGL notebook does not. *)
Theorem notebook_shapes :
  Forall (λ nb, existsb is_graph_construction (expressions nb) = true) all
  ∧ (λ nb, (nb_name nb, framework_subclasses nb)) <$> all
    = [("1.mp_layer.ipynb",
        [("NaiveGCNConv", ["MessagePassing"], ["__init__"; "forward"]);
         ("EdgeConv", ["MessagePassing"], ["__init__"; "forward"; "message"]);
         ("InteractionNetworkLayer", ["MessagePassing"],
          ["__init__"; "forward"; "edge_update"; "message"; "update"]);
         ("AttentiveINLayer", ["MessagePassing"],
          ["__init__"; "forward"; "edge_update"; "message"; "update"])]);
       ("2.gnn.ipynb", []);
       ("3.dataloader.ipynb",
        [("ERDataset", ["Dataset"], ["__init__"; "__getitem__"; "__len__"])]);
       ("Tutorial 4 (GCN)", []);
       ("Tutorial 0 - B.Y.O.Graphs.ipynb", [])]
  ∧ (λ nb, (nb_name nb, length (forward_passes nb))) <$> all
    = [("1.mp_layer.ipynb", 4); ("2.gnn.ipynb", 6);
       ("3.dataloader.ipynb", 1); ("Tutorial 4 (GCN)", 2);
       ("Tutorial 0 - B.Y.O.Graphs.ipynb", 0)].
Proof.
  split_and!.
  - repeat constructor.
  - vm_compute. reflexivity.
  - vm_compute. reflexivity.
Qed.

End notebook_facts.

(* ================================================================== *)
(** * Further properties of the embedded code *)

(** ** Indexing a dataset *)

Lemma list_getitem_negative {A} (l : list A) (i : Z) :
  (- Z.of_nat (length l) ≤ i < 0)%Z →
  ∃ a, l !! Z.to_nat (Z.of_nat (length l) + i) = Some a
     ∧ list_getitem l i = Ok a.
Proof.
  intros Hi. unfold list_getitem. cbv zeta.
  destruct (decide (i < 0)%Z); [|lia].
  rewrite decide_True by lia.
  destruct (lookup_lt_is_Some_2 l (Z.to_nat (Z.of_nat (length l) + i)))
    as [a Ha]; [lia|].
  exists a. by rewrite Ha.
Qed.

Lemma list_getitem_out_of_range {A} (l : list A) (i : Z) :
  (i < - Z.of_nat (length l) ∨ Z.of_nat (length l) ≤ i)%Z →
  list_getitem l i = Raise IndexError.
Proof.
  intros Hi. unfold list_getitem. cbv zeta.
  destruct (decide (i < 0)%Z); rewrite decide_False by lia; done.
Qed.

Section dataset_indexing.
Import ERData.
Context `{Torch}.

(** [dataset[i]] for a negative [i] counts from the end: for
    [-len(dataset) <= i < 0] it returns the reference stored at position
    [len(dataset) + i] and changes nothing. *)
Theorem ERDataset_getitem_negative (self : ERDataset) (i : Z) (s : state) :
  (- Z.of_nat (ERDataset_len self) ≤ i < 0)%Z →
  ∃ r, gs self !! Z.to_nat (Z.of_nat (ERDataset_len self) + i) = Some r
     ∧ ERDataset_getitem self i s = Ok (r, s).
Proof.
  intros Hi. unfold ERDataset_getitem, lift.
  destruct (list_getitem_negative (gs self) i Hi) as (r & Hr & ->).
  by exists r.
Qed.

(** [dataset[i]] raises [IndexError] for every [i >= len(dataset)] and every
    [i < -len(dataset)]; an empty dataset raises for every index. *)
Theorem ERDataset_getitem_out_of_range (self : ERDataset) (i : Z) (s : state) :
  (i < - Z.of_nat (ERDataset_len self) ∨ Z.of_nat (ERDataset_len self) ≤ i)%Z →
  ERDataset_getitem self i s = Raise IndexError.
Proof.
  intros Hi. unfold ERDataset_getitem, lift.
  by rewrite (list_getitem_out_of_range (gs self) i Hi).
Qed.

End dataset_indexing.

(** The last of three graphs, and an index past the end. *)
Lemma ERDataset_getitem_negative_witness :
  ∃ r, ERData.gs (ERData.Build_ERDataset [4; 5; 6])
         !! Z.to_nat (Z.of_nat 3 + -1) = Some r
     ∧ ERData.ERDataset_getitem (ERData.Build_ERDataset [4; 5; 6])
         (-1) Pseudo.start = Ok (r, Pseudo.start).
Proof.
  apply (ERDataset_getitem_negative (H := Pseudo.torch)
           (ERData.Build_ERDataset [4; 5; 6]) (-1) Pseudo.start).
  unfold ERData.ERDataset_len. simpl. lia.
Defined.

Lemma ERDataset_getitem_out_of_range_witness :
  ERData.ERDataset_getitem (ERData.Build_ERDataset [4; 5; 6])
    3 Pseudo.start = Raise IndexError.
Proof.
  apply (ERDataset_getitem_out_of_range (H := Pseudo.torch)
           (ERData.Build_ERDataset [4; 5; 6]) 3 Pseudo.start).
  unfold ERData.ERDataset_len. simpl. lia.
Defined.

(** ** Building a dataset *)

Lemma list_getitem_nonneg {A} (l : list A) (i : Z) (a : A) :
  (0 ≤ i)%Z → list_getitem l i = Ok a → l !! Z.to_nat i = Some a.
Proof.
  intros Hi. unfold list_getitem. cbv zeta.
  destruct (decide (i < 0)%Z); [lia|].
  repeat case_match; intros; simplify_eq; done.
Qed.

Section dataset_construction.
Import ERData.
Context `{TorchSpec}.

(** Everything one call of [generate_er_graph] puts into the new object. *)
Lemma generate_er_graph_object (n : Z) (p : scalar) (fd : Z) (s s' : state) r :
  generate_er_graph n p fd s = Ok (r, s') →
  r = length (heap s)
  ∧ ∃ d, heap s' = heap s ++ [d]
       ∧ Z.of_nat (num_nodes d) = n
       ∧ y d = [[mean_all (x d) n]]
       ∧ Z.of_nat (length (dummy d)) = n
       ∧ Forall (λ row, length row = 32) (dummy d).
Proof.
  unfold generate_er_graph, bindM, with_rng, new_Data, ret. simpl.
  intros Hrun.
  destruct (erdos_renyi_graph n p (gen s)) as [[e g1]|] eqn:He; [|done].
  simpl in Hrun.
  destruct (randn n fd g1) as [[t g2]|] eqn:Hx; [|done]. simpl in Hrun.
  destruct (randn n 32 g2) as [[t' g3]|] eqn:Hd; [|done]. simpl in Hrun.
  simplify_eq. split; [done|]. eexists. split; [done|].
  unfold num_nodes. simpl.
  apply randn_shape in Hx as [? _]. apply randn_shape in Hd as [? Hrows].
  split_and!; try done.
  eapply Forall_impl; [exact Hrows|]. simpl. lia.
Qed.

(** The constructor, unfolded once and for all: the node counts [ns] drawn
    by [torch.randint], and one new object per drawn count, in order. *)
Lemma ERDataset_init_draw (num_graphs lo hi : Z) (p : scalar)
    (s s' : state) (self : ERDataset) :
  ERDataset_init num_graphs lo hi p s = Ok (self, s') →
  ∃ ns g1 ds,
    randint lo hi num_graphs (gen s) = Ok (ns, g1)
    ∧ gs self = seq (length (heap s)) (length ns)
    ∧ heap s' = heap s ++ ds
    ∧ Forall2 (λ n d, Z.of_nat (num_nodes d) = n
                      ∧ y d = [[mean_all (x d) n]]
                      ∧ Z.of_nat (length (dummy d)) = n
                      ∧ Forall (λ row, length row = 32) (dummy d)) ns ds.
Proof.
  unfold ERDataset_init, bindM at 1, with_rng. simpl. intros Hrun.
  destruct (randint lo hi num_graphs (gen s)) as [[ns g1]|] eqn:Hns; [|done].
  exists ns, g1.
  pose proof (randint_range _ _ _ _ _ _ Hns) as [Hlen _]. simpl in Hrun.
  unfold bindM at 1 in Hrun.
  match type of Hrun with
  | match for_each ?f ?l ?s1 with _ => _ end = _ =>
      destruct (for_each f l s1) as [[rs s2]|] eqn:Hl; [|done];
      apply (for_each_alloc
               (λ (i : Z) d, ∃ n, list_getitem ns i = Ok n
                  ∧ Z.of_nat (num_nodes d) = n
                  ∧ y d = [[mean_all (x d) n]]
                  ∧ Z.of_nat (length (dummy d)) = n
                  ∧ Forall (λ row, length row = 32) (dummy d))) in Hl
  end.
  - unfold ret in Hrun. simplify_eq. simpl in *.
    destruct Hl as (-> & ds & Hds & HP).
    rewrite length_seqZ in *. exists ds.
    split; [done|]. split; [by rewrite Nat2Z.id|]. split; [done|].
    apply Forall2_same_length_lookup. split.
    + apply Forall2_length in HP. rewrite length_seqZ in HP. lia.
    + intros i n d Hn Hd.
      assert (i < length ns) as Hi by (by eapply lookup_lt_Some).
      assert (seqZ 0 (Z.of_nat (length ns)) !! i = Some (0 + Z.of_nat i)%Z)
        as Hs by (apply lookup_seqZ; lia).
      destruct (Forall2_lookup_lr _ _ _ _ _ _ HP Hs Hd) as (n' & Hn' & HQ).
      apply list_getitem_nonneg in Hn'; [|lia].
      replace (Z.to_nat (0 + Z.of_nat i)) with i in Hn' by lia.
      by simplify_eq.
  - intros i s0 r s1 Hbody.
    assert (∃ n, list_getitem ns i = Ok n
               ∧ generate_er_graph n p 16 s0 = Ok (r, s1))
      as (n & Hn & Hg).
    { unfold bindM, lift in Hbody.
      destruct (list_getitem ns i) as [n|]; [|done]. by exists n. }
    apply generate_er_graph_object in Hg as (-> & d & Hd & HQ).
    split; [done|]. exists d. split; [done|]. by exists n.
Qed.

Lemma appended_lookup {A} (h ds : list A) (i : nat) (d : A) :
  ds !! i = Some d → (h ++ ds) !! (length h + i) = Some d.
Proof.
  intros Hd. rewrite lookup_app_r by lia.
  by replace (length h + i - length h) with i by lia.
Qed.

(** The graphs of a dataset are generated in the order of the draw: graph
    number [i] has exactly [num_nodes[i]] nodes, where [num_nodes] is the
    tensor returned by [torch.randint(min_num_nodes, max_num_nodes,
    (num_graphs,))]. *)
Theorem ERDataset_sizes_follow_draw (num_graphs lo hi : Z) (p : scalar)
    (s s' : state) (self : ERDataset) :
  ERDataset_init num_graphs lo hi p s = Ok (self, s') →
  ∃ ns g1,
    randint lo hi num_graphs (gen s) = Ok (ns, g1)
    ∧ length (gs self) = length ns
    ∧ ∀ i r n, gs self !! i = Some r → ns !! i = Some n →
        ∃ g, heap s' !! r = Some g ∧ Z.of_nat (num_nodes g) = n.
Proof.
  intros (ns & g1 & ds & Hns & Hgs & Hheap & Hall)%ERDataset_init_draw.
  exists ns, g1. split; [done|]. rewrite Hgs, length_seq. split; [done|].
  intros i r n Hr Hn. apply lookup_seq in Hr as [-> Hi].
  destruct (Forall2_lookup_l _ _ _ _ _ Hall Hn) as (d & Hd & Hsize & _).
  exists d. split; [|done]. rewrite Hheap. by apply appended_lookup.
Qed.

(** The constructor creates one new object per graph: the stored
    references are pairwise distinct, none of them was in use before, the
    store grows by [num_graphs] objects and the objects that existed before
    the call are unchanged. *)
Theorem ERDataset_init_allocates (num_graphs lo hi : Z) (p : scalar)
    (s s' : state) (self : ERDataset) :
  ERDataset_init num_graphs lo hi p s = Ok (self, s') →
  NoDup (gs self)
  ∧ Forall (λ r, heap s !! r = None ∧ is_Some (heap s' !! r)) (gs self)
  ∧ Z.of_nat (length (heap s')) = (Z.of_nat (length (heap s)) + num_graphs)%Z
  ∧ ∀ r g, heap s !! r = Some g → heap s' !! r = Some g.
Proof.
  intros Hinit.
  destruct (ERDataset_init_draw _ _ _ _ _ _ _ Hinit)
    as (ns & g1 & ds & Hns & Hgs & Hheap & Hall).
  apply randint_range in Hns as [Hlen _].
  pose proof (Forall2_length _ _ _ Hall) as Hlen'.
  rewrite Hgs, Hheap. split_and!.
  - apply NoDup_seq.
  - apply Forall_seq. intros j Hj. split.
    + apply lookup_ge_None_2. lia.
    + apply lookup_lt_is_Some_2. rewrite length_app. lia.
  - rewrite length_app. lia.
  - intros r g Hr. by apply lookup_app_l_Some.
Qed.

(** Every graph of a dataset carries a label [y] of shape [1, 1], computed
    from its own features as [x.sum() / num_nodes], and a tensor [dummy]
    with one row of 32 entries per node. *)
Theorem ERDataset_labels (num_graphs lo hi : Z) (p : scalar)
    (s s' : state) (self : ERDataset) :
  ERDataset_init num_graphs lo hi p s = Ok (self, s') →
  Forall (λ r, ∃ g, heap s' !! r = Some g
                  ∧ y g = [[mean_all (x g) (Z.of_nat (num_nodes g))]]
                  ∧ length (dummy g) = num_nodes g
                  ∧ Forall (λ row, length row = 32) (dummy g)) (gs self).
Proof.
  intros (ns & g1 & ds & Hns & Hgs & Hheap & Hall)%ERDataset_init_draw.
  rewrite Hgs, Hheap, (Forall2_length _ _ _ Hall).
  apply fresh_refs_lookup.
  eapply Forall2_Forall_r; [exact Hall|]. apply Forall_true.
  intros n d (Hsize & Hy & Hdummy & Hrows).
  rewrite Hsize. split; [done|]. split; [lia|done].
Qed.

(** [ERDataset(num_graphs, ...)] raises when [num_graphs] is negative, and
    when at least one graph is asked for but no node count lies in
    [[min_num_nodes, max_num_nodes)]: [torch.randint] cannot return. *)
Theorem ERDataset_init_raises (num_graphs lo hi : Z) (p : scalar) (s : state) :
  (num_graphs < 0 ∨ (0 < num_graphs ∧ hi ≤ lo))%Z →
  ∃ e, ERDataset_init num_graphs lo hi p s = Raise e.
Proof.
  intros Hbad.
  destruct (ERDataset_init num_graphs lo hi p s) as [[self s']|e] eqn:Hinit;
    [|by exists e].
  exfalso.
  apply ERDataset_init_draw in Hinit as (ns & g1 & ds & Hns & _).
  apply randint_range in Hns as [Hlen Hrange].
  destruct Hbad as [Hneg|[Hpos Hempty]]; [lia|].
  destruct ns as [|v ns]; [simpl in Hlen; lia|].
  apply Forall_cons in Hrange as [Hv _]. lia.
Qed.

End dataset_construction.

(** [ERDataset(3)] with the default bounds on the deterministic generator. *)
Lemma ERDataset_sizes_follow_draw_witness :
  ∃ ns g1,
    randint (Torch := Pseudo.torch) 32 64 3 (ERData.gen Pseudo.start)
      = Ok (ns, g1)
    ∧ ns = [52; 61; 50]%Z.
Proof.
  assert (is_Ok (ERData.ERDataset_init (H := Pseudo.torch) 3 32 64 0%Z
                   Pseudo.start) = true) as Hok by (vm_compute; reflexivity).
  destruct (ERData.ERDataset_init (H := Pseudo.torch) 3 32 64 0%Z Pseudo.start)
    as [[self s']|e] eqn:Hinit; [|discriminate Hok].
  destruct (ERDataset_sizes_follow_draw (H := Pseudo.torch) 3 32 64 0%Z
              _ _ _ Hinit) as (ns & g1 & Hns & _).
  exists ns, g1. split; [exact Hns|].
  vm_compute in Hns. by injection Hns as <- _.
Defined.

Lemma ERDataset_init_allocates_witness :
  match ERData.ERDataset_init (H := Pseudo.torch) 3 32 64 0%Z Pseudo.start with
  | Ok (self, s') =>
      NoDup (ERData.gs self)
      ∧ Z.of_nat (length (ERData.heap s')) = (0 + 3)%Z
  | Raise _ => False
  end.
Proof.
  assert (is_Ok (ERData.ERDataset_init (H := Pseudo.torch) 3 32 64 0%Z
                   Pseudo.start) = true) as Hok by (vm_compute; reflexivity).
  destruct (ERData.ERDataset_init (H := Pseudo.torch) 3 32 64 0%Z Pseudo.start)
    as [[self s']|e] eqn:Hinit; [|discriminate Hok].
  destruct (ERDataset_init_allocates (H := Pseudo.torch) 3 32 64 0%Z
              _ _ _ Hinit) as (Hnodup & _ & Hlen & _).
  split; [exact Hnodup|exact Hlen].
Defined.

Lemma ERDataset_labels_witness :
  match ERData.ERDataset_init (H := Pseudo.torch) 3 32 64 0%Z Pseudo.start with
  | Ok (self, s') =>
      Forall (λ r, ∃ g, ERData.heap s' !! r = Some g
                      ∧ ERData.y g
                        = [[mean_all (ERData.x g)
                              (Z.of_nat (ERData.num_nodes g))]]
                      ∧ length (ERData.dummy g) = ERData.num_nodes g
                      ∧ Forall (λ row, length row = 32) (ERData.dummy g))
        (ERData.gs self)
  | Raise _ => False
  end.
Proof.
  assert (is_Ok (ERData.ERDataset_init (H := Pseudo.torch) 3 32 64 0%Z
                   Pseudo.start) = true) as Hok by (vm_compute; reflexivity).
  destruct (ERData.ERDataset_init (H := Pseudo.torch) 3 32 64 0%Z Pseudo.start)
    as [[self s']|e] eqn:Hinit; [|discriminate Hok].
  exact (ERDataset_labels (H := Pseudo.torch) 3 32 64 0%Z _ _ _ Hinit).
Defined.

(** A negative number of graphs, and an empty range of node counts. *)
Lemma ERDataset_init_raises_witness :
  (∃ e, ERData.ERDataset_init (H := Pseudo.torch) (-1) 32 64 0%Z Pseudo.start
        = Raise e)
  ∧ (∃ e, ERData.ERDataset_init (H := Pseudo.torch) 2 64 64 0%Z Pseudo.start
          = Raise e).
Proof.
  split.
  - apply (ERDataset_init_raises (H := Pseudo.torch) (-1) 32 64 0%Z). lia.
  - apply (ERDataset_init_raises (H := Pseudo.torch) 2 64 64 0%Z). lia.
Defined.

(** The default bounds: [ERDataset(3)] returns. *)
Lemma ERDataset_init_returns_witness :
  ∃ self s',
    ERData.ERDataset_init (H := Pseudo.torch) 3 32 64 0%Z Pseudo.start
    = Ok (self, s').
Proof.
  apply (ERDataset_init_returns (H := Pseudo.torch) 3 32 64 0%Z Pseudo.start);
    lia.
Defined.

(** ** The naive loop of [2.gnn.ipynb] on any integer index *)

Section tensor_index_facts.

Lemma position_Some (n : nat) (i : Z) (p : nat) :
  TensorIndex.position n i = Some p → p < n.
Proof.
  unfold TensorIndex.position. intros Hp.
  repeat case_decide; simplify_eq; lia.
Qed.

Lemma position_is_Some (n : nat) (i : Z) :
  is_Some (TensorIndex.position n i) ↔ (- Z.of_nat n ≤ i < Z.of_nat n)%Z.
Proof.
  unfold TensorIndex.position. repeat case_decide.
  - split; [lia|by eexists].
  - split; [lia|by eexists].
  - split; [by intros [? ?]|lia].
Qed.

Lemma position_of_nat (n j : nat) :
  TensorIndex.position n (Z.of_nat j) = if decide (j < n) then Some j else None.
Proof.
  unfold TensorIndex.position. repeat case_decide; try lia; try done.
  by rewrite Nat2Z.id.
Qed.

End tensor_index_facts.

Section naive_loop_outcomes.
Import Scatter.
Context {T : Type} `{TensorOps T}.

Lemma elem_of_unique (index : list Z) v : v ∈ NaiveLoop.unique index ↔ v ∈ index.
Proof.
  unfold NaiveLoop.unique. rewrite merge_sort_Permutation.
  apply elem_of_remove_dups.
Qed.

Lemma length_unique (index : list Z) :
  length (NaiveLoop.unique index) = length (remove_dups index).
Proof. unfold NaiveLoop.unique. by rewrite merge_sort_Permutation. Qed.

Lemma Forall_unique (P : Z → Prop) (index : list Z) :
  Forall P (NaiveLoop.unique index) ↔ Forall P index.
Proof.
  rewrite !Forall_forall. by setoid_rewrite elem_of_unique.
Qed.

Lemma unique_nonempty (index : list Z) :
  index ≠ [] → NaiveLoop.unique index ≠ [].
Proof.
  intros Hne Hnil. destruct index as [|i index]; [done|].
  assert (i ∈ NaiveLoop.unique (i :: index)) as Hi
    by (apply elem_of_unique; left).
  rewrite Hnil in Hi. by apply elem_of_nil in Hi.
Qed.

(** [unique] depends on the set of values of [index] only. *)
Lemma unique_ext (index index' : list Z) :
  (∀ v, v ∈ index ↔ v ∈ index') →
  NaiveLoop.unique index = NaiveLoop.unique index'.
Proof.
  intros Hsame. unfold NaiveLoop.unique.
  apply (Sorted_unique Z.le); [apply (Sorted_merge_sort _)..|].
  rewrite !merge_sort_Permutation.
  apply NoDup_Permutation; [apply NoDup_remove_dups..|].
  intros v. by rewrite !elem_of_remove_dups.
Qed.

Lemma setitem_length (out out' : list T) (i : Z) (v : T) :
  NaiveLoop.setitem out i v = Ok out' → length out' = length out.
Proof.
  unfold NaiveLoop.setitem.
  destruct (TensorIndex.position (length out) i); [|done].
  intros [= <-]. by rewrite length_insert.
Qed.

Lemma naive_loop_returns (src : list T) (index : list Z) : ∀ todo out,
  length index = length src →
  Forall (λ v, (- Z.of_nat (length out) ≤ v < Z.of_nat (length out))%Z) todo →
  ∃ out', NaiveLoop.naive_loop todo src index out = Ok out'
        ∧ length out' = length out.
Proof.
  induction todo as [|i todo IH]; intros out Hlen Hall; simpl.
  - by exists out.
  - apply Forall_cons in Hall as [Hi Hall].
    unfold masked_select, NaiveLoop.mask_eq. rewrite length_fmap.
    rewrite decide_True by done. simpl.
    destruct (NaiveLoop.setitem out i _) as [out1|] eqn:Hset; last first.
    { unfold NaiveLoop.setitem in Hset.
      apply position_is_Some in Hi as [p Hp]. by rewrite Hp in Hset. }
    simpl. apply setitem_length in Hset.
    destruct (IH out1 Hlen) as (out' & Hrun & Hlen'); [by rewrite Hset|].
    exists out'. split; [done|lia].
Qed.

Lemma naive_loop_out_of_range (src : list T) (index : list Z) : ∀ todo out,
  length index = length src →
  ¬ Forall (λ v, (- Z.of_nat (length out) ≤ v < Z.of_nat (length out))%Z) todo →
  NaiveLoop.naive_loop todo src index out = Raise IndexError.
Proof.
  induction todo as [|i todo IH]; intros out Hlen Hbad; simpl.
  - by destruct Hbad.
  - unfold masked_select, NaiveLoop.mask_eq. rewrite length_fmap.
    rewrite decide_True by done. simpl.
    destruct (NaiveLoop.setitem out i _) as [out1|] eqn:Hset; simpl;
      last first.
    { unfold NaiveLoop.setitem in Hset.
      destruct (TensorIndex.position (length out) i); by simplify_eq. }
    pose proof Hset as Hl. apply setitem_length in Hl.
    apply IH; [done|]. rewrite Hl. intros Hall. apply Hbad.
    constructor; [|done]. apply position_is_Some.
    unfold NaiveLoop.setitem in Hset.
    destruct (TensorIndex.position (length out) i); [by eexists|done].
Qed.

Lemma naive_loop_mismatch (src : list T) (index : list Z) i todo out :
  length index ≠ length src →
  NaiveLoop.naive_loop (i :: todo) src index out = Raise IndexError.
Proof.
  intros Hlen. simpl. unfold masked_select, NaiveLoop.mask_eq.
  rewrite length_fmap. by rewrite decide_False.
Qed.

Lemma naive_loop_only_IndexError (src : list T) (index : list Z) :
  ∀ todo out e,
    NaiveLoop.naive_loop todo src index out = Raise e → e = IndexError.
Proof.
  induction todo as [|i todo IH]; intros out e; simpl; [done|].
  unfold masked_select, NaiveLoop.setitem.
  destruct (decide (length (NaiveLoop.mask_eq index i) = length src)); simpl;
    [|congruence].
  destruct (TensorIndex.position (length out) i); simpl; [|congruence].
  apply IH.
Qed.

(** With [k] the number of distinct values of [index], the loop returns
    exactly when [index] is empty or, having as many entries as [src] has
    slices, takes its values in [-k, k): a value from [k] on and a value
    below [-k] are outside the [k] slices of [out_naive], a negative value
    from [-k] on is written from the end.  What it returns has [k] slices,
    and whenever it raises, it raises [IndexError]. *)
Theorem out_naive_returns_iff (src : list T) (index : list Z) :
  let k := Z.of_nat (length (remove_dups index)) in
  ((∃ out, NaiveLoop.out_naive src index = Ok out)
   ↔ index = []
     ∨ (length index = length src ∧ Forall (λ v, (- k ≤ v < k)%Z) index))
  ∧ (∀ out, NaiveLoop.out_naive src index = Ok out →
       Z.of_nat (length out) = k)
  ∧ (∀ e, NaiveLoop.out_naive src index = Raise e → e = IndexError).
Proof.
  intros k. unfold NaiveLoop.out_naive.
  assert (Z.of_nat (length (replicate (length (NaiveLoop.unique index))
                              (tzero : T))) = k) as Hk
    by (by rewrite length_replicate, length_unique).
  split_and!.
  - split.
    + intros [out Hout].
      destruct (decide (index = [])) as [->|Hne]; [by left|]. right.
      destruct (decide (length index = length src)) as [Hlen|Hlen]; last first.
      { destruct (NaiveLoop.unique index) as [|i todo] eqn:Hu;
          [by apply unique_nonempty in Hne|].
        by rewrite naive_loop_mismatch in Hout. }
      split; [done|]. apply Forall_unique. rewrite <- Hk.
      destruct (decide (Forall
        (λ v, (- Z.of_nat (length (replicate (length (NaiveLoop.unique index))
                                     (tzero : T))) ≤ v
               < Z.of_nat (length (replicate (length (NaiveLoop.unique index))
                                     (tzero : T))))%Z)
        (NaiveLoop.unique index))) as [Hall|Hbad]; [done|].
      by rewrite naive_loop_out_of_range in Hout.
    + intros [->|[Hlen Hall]]; [by exists []|].
      destruct (naive_loop_returns src index (NaiveLoop.unique index)
                  (replicate (length (NaiveLoop.unique index)) tzero) Hlen)
        as (out & Hout & _); [|by exists out].
      rewrite Hk. by apply Forall_unique.
  - intros out Hout.
    destruct (decide (length index = length src)) as [Hlen|Hlen]; last first.
    { destruct (NaiveLoop.unique index) as [|i todo] eqn:Hu.
      - simpl in Hout. simplify_eq. by rewrite <- Hk.
      - by rewrite naive_loop_mismatch in Hout. }
    destruct (decide (Forall
      (λ v, (- Z.of_nat (length (replicate (length (NaiveLoop.unique index))
                                   (tzero : T))) ≤ v
             < Z.of_nat (length (replicate (length (NaiveLoop.unique index))
                                   (tzero : T))))%Z)
      (NaiveLoop.unique index))) as [Hall|Hbad].
    + destruct (naive_loop_returns src index _ _ Hlen Hall)
        as (out' & Hout' & Hl).
      rewrite Hout' in Hout. injection Hout as <-. by rewrite Hl.
    + by rewrite naive_loop_out_of_range in Hout.
  - intros e. apply naive_loop_only_IndexError.
Qed.

(** The slices selected by [index == i], read off the pairs
    [(index[p], src[p])]. *)
Lemma select_group (src : list T) : ∀ index i,
  select src (NaiveLoop.mask_eq index i) = snd <$> NaiveLoop.group index src i.
Proof.
  unfold NaiveLoop.group.
  induction src as [|v src IH]; intros [|j index] i; simpl; try done.
  fold (NaiveLoop.mask_eq index i). rewrite IH.
  destruct (decide (j = i)) as [->|Hne].
  - by rewrite bool_decide_eq_true_2, filter_cons_True by done.
  - by rewrite bool_decide_eq_false_2, filter_cons_False by done.
Qed.

Lemma elem_of_group (src : list T) (index : list Z) v :
  length index = length src →
  v ∈ index ↔ NaiveLoop.group index src v ≠ [].
Proof.
  intros Hlen. unfold NaiveLoop.group.
  rewrite <- (fst_zip index src) at 1 by lia.
  rewrite list_elem_of_fmap. split.
  - intros ([j a] & -> & Hin) Hnil. simpl in Hnil.
    assert ((j, a) ∈ filter (λ p : Z * T, p.1 = j) (zip index src)) as Hf
      by (by apply list_elem_of_filter).
    rewrite Hnil in Hf. by apply elem_of_nil in Hf.
  - intros Hne.
    destruct (filter (λ p : Z * T, p.1 = v) (zip index src))
      as [|p l] eqn:Hf; [done|].
    assert (p ∈ filter (λ p : Z * T, p.1 = v) (zip index src)) as Hp
      by (rewrite Hf; left).
    apply list_elem_of_filter in Hp as [Hv Hp]. by exists p.
Qed.

Lemma naive_loop_ext (src src' : list T) (index index' : list Z) :
  length index = length src → length index' = length src' →
  (∀ v, NaiveLoop.group index src v = NaiveLoop.group index' src' v) →
  ∀ todo out,
    NaiveLoop.naive_loop todo src index out
    = NaiveLoop.naive_loop todo src' index' out.
Proof.
  intros Hlen Hlen' Hgroups.
  induction todo as [|i todo IH]; intros out; simpl; [done|].
  unfold masked_select. rewrite !select_group, Hgroups.
  unfold NaiveLoop.mask_eq. rewrite !length_fmap.
  rewrite !decide_True by done. simpl.
  destruct (NaiveLoop.setitem out i _); simpl; [apply IH|done].
Qed.

(** The loop reads [src] and [index] group by group: two inputs in which
    every value [v] has the same slices in the same order, however the
    groups are interleaved, give the same tensor or the same error.  (The
    order inside a group is kept on purpose: the slices of a group are
    added up in that order, and with floating-point numbers another order
    can give another sum.) *)
Theorem out_naive_group_order (src src' : list T) (index index' : list Z) :
  length index = length src → length index' = length src' →
  (∀ v, NaiveLoop.group index src v = NaiveLoop.group index' src' v) →
  NaiveLoop.out_naive src index = NaiveLoop.out_naive src' index'.
Proof.
  intros Hlen Hlen' Hgroups. unfold NaiveLoop.out_naive.
  rewrite (unique_ext index index').
  - by apply naive_loop_ext.
  - intros v. rewrite (elem_of_group src index v Hlen),
      (elem_of_group src' index' v Hlen'). by rewrite Hgroups.
Qed.

Lemma StronglySorted_filter {A} (R : relation A) (P : A → Prop)
    `{∀ a, Decision (P a)} (l : list A) :
  StronglySorted R l → StronglySorted R (filter P l).
Proof.
  induction 1 as [|a l Hl IH Ha]; [constructor|].
  rewrite filter_cons. case_decide; [|done]. constructor; [done|].
  apply Forall_forall. intros b [_ Hb]%list_elem_of_filter.
  rewrite Forall_forall in Ha. by apply Ha.
Qed.

Lemma StronglySorted_seq (a b : nat) : StronglySorted le (seq a b).
Proof.
  revert a. induction b as [|b IH]; intros a; simpl; constructor; [apply IH|].
  apply Forall_forall. intros v Hv%elem_of_seq. lia.
Qed.

(** On an index without negative entries the loop is [Scatter.out_naive]. *)
Lemma unique_of_nat (index : list nat) :
  NaiveLoop.unique (Z.of_nat <$> index) = Z.of_nat <$> Scatter.unique index.
Proof.
  apply (Sorted_unique Z.le).
  - apply (Sorted_merge_sort _).
  - unfold Scatter.unique. apply Sorted_fmap with (R1 := le).
    + intros a b. lia.
    + apply StronglySorted_Sorted, StronglySorted_filter, StronglySorted_seq.
  - unfold NaiveLoop.unique. rewrite merge_sort_Permutation.
    apply NoDup_Permutation.
    + apply NoDup_remove_dups.
    + apply NoDup_fmap; [apply _|]. apply NoDup_filter, NoDup_seq.
    + intros v. rewrite elem_of_remove_dups, !list_elem_of_fmap.
      unfold Scatter.unique. setoid_rewrite list_elem_of_filter.
      setoid_rewrite elem_of_seq. split.
      * intros (j & -> & Hj). exists j. split; [done|]. split; [done|].
        apply max_list_elem_of_le in Hj. lia.
      * intros (j & -> & Hj & _). by exists j.
Qed.

Lemma naive_loop_of_nat (src : list T) (index : list nat) : ∀ todo out,
  NaiveLoop.naive_loop (Z.of_nat <$> todo) src (Z.of_nat <$> index) out
  = Scatter.naive_loop todo src index out.
Proof.
  induction todo as [|i todo IH]; intros out; simpl; [done|].
  replace (NaiveLoop.mask_eq (Z.of_nat <$> index) (Z.of_nat i))
    with (mask_eq index i); last first.
  { unfold NaiveLoop.mask_eq, mask_eq. rewrite <- list_fmap_compose.
    apply list_fmap_ext. intros _ v _. simpl.
    apply bool_decide_ext. lia. }
  destruct (masked_select src (mask_eq index i)) as [rows|]; [|done]. simpl.
  unfold NaiveLoop.setitem, setitem. rewrite position_of_nat.
  destruct (decide (i < length out)); simpl; [apply IH|done].
Qed.

Lemma out_naive_of_nat (src : list T) (index : list nat) :
  NaiveLoop.out_naive src (Z.of_nat <$> index) = Scatter.out_naive src index.
Proof.
  unfold NaiveLoop.out_naive, Scatter.out_naive.
  rewrite unique_of_nat, length_fmap. apply naive_loop_of_nat.
Qed.

End naive_loop_outcomes.

(** The index of the cell returns, and so does an index that counts from
    the end; a gap in the values does not. *)
Lemma out_naive_returns_iff_witness :
  (∃ out, NaiveLoop.out_naive [10; 20; 30]%Z [0; 1; 0]%Z = Ok out)
  ∧ (∃ out, NaiveLoop.out_naive [10; 20]%Z [-1; 0]%Z = Ok out)
  ∧ ¬ (∃ out, NaiveLoop.out_naive [10; 20]%Z [0; 2]%Z = Ok out).
Proof.
  split_and!.
  - apply (proj1 (out_naive_returns_iff [10; 20; 30]%Z [0; 1; 0]%Z)).
    right. split; [reflexivity|]. repeat constructor; simpl; lia.
  - apply (proj1 (out_naive_returns_iff [10; 20]%Z [-1; 0]%Z)).
    right. split; [reflexivity|]. repeat constructor; simpl; lia.
  - intros Hok.
    apply (proj1 (out_naive_returns_iff [10; 20]%Z [0; 2]%Z)) in Hok
      as [Hnil|[_ Hall]]; [discriminate|].
    apply Forall_cons in Hall as [_ Hall]. apply Forall_cons in Hall as [H2 _].
    simpl in H2. lia.
Defined.

(** Slice [-1] of two is slice 1: the group of [-1] lands there. *)
Example out_naive_from_the_end :
  NaiveLoop.out_naive [10; 20]%Z [-1; 0]%Z = Ok [20; 10]%Z.
Proof. vm_compute. reflexivity. Qed.

(** The rows of group 0 and those of group 1, interleaved the other way
    round. *)
Lemma out_naive_group_order_witness :
  NaiveLoop.out_naive [10; 20; 30; 40]%Z [0; 1; 0; 1]%Z
  = NaiveLoop.out_naive [20; 10; 40; 30]%Z [1; 0; 1; 0]%Z.
Proof.
  apply (out_naive_group_order [10; 20; 30; 40]%Z [20; 10; 40; 30]%Z
           [0; 1; 0; 1]%Z [1; 0; 1; 0]%Z).
  - reflexivity.
  - reflexivity.
  - intros v. unfold NaiveLoop.group. simpl.
    destruct (decide (v = 0%Z)) as [->|H0]; [reflexivity|].
    destruct (decide (v = 1%Z)) as [->|H1]; [reflexivity|].
    rewrite !filter_cons_False by (simpl; congruence). reflexivity.
Defined.

(** ** [NaiveGCNConv]: errors, locality, order of the edges *)

Section naive_gcn_more.
Import Scatter NaiveGCN.
Context {T : Type} `{TensorLaws T}.

Lemma index_select_raises (x : list T) : ∀ idx,
  ¬ Forall (λ j, j < length x) idx →
  index_select x idx = Raise LibraryError.
Proof.
  induction idx as [|j idx IH]; intros Hbad; simpl.
  - by destruct Hbad.
  - destruct (x !! j) as [v|] eqn:Hv; [|done].
    rewrite IH; [done|]. intros Hall. apply Hbad. constructor; [|done].
    by eapply lookup_lt_Some.
Qed.

Lemma Forall2_lookup_default (x : list T) : ∀ js xs,
  Forall2 (λ j v, x !! j = Some v) js xs →
  xs = (λ j, default tzero (x !! j)) <$> js.
Proof.
  induction 1 as [|j v js xs Hv _ IH]; [done|].
  rewrite fmap_cons, Hv, <- IH. done.
Qed.


Lemma forward_raises (conv : NaiveGCNConv) (x : list T)
    (edge_index : list (nat * nat)) :
  ¬ Forall (λ e, e.1 < length x ∧ e.2 < length x) edge_index →
  forward conv x edge_index = Raise LibraryError.
Proof.
  intros Hbad. unfold forward, propagate.
  destruct (decide (Forall (λ j, j < length (linear conv <$> x))
                      (fst <$> edge_index))) as [Hsrc|Hsrc].
  - destruct (index_select_total _ _ Hsrc) as (msgs & -> & Hmsgs).
    simpl. unfold scatter.
    assert (length (snd <$> edge_index) = length msgs) as Hlen.
    { apply Forall2_length in Hmsgs. by rewrite !length_fmap in *. }
    rewrite decide_True by done. simpl.
    rewrite decide_False; [done|]. intros Hdst. apply Hbad.
    rewrite Forall_fmap in Hsrc, Hdst. rewrite length_fmap in Hsrc, Hdst.
    rewrite Forall_forall in Hsrc, Hdst. apply Forall_forall.
    intros e He. split; [by apply Hsrc|by apply Hdst].
  - by rewrite index_select_raises.
Qed.



End naive_gcn_more.

Section naive_gcn_order.
Import Scatter NaiveGCN.
Context {T : Type} `{TensorOps T}.

(** What [scatter_add_] leaves at position [j], with no assumption on the
    addition: the slices sent to [j] are added to the old slice one after
    the other, in the order of [index]. *)
Lemma scatter_add__accumulates (index : list nat) : ∀ (src out : list T) j,
  length index = length src →
  scatter_add_ out index src !! j =
    (λ o, foldl tadd o (select src (mask_eq index j))) <$> out !! j.
Proof.
  unfold scatter_add_.
  induction index as [|i index IH]; intros [|v src] out j Hlen;
    simplify_eq/=.
  - by destruct (out !! j).
  - rewrite IH by done. fold (mask_eq index j).
    destruct (decide (i = j)) as [->|Hne].
    + rewrite list_lookup_alter_eq, bool_decide_eq_true_2 by done.
      by destruct (out !! j).
    + rewrite list_lookup_alter_ne, bool_decide_eq_false_2 by done. done.
Qed.

Lemma forward_accumulates (conv : NaiveGCNConv) (x : list T)
    (edge_index : list (nat * nat)) :
  Forall (λ e, e.1 < length x ∧ e.2 < length x) edge_index →
  ∃ out, forward conv x edge_index = Ok out
       ∧ length out = length x
       ∧ ∀ i, i < length x →
           out !! i = Some (act conv (foldl tadd tzero
             ((λ j, linear conv (default tzero (x !! j)))
                <$> incoming edge_index i))).
Proof.
  intros Hwf. unfold forward, propagate.
  destruct (index_select_total (linear conv <$> x) (fst <$> edge_index))
    as (msgs & -> & Hmsgs).
  { apply Forall_fmap. eapply Forall_impl; [exact Hwf|].
    intros [j i] [Hj _]. simpl in *. by rewrite length_fmap. }
  simpl. unfold scatter.
  assert (length (snd <$> edge_index) = length msgs) as Hlen.
  { apply Forall2_length in Hmsgs. by rewrite !length_fmap in *. }
  rewrite decide_True by done. simpl.
  rewrite decide_True; last first.
  { apply Forall_fmap. eapply Forall_impl; [exact Hwf|].
    intros [j i] [_ Hi]. simpl in *. by rewrite length_fmap. }
  simpl. eexists. split; [reflexivity|]. split.
  { by rewrite length_fmap, scatter_add__length, length_replicate,
      length_fmap. }
  intros i Hi.
  apply (select_incoming _ i) in Hmsgs.
  apply Forall2_lookup_fmap in Hmsgs as (xs & Hxs & Heq).
  apply Forall2_lookup_default in Hxs.
  rewrite list_lookup_fmap, scatter_add__accumulates by done.
  rewrite lookup_replicate_2 by (by rewrite length_fmap).
  simpl. rewrite Heq, Hxs. by rewrite <- list_fmap_compose.
Qed.

Lemma elem_of_incoming (edge_index : list (nat * nat)) j i :
  j ∈ incoming edge_index i ↔ (j, i) ∈ edge_index.
Proof.
  unfold incoming. rewrite list_elem_of_fmap. split.
  - intros ([j' i'] & -> & [Hi He]%list_elem_of_filter). simpl in *.
    by subst.
  - intros He. exists (j, i). split; [done|]. by apply list_elem_of_filter.
Qed.

(** [forward] reads the edges node by node: two edge lists in which every
    node has the same incoming edges in the same order, however the edges
    of different nodes are interleaved, give the same rows or the same
    error.  (The order of the edges into one node is kept on purpose:
    their messages are accumulated in that order, and with floating-point
    numbers another order can give another row.) *)
Theorem NaiveGCNConv_forward_edge_order (conv : NaiveGCNConv) (x : list T)
    (edge_index edge_index' : list (nat * nat)) :
  (∀ i, incoming edge_index i = incoming edge_index' i) →
  forward conv x edge_index = forward conv x edge_index'.
Proof.
  intros Hsame.
  assert (∀ e, e ∈ edge_index ↔ e ∈ edge_index') as Hedges.
  { intros [j i]. by rewrite <- !elem_of_incoming, Hsame. }
  assert (Forall (λ e, e.1 < length x ∧ e.2 < length x) edge_index
          ↔ Forall (λ e, e.1 < length x ∧ e.2 < length x) edge_index')
    as Hwf_iff.
  { rewrite !Forall_forall. by setoid_rewrite Hedges. }
  destruct (decide (Forall (λ e, e.1 < length x ∧ e.2 < length x) edge_index))
    as [Hwf|Hbad].
  - destruct (forward_accumulates conv x edge_index Hwf)
      as (out & -> & Hlen & Hrows).
    destruct (forward_accumulates conv x edge_index')
      as (out' & -> & Hlen' & Hrows'); [by apply Hwf_iff|].
    f_equal. apply list_eq. intros i.
    destruct (decide (i < length x)) as [Hi|Hi].
    + rewrite Hrows, Hrows' by done. by rewrite Hsame.
    + rewrite !lookup_ge_None_2 by lia. done.
  - rewrite !forward_raises; [done| |done]. by rewrite <- Hwf_iff.
Qed.

End naive_gcn_order.



(** The edge into node 0 listed first instead of last; the two edges into
    node 1 keep their order. *)
Lemma NaiveGCNConv_forward_edge_order_witness :
  let conv := {| NaiveGCN.linear := λ v, (2 * v + 1)%Z;
                 NaiveGCN.act := Z.max 0 |} in
  NaiveGCN.forward conv [5; -7; 3]%Z [(0, 1); (2, 1); (1, 0)]
  = NaiveGCN.forward conv [5; -7; 3]%Z [(1, 0); (0, 1); (2, 1)].
Proof.
  intros conv.
  apply (NaiveGCNConv_forward_edge_order conv [5; -7; 3]%Z
           [(0, 1); (2, 1); (1, 0)] [(1, 0); (0, 1); (2, 1)]).
  intros i. unfold NaiveGCN.incoming.
  destruct (decide (i = 0)) as [->|H0]; [reflexivity|].
  destruct (decide (i = 1)) as [->|H1]; [reflexivity|].
  rewrite !filter_cons_False by (simpl; congruence). reflexivity.
Defined.

(** ** [InteractionNetworkLayer] and [AttentiveINLayer] *)

Section in_layer_facts.
Import Scatter INLayer.
Context {N E : Type} `{TensorLaws E}.

Lemma tensor_getitem_total (x : list N) : ∀ idx,
  Forall (λ j, j < length x) idx →
  ∃ l, tensor_getitem x idx = Ok l ∧ Forall2 (λ j v, x !! j = Some v) idx l.
Proof.
  induction idx as [|j idx IH]; intros Hall; simpl.
  - exists []. by split.
  - apply Forall_cons in Hall as [Hj Hall].
    destruct (lookup_lt_is_Some_2 x j Hj) as [v Hv].
    destruct (IH Hall) as (l & -> & Hl).
    rewrite Hv. simpl. exists (v :: l). split; [done|]. by constructor.
Qed.

Lemma tensor_getitem_raises (x : list N) : ∀ idx,
  ¬ Forall (λ j, j < length x) idx →
  tensor_getitem x idx = Raise IndexError.
Proof.
  induction idx as [|j idx IH]; intros Hbad; simpl.
  - by destruct Hbad.
  - destruct (x !! j) as [v|] eqn:Hv; [|done].
    rewrite IH; [done|]. intros Hall. apply Hbad. constructor; [|done].
    by eapply lookup_lt_Some.
Qed.

Lemma valid_edges_split (n : nat) (edge_index : list (nat * nat)) :
  Forall (λ e, e.1 < n ∧ e.2 < n) edge_index
  ↔ Forall (λ j, j < n) (fst <$> edge_index)
    ∧ Forall (λ i, i < n) (snd <$> edge_index).
Proof.
  rewrite !Forall_fmap, <- Forall_and. apply Forall_proper; [|done].
  by intros [j i].
Qed.

(** What [edge_update] returns on a well-formed input: one row per edge. *)
Lemma edge_update_rows (f : N → N → E → E) (x : list N)
    (edge_index : list (nat * nat)) (edge_attr : list E) :
  Forall (λ e, e.1 < length x ∧ e.2 < length x) edge_index →
  length edge_attr = length edge_index →
  ∃ ef, edge_update f x edge_index edge_attr = Ok ef
      ∧ length ef = length edge_index
      ∧ ∀ k j i a xj xi,
          edge_index !! k = Some (j, i) → edge_attr !! k = Some a →
          x !! j = Some xj → x !! i = Some xi →
          ef !! k = Some (f xj xi a).
Proof.
  intros [Hsrc Hdst]%valid_edges_split Hlen. unfold edge_update.
  destruct (tensor_getitem_total x _ Hsrc) as (x_i & -> & Hxi).
  destruct (tensor_getitem_total x _ Hdst) as (x_j & -> & Hxj). simpl.
  pose proof (Forall2_length _ _ _ Hxi) as Hli.
  pose proof (Forall2_length _ _ _ Hxj) as Hlj.
  rewrite length_fmap in Hli, Hlj.
  rewrite decide_True by lia.
  eexists. split; [done|]. split.
  { rewrite length_zip_with, length_zip. lia. }
  intros k j i a xj xi Hk Ha Hj Hi.
  assert (x_i !! k = Some xj) as Hki.
  { destruct (Forall2_lookup_l _ _ _ k j Hxi) as (v & Hv & Hjv).
    - by rewrite list_lookup_fmap, Hk.
    - congruence. }
  assert (x_j !! k = Some xi) as Hkj.
  { destruct (Forall2_lookup_l _ _ _ k i Hxj) as (v & Hv & Hiv).
    - by rewrite list_lookup_fmap, Hk.
    - congruence. }
  rewrite lookup_zip_with, lookup_zip_with, Hki, Hkj, Ha. done.
Qed.

Lemma edge_update_raises (f : N → N → E → E) (x : list N)
    (edge_index : list (nat * nat)) (edge_attr : list E) :
  ¬ (Forall (λ e, e.1 < length x ∧ e.2 < length x) edge_index
     ∧ length edge_attr = length edge_index) →
  ∃ e, edge_update f x edge_index edge_attr = Raise e.
Proof.
  intros Hbad. unfold edge_update.
  destruct (decide (Forall (λ j, j < length x) (fst <$> edge_index)))
    as [Hsrc|Hsrc]; [|rewrite tensor_getitem_raises by done; by eexists].
  destruct (tensor_getitem_total x _ Hsrc) as (x_i & -> & Hxi). simpl.
  destruct (decide (Forall (λ i, i < length x) (snd <$> edge_index)))
    as [Hdst|Hdst]; [|rewrite tensor_getitem_raises by done; by eexists].
  destruct (tensor_getitem_total x _ Hdst) as (x_j & -> & Hxj). simpl.
  apply Forall2_length in Hxi. rewrite length_fmap in Hxi.
  rewrite decide_False; [by eexists|].
  intros Hlen. apply Hbad. split; [by apply valid_edges_split|lia].
Qed.

Lemma inferred_size_eq (edge_index : list (nat * nat)) :
  match snd <$> edge_index with
  | [] => 0
  | _ => S (max_list (snd <$> edge_index))
  end = inferred_size edge_index.
Proof. unfold inferred_size. by destruct (snd <$> edge_index). Qed.

Lemma max_list_bound (index : list nat) :
  Forall (λ i, i < S (max_list index)) index.
Proof.
  apply Forall_forall. intros i Hi. apply max_list_elem_of_le in Hi. lia.
Qed.

(** The sum aggregation without a number of nodes. *)
Lemma scatter_inferred (msg : list E) (index : list nat) :
  length index = length msg →
  ∃ out, scatter msg index None = Ok out
       ∧ length out = match index with [] => 0 | _ => S (max_list index) end
       ∧ ∀ i, i < length out →
           out !! i = Some (tsum (select msg (mask_eq index i))).
Proof.
  intros Hlen. unfold scatter. rewrite decide_True by done. simpl.
  rewrite decide_True; last first.
  { destruct index; [constructor|apply max_list_bound]. }
  eexists. split; [done|].
  rewrite scatter_add__length, length_replicate. split; [done|].
  intros i Hi. rewrite scatter_add__lookup by done.
  rewrite lookup_replicate_2 by done. simpl. by rewrite tadd_zero_l.
Qed.


(** The shape of [forward], whatever the aggregation: it returns exactly
    when the edge index is well formed, [edge_attr] has one row per edge
    and the aggregation returns one row per node. *)
Lemma forward_with_returns_iff
    (aggregate : list E → list nat → result (list E))
    (f : N → N → E → E) (g : N → E → N) (x : list N)
    (edge_index : list (nat * nat)) (edge_attr : list E) :
  (∀ msg index, length index = length msg →
     ∃ out, aggregate msg index = Ok out
          ∧ length out
            = match index with [] => 0 | _ => S (max_list index) end) →
  (∃ out, forward_with aggregate f g x edge_index edge_attr = Ok out)
  ↔ Forall (λ e, e.1 < length x ∧ e.2 < length x) edge_index
    ∧ length edge_attr = length edge_index
    ∧ inferred_size edge_index = length x.
Proof.
  intros Hagg. unfold forward_with.
  destruct (decide (Forall (λ e, e.1 < length x ∧ e.2 < length x) edge_index
                    ∧ length edge_attr = length edge_index)) as [[Hwf Hlen]|Hbad].
  - destruct (edge_update_rows f x edge_index edge_attr Hwf Hlen)
      as (ef & -> & Hef & _). simpl. unfold propagate.
    destruct (Hagg ef (snd <$> edge_index)) as (out & -> & Hout);
      [by rewrite length_fmap|]. simpl.
    rewrite inferred_size_eq in Hout. rewrite Hout.
    destruct (decide (inferred_size edge_index = length x)) as [Hn|Hn]; simpl.
    + split; [done|]. intros _. by eexists.
    + split; [by intros [? ?]|]. by intros (_ & _ & ?).
  - destruct (edge_update_raises f x edge_index edge_attr Hbad) as [e ->].
    simpl. split; [by intros [? ?]|]. intros (? & ? & _). by destruct Hbad.
Qed.


(** [InteractionNetworkLayer.forward], on a graph whose last node receives
    an edge: the first result has one row per node, the second one row per
    edge; the edge [j → i] with features [a] gets [f(x_j, x_i, a)], and node
    [i] gets [g(x_i, s)] where [s] is the sum of the new features of the
    edges into [i]. *)
Theorem InteractionNetworkLayer_forward_spec (self : InteractionNetworkLayer)
    (x : list N) (edge_index : list (nat * nat)) (edge_attr : list E) :
  Forall (λ e, e.1 < length x ∧ e.2 < length x) edge_index →
  length edge_attr = length edge_index →
  inferred_size edge_index = length x →
  ∃ updated_nf updated_ef,
    forward self x edge_index edge_attr = Ok (updated_nf, updated_ef)
    ∧ length updated_nf = length x
    ∧ length updated_ef = length edge_index
    ∧ (∀ k j i a xj xi,
         edge_index !! k = Some (j, i) → edge_attr !! k = Some a →
         x !! j = Some xj → x !! i = Some xi →
         updated_ef !! k = Some (f self xj xi a))
    ∧ (∀ i xi, x !! i = Some xi →
         updated_nf !! i
         = Some (g self xi
                   (tsum (select updated_ef
                            (mask_eq (snd <$> edge_index) i))))).
Proof.
  intros Hwf Hlen Hn. unfold forward, forward_with.
  destruct (edge_update_rows (f self) x edge_index edge_attr Hwf Hlen)
    as (ef & -> & Hef & Hrows). simpl. unfold propagate.
  destruct (scatter_inferred ef (snd <$> edge_index))
    as (out & -> & Hout & Hsum); [by rewrite length_fmap|]. simpl.
  rewrite inferred_size_eq in Hout.
  rewrite decide_True by lia.
  eexists _, _. split; [done|]. split_and!; try done.
  - rewrite length_zip_with. lia.
  - intros i xi Hi.
    assert (i < length out) as Hio by (apply lookup_lt_Some in Hi; lia).
    by rewrite lookup_zip_with, Hi, (Hsum i Hio).
Qed.





End in_layer_facts.

(** Two nodes joined in both directions, [f(x_j, x_i, a) = x_j + x_i + a]
    and [g(x_i, s) = x_i * s]. *)
Lemma InteractionNetworkLayer_forward_spec_witness :
  let layer := {| INLayer.f := λ xj xi a, (xj + xi + a)%Z;
                  INLayer.g := λ xi s, (xi * s)%Z |} in
  ∃ updated_nf updated_ef,
    INLayer.forward layer [2; 3]%Z [(0, 1); (1, 0)] [10; 20]%Z
      = Ok (updated_nf, updated_ef)
    ∧ length updated_nf = 2 ∧ length updated_ef = 2.
Proof.
  intros layer.
  destruct (InteractionNetworkLayer_forward_spec layer [2; 3]%Z
              [(0, 1); (1, 0)] [10; 20]%Z)
    as (nf & ef & Hf & Hnf & Hef & _).
  - repeat constructor; simpl; lia.
  - reflexivity.
  - reflexivity.
  - by exists nf, ef.
Defined.



(** Node 0 receives [x_1 + x_0 + 20 = 25], node 1 receives
    [x_0 + x_1 + 10 = 15]; the rows are [2 * 25] and [3 * 15]. *)
Example InteractionNetworkLayer_forward_small :
  INLayer.forward {| INLayer.f := λ xj xi a, (xj + xi + a)%Z;
                     INLayer.g := λ xi s, (xi * s)%Z |}
    [2; 3]%Z [(0, 1); (1, 0)] [10; 20]%Z = Ok ([50; 45]%Z, [15; 25]%Z).
Proof. reflexivity. Qed.

(** ** [InteractionNetworkLayer] on any integer edge index *)

Section in_layer_long_facts.
Import Scatter INLayer.
Context {N E : Type} `{TensorOps E}.

Lemma tensor_getitem_of_nodes (x : list N) : ∀ idx : list nat,
  INLayerLong.tensor_getitem x (Z.of_nat <$> idx) = tensor_getitem x idx.
Proof.
  induction idx as [|j idx IH]; csimpl; [done|].
  rewrite position_of_nat, IH.
  destruct (decide (j < length x)) as [Hj|Hj]; simpl.
  - done.
  - by rewrite (lookup_ge_None_2 x j) by lia.
Qed.

Lemma position_in_range (n : nat) (j : Z) :
  (- Z.of_nat n ≤ j < Z.of_nat n)%Z →
  TensorIndex.position n j = Some (Z.to_nat (j `mod` Z.of_nat n))
  ∧ Z.to_nat (j `mod` Z.of_nat n) < n.
Proof.
  intros Hj. unfold TensorIndex.position.
  destruct (decide (0 ≤ j < Z.of_nat n)%Z) as [Hpos|Hneg].
  - rewrite Z.mod_small by done. split; [done|lia].
  - rewrite decide_True by lia.
    replace (j `mod` Z.of_nat n)%Z with (Z.of_nat n + j)%Z; [split; [done|lia]|].
    apply (Z.mod_unique_pos _ _ (-1)); lia.
Qed.

(** Within [-n, n) an integer index reads the rows of the positions it
    stands for. *)
Lemma tensor_getitem_in_range (x : list N) : ∀ idx : list Z,
  Forall (λ j, (- Z.of_nat (length x) ≤ j < Z.of_nat (length x))%Z) idx →
  INLayerLong.tensor_getitem x idx
  = tensor_getitem x ((λ j, Z.to_nat (j `mod` Z.of_nat (length x))) <$> idx).
Proof.
  induction idx as [|j idx IH]; intros Hall; simpl; [done|].
  apply Forall_cons in Hall as [Hj Hall].
  destruct (position_in_range (length x) j Hj) as [-> Hlt]. simpl.
  by rewrite IH.
Qed.

Lemma tensor_getitem_out_of_range (x : list N) : ∀ idx : list Z,
  ¬ Forall (λ j, (- Z.of_nat (length x) ≤ j < Z.of_nat (length x))%Z) idx →
  INLayerLong.tensor_getitem x idx = Raise IndexError.
Proof.
  induction idx as [|j idx IH]; intros Hbad; simpl.
  - by destruct Hbad.
  - destruct (TensorIndex.position (length x) j) as [p|] eqn:Hp; simpl;
      [|done].
    destruct (x !! p) as [v|]; [|done].
    rewrite IH; [done|]. intros Hall. apply Hbad. constructor; [|done].
    apply position_is_Some. by eexists.
Qed.

(** The sum aggregation without a number of nodes returns one row per
    index up to the largest one. *)
Lemma scatter_inferred_length (msg : list E) (index : list nat) :
  length index = length msg →
  ∃ out, scatter msg index None = Ok out
       ∧ length out = match index with [] => 0 | _ => S (max_list index) end.
Proof.
  intros Hlen. unfold scatter. rewrite decide_True by done. simpl.
  rewrite decide_True; last first.
  { destruct index; [constructor|apply max_list_bound]. }
  eexists. split; [done|].
  by rewrite scatter_add__length, length_replicate.
Qed.

(** On an edge index without negative entries [forward] is [INLayer.forward]. *)
Lemma forward_of_nodes (self : InteractionNetworkLayer) (x : list N)
    (edge_index : list (nat * nat)) (edge_attr : list E) :
  INLayerLong.forward self x
    (prod_map Z.of_nat Z.of_nat <$> edge_index) edge_attr
  = forward self x edge_index edge_attr.
Proof.
  unfold INLayerLong.forward, forward, forward_with,
    INLayerLong.edge_update, edge_update.
  rewrite <- !list_fmap_compose.
  change (fst ∘ prod_map Z.of_nat Z.of_nat) with (Z.of_nat ∘ @fst nat nat).
  change (snd ∘ prod_map Z.of_nat Z.of_nat) with (Z.of_nat ∘ @snd nat nat).
  rewrite !list_fmap_compose, !tensor_getitem_of_nodes.
  destruct (tensor_getitem x (fst <$> edge_index)) as [x_i|]; [|done]. simpl.
  destruct (tensor_getitem x (snd <$> edge_index)) as [x_j|]; [|done]. simpl.
  destruct (decide (length edge_attr = length x_i)); [|done]. simpl.
  unfold INLayerLong.propagate, propagate, INLayerLong.aggregation_index.
  rewrite decide_True; last first.
  { apply Forall_fmap, Forall_forall. intros [j i] _. simpl. lia. }
  simpl. rewrite <- list_fmap_compose.
  assert (((λ e : Z * Z, Z.to_nat e.2) ∘ prod_map Z.of_nat Z.of_nat)
            <$> edge_index = snd <$> edge_index) as ->; [|done].
  apply list_fmap_ext. intros _ [j i] _. simpl. apply Nat2Z.id.
Qed.

(** An edge index whose sources lie in [-n, n) and whose targets are nodes
    is read as the edges between the nodes it stands for. *)
Lemma forward_resolved (self : InteractionNetworkLayer) (x : list N)
    (edge_index : list (Z * Z)) (edge_attr : list E) :
  Forall (λ e, (- Z.of_nat (length x) ≤ e.1 < Z.of_nat (length x))%Z
               ∧ (0 ≤ e.2 < Z.of_nat (length x))%Z) edge_index →
  INLayerLong.forward self x edge_index edge_attr
  = forward self x (INLayerLong.resolve (length x) <$> edge_index) edge_attr.
Proof.
  intros Hwf.
  unfold INLayerLong.forward, forward, forward_with,
    INLayerLong.edge_update, edge_update.
  rewrite !tensor_getitem_in_range; last first.
  { apply Forall_fmap. eapply Forall_impl; [exact Hwf|]. intros [j i]. simpl. lia. }
  { apply Forall_fmap. eapply Forall_impl; [exact Hwf|]. intros [j i]. simpl. lia. }
  rewrite <- !list_fmap_compose.
  assert ((λ j, Z.to_nat (j `mod` Z.of_nat (length x))) ∘ fst <$> edge_index
          = fst ∘ INLayerLong.resolve (length x) <$> edge_index) as ->.
  { apply list_fmap_ext. by intros _ [j i] _. }
  assert ((λ j, Z.to_nat (j `mod` Z.of_nat (length x))) ∘ snd <$> edge_index
          = snd ∘ INLayerLong.resolve (length x) <$> edge_index) as ->.
  { apply Forall_fmap_ext. eapply Forall_impl; [exact Hwf|].
    intros [j i] [_ Hi]. simpl in *. by rewrite Z.mod_small. }
  destruct (tensor_getitem x (fst ∘ INLayerLong.resolve (length x)
                                <$> edge_index)) as [x_i|]; [|done]. simpl.
  destruct (tensor_getitem x (snd ∘ INLayerLong.resolve (length x)
                                <$> edge_index)) as [x_j|]; [|done]. simpl.
  destruct (decide (length edge_attr = length x_i)); [|done]. simpl.
  unfold INLayerLong.propagate, propagate, INLayerLong.aggregation_index.
  rewrite decide_True; last first.
  { eapply Forall_impl; [exact Hwf|]. intros [j i]. simpl. lia. }
  simpl. by rewrite <- list_fmap_compose.
Qed.

Lemma forward_returns_in_range (self : InteractionNetworkLayer) (x : list N)
    (edge_index : list (Z * Z)) (edge_attr : list E) out :
  INLayerLong.forward self x edge_index edge_attr = Ok out →
  Forall (λ e, (- Z.of_nat (length x) ≤ e.1 < Z.of_nat (length x))%Z
               ∧ (0 ≤ e.2 < Z.of_nat (length x))%Z) edge_index.
Proof.
  unfold INLayerLong.forward, INLayerLong.edge_update. intros Hout.
  destruct (decide (Forall
    (λ j, (- Z.of_nat (length x) ≤ j < Z.of_nat (length x))%Z)
    (fst <$> edge_index))) as [Hsrc|Hsrc];
    [|by rewrite tensor_getitem_out_of_range in Hout].
  destruct (INLayerLong.tensor_getitem x (fst <$> edge_index)) as [x_i|];
    [|done]. simpl in Hout.
  destruct (decide (Forall
    (λ j, (- Z.of_nat (length x) ≤ j < Z.of_nat (length x))%Z)
    (snd <$> edge_index))) as [Hdst|Hdst];
    [|by rewrite tensor_getitem_out_of_range in Hout].
  destruct (INLayerLong.tensor_getitem x (snd <$> edge_index)) as [x_j|];
    [|done]. simpl in Hout.
  destruct (decide (length edge_attr = length x_i)); [|done]. simpl in Hout.
  unfold INLayerLong.propagate, INLayerLong.aggregation_index in Hout.
  destruct (decide (Forall (λ e : Z * Z, (0 ≤ e.2)%Z) edge_index))
    as [Hpos|Hneg]; [|done].
  rewrite Forall_fmap in Hsrc, Hdst.
  rewrite Forall_forall in Hsrc, Hdst, Hpos. apply Forall_forall.
  intros ed Hed. specialize (Hsrc ed Hed). specialize (Hdst ed Hed).
  specialize (Hpos ed Hed). simpl in *. lia.
Qed.

Lemma max_list_below (index : list nat) (n : nat) :
  index ≠ [] → Forall (λ i, i < n) index → max_list index < n.
Proof.
  intros Hne Hall. apply max_list_elem_of in Hne.
  rewrite Forall_forall in Hall. by apply Hall.
Qed.

(** With [n] the number of rows of [x], [InteractionNetworkLayer.forward]
    returns exactly when every source lies in [-n, n) (a negative source
    is read from the end of [x]), every target is a node, [edge_attr] has
    one row per edge and the last node is the target of an edge, or there
    is neither a node nor an edge.  On a graph whose last node receives no
    edge, a graph with nodes and no edge included, it raises; so it does
    on a negative target, which the aggregation refuses. *)
Theorem InteractionNetworkLayer_forward_returns_iff
    (self : InteractionNetworkLayer) (x : list N)
    (edge_index : list (Z * Z)) (edge_attr : list E) :
  let n := Z.of_nat (length x) in
  (∃ out, INLayerLong.forward self x edge_index edge_attr = Ok out)
  ↔ Forall (λ e, (- n ≤ e.1 < n)%Z ∧ (0 ≤ e.2 < n)%Z) edge_index
    ∧ length edge_attr = length edge_index
    ∧ ((edge_index = [] ∧ x = [])
       ∨ ∃ e, e ∈ edge_index ∧ e.2 = (n - 1)%Z).
Proof.
  intros n.
  assert (∀ msg index, length index = length msg →
            ∃ out, scatter msg index None = Ok out
                 ∧ length out
                   = match index with [] => 0 | _ => S (max_list index) end)
    as Hagg by apply scatter_inferred_length.
  pose proof (forward_with_returns_iff (λ msg index, scatter msg index None)
                (f self) (g self) x
                (INLayerLong.resolve (length x) <$> edge_index) edge_attr Hagg)
    as Hnodes.
  fold (forward self x (INLayerLong.resolve (length x) <$> edge_index)
          edge_attr) in Hnodes.
  rewrite length_fmap in Hnodes. split.
  - intros [out Hout].
    pose proof (forward_returns_in_range _ _ _ _ _ Hout) as Hwf.
    rewrite (forward_resolved _ _ _ _ Hwf) in Hout.
    destruct (proj1 Hnodes) as (_ & Hlen & Hsize); [by exists out|].
    split; [done|]. split; [done|].
    unfold inferred_size in Hsize. rewrite <- list_fmap_compose in Hsize.
    destruct edge_index as [|e0 edge_index'] eqn:Hedges.
    { left. split; [done|]. simpl in Hsize. by apply nil_length_inv. }
    right. rewrite <- Hedges in *.
    assert (snd ∘ INLayerLong.resolve (length x) <$> edge_index ≠ [])
      as Hne by (by rewrite Hedges).
    destruct (snd ∘ INLayerLong.resolve (length x) <$> edge_index)
      as [|i0 index'] eqn:Hidx; [done|]. rewrite <- Hidx in *.
    apply max_list_elem_of in Hne.
    apply list_elem_of_fmap in Hne as ([j i] & Hmax & He).
    exists (j, i). split; [done|]. simpl in *.
    rewrite Forall_forall in Hwf. specialize (Hwf _ He). simpl in Hwf.
    unfold n. lia.
  - intros (Hwf & Hlen & Hlast).
    rewrite (forward_resolved _ _ _ _ Hwf). apply Hnodes. split_and!.
    + apply Forall_fmap. eapply Forall_impl; [exact Hwf|].
      intros [j i] [Hj Hi]. simpl in *. split; [|lia].
      apply position_in_range. done.
    + done.
    + unfold inferred_size. rewrite <- list_fmap_compose.
      destruct Hlast as [[-> ->]|([j i] & He & Hi)]; [done|].
      assert (Z.to_nat i ∈ snd ∘ INLayerLong.resolve (length x) <$> edge_index)
        as Hin.
      { apply list_elem_of_fmap. by exists (j, i). }
      assert (snd ∘ INLayerLong.resolve (length x) <$> edge_index ≠ [])
        as Hne.
      { intros Hnil. rewrite Hnil in Hin. by apply elem_of_nil in Hin. }
      pose proof (max_list_elem_of_le _ _ Hin) as Hge.
      pose proof (max_list_below _ (length x) Hne) as Hlt.
      destruct (snd ∘ INLayerLong.resolve (length x) <$> edge_index)
        as [|i0 index'] eqn:Hidx; [done|]. rewrite <- Hidx in *.
      simpl in Hi. unfold n in Hi.
      assert (max_list (snd ∘ INLayerLong.resolve (length x) <$> edge_index)
              < length x); [|lia].
      apply Hlt. apply Forall_fmap. eapply Forall_impl; [exact Hwf|].
      intros [j' i'] [_ Hi']. simpl in *. lia.
Qed.

End in_layer_long_facts.

(** Two nodes and the layer of the examples above.  The source [-1] is
    read as node 1 and the call returns; with the single edge 1 → 0 the
    last node receives nothing, and with the target [-1] the aggregation
    refuses the index. *)
Lemma InteractionNetworkLayer_forward_returns_iff_witness :
  let layer := {| INLayer.f := λ xj xi a, (xj + xi + a)%Z;
                  INLayer.g := λ xi s, (xi * s)%Z |} in
  (∃ out, INLayerLong.forward layer [2; 3]%Z [(0, 1); (1, 0)]%Z [10; 20]%Z
          = Ok out)
  ∧ (∃ out, INLayerLong.forward layer [2; 3]%Z [(-1, 1); (1, 0)]%Z [10; 20]%Z
            = Ok out)
  ∧ ¬ (∃ out, INLayerLong.forward layer [2; 3]%Z [(1, 0)]%Z [10]%Z = Ok out)
  ∧ ¬ (∃ out, INLayerLong.forward layer [2; 3]%Z [(0, -1); (1, 0)]%Z
                [10; 20]%Z = Ok out)
  ∧ ¬ (∃ out, INLayerLong.forward layer [2; 3]%Z [] [] = Ok out).
Proof.
  intros layer. split_and!.
  - apply (proj2 (InteractionNetworkLayer_forward_returns_iff layer [2; 3]%Z
                    [(0, 1); (1, 0)]%Z [10; 20]%Z)).
    split_and!; [repeat constructor; simpl; lia|reflexivity|].
    right. exists (0, 1)%Z. split; [left|reflexivity].
  - apply (proj2 (InteractionNetworkLayer_forward_returns_iff layer [2; 3]%Z
                    [(-1, 1); (1, 0)]%Z [10; 20]%Z)).
    split_and!; [repeat constructor; simpl; lia|reflexivity|].
    right. exists (-1, 1)%Z. split; [left|reflexivity].
  - intros Hok.
    apply (proj1 (InteractionNetworkLayer_forward_returns_iff layer [2; 3]%Z
                    [(1, 0)]%Z [10]%Z)) in Hok
      as (_ & _ & [[Hnil _]|(e & He & Hlast)]); [discriminate|].
    apply list_elem_of_singleton in He as ->. discriminate Hlast.
  - intros Hok.
    apply (proj1 (InteractionNetworkLayer_forward_returns_iff layer [2; 3]%Z
                    [(0, -1); (1, 0)]%Z [10; 20]%Z)) in Hok as (Hwf & _).
    apply Forall_cons in Hwf as [[_ Hneg] _]. simpl in Hneg. lia.
  - intros Hok.
    apply (proj1 (InteractionNetworkLayer_forward_returns_iff layer [2; 3]%Z
                    [] [])) in Hok
      as (_ & _ & [[_ Hnil]|(e & He & _)]); [discriminate|].
    by apply elem_of_nil in He.
Defined.

(** The source [-1] is node 1: the first edge gets [3 + 3 + 10], the
    second [3 + 2 + 20]; node 0 receives 25 and node 1 receives 16. *)
Example InteractionNetworkLayer_forward_from_the_end :
  INLayerLong.forward {| INLayer.f := λ xj xi a, (xj + xi + a)%Z;
                         INLayer.g := λ xi s, (xi * s)%Z |}
    [2; 3]%Z [(-1, 1); (1, 0)]%Z [10; 20]%Z = Ok ([50; 48]%Z, [16; 25]%Z).
Proof. vm_compute. reflexivity. Qed.

(** ** [EdgeConv] *)

Section edge_conv_facts.
Import Scatter NaiveGCN EdgeConvLayer.
Context {N M : Type} `{MaxOps M} `{TensorSub N}.

Lemma foldl_arrive_Some (ms : list M) : ∀ a,
  foldl arrive (Some a) ms = Some (foldl mmax a ms).
Proof. induction ms as [|m ms IH]; intros a; simpl; [done|apply IH]. Qed.

Lemma foldl_arrive_None (ms : list M) :
  default mzero (foldl arrive None ms) = max_of ms.
Proof.
  destruct ms as [|m ms]; [done|].
  change (default mzero (foldl arrive (Some m) ms) = foldl mmax m ms).
  by rewrite foldl_arrive_Some.
Qed.

Lemma scatter_max_loop_lookup (index : list nat) :
  ∀ (msg : list M) (acc : list (option M)) j,
  length index = length msg →
  foldl (λ acc p, alter (λ o, arrive o p.2) p.1 acc) acc (zip index msg) !! j
  = (λ o, foldl arrive o (select msg (mask_eq index j))) <$> acc !! j.
Proof.
  induction index as [|i index IH]; intros [|m msg] acc j Hlen;
    simplify_eq/=.
  - by destruct (acc !! j).
  - rewrite IH by done. fold (mask_eq index j).
    destruct (decide (i = j)) as [->|Hne].
    + rewrite list_lookup_alter_eq, bool_decide_eq_true_2 by done.
      by destruct (acc !! j).
    + by rewrite list_lookup_alter_ne, bool_decide_eq_false_2 by done.
Qed.

Lemma scatter_max_loop_length (index : list nat) :
  ∀ (msg : list M) (acc : list (option M)),
  length (foldl (λ acc p, alter (λ o, arrive o p.2) p.1 acc) acc
            (zip index msg)) = length acc.
Proof.
  induction index as [|i index IH]; intros [|m msg] acc; simpl; try done.
  by rewrite IH, length_alter.
Qed.

Lemma scatter_max_rows (msg : list M) (index : list nat) (n : nat) :
  length index = length msg → Forall (λ i, i < n) index →
  ∃ out, scatter_max msg index n = Ok out
       ∧ length out = n
       ∧ ∀ i, i < n → out !! i = Some (max_of (select msg (mask_eq index i))).
Proof.
  intros Hlen Hall. unfold scatter_max. rewrite !decide_True by done.
  eexists. split; [done|]. split.
  - rewrite length_fmap.
    rewrite (scatter_max_loop_length index msg (replicate n None)).
    apply length_replicate.
  - intros i Hi. rewrite list_lookup_fmap.
    rewrite (scatter_max_loop_lookup index msg (replicate n None) i Hlen).
    rewrite lookup_replicate_2 by done. simpl.
    by rewrite foldl_arrive_None.
Qed.

Lemma select_message (self : @EdgeConv N M) (x : list N) i (xi : N) :
  x !! i = Some xi →
  ∀ (edge_index : list (nat * nat)) (x_i x_j : list N),
    Forall2 (λ k v, x !! k = Some v) (snd <$> edge_index) x_i →
    Forall2 (λ k v, x !! k = Some v) (fst <$> edge_index) x_j →
    ∃ xs, Forall2 (λ j xj, x !! j = Some xj) (incoming edge_index i) xs
        ∧ select (message self x_i x_j) (mask_eq (snd <$> edge_index) i)
          = (λ xj, h self xi (tsub xj xi)) <$> xs.
Proof.
  intros Hi. unfold incoming, message.
  induction edge_index as [|[j i'] es IH]; intros x_i x_j Hxi Hxj;
    inversion Hxi; inversion Hxj; simplify_eq/=.
  - exists []. by split.
  - fold (mask_eq (snd <$> es) i).
    destruct (IH _ _ ltac:(done) ltac:(done)) as (xs & Hxs & Heq).
    destruct (decide (i' = i)) as [->|Hne].
    + rewrite filter_cons_True, bool_decide_eq_true_2 by done. simpl.
      match goal with Hy : x !! i = Some ?y, Hj : x !! j = Some ?z |- _ =>
        exists (z :: xs); split; [by constructor|];
        rewrite fmap_cons, <- Heq; by simplify_eq
      end.
    + rewrite filter_cons_False, bool_decide_eq_false_2 by done.
      by exists xs.
Qed.

(** [EdgeConv.forward(x, edge_index)] on an edge index over the nodes of
    [x] returns one row per node; the row of node [i] is the maximum, over
    the edges [j → i], of [h(x_i, x_j - x_i)], and the zero row when no edge
    enters [i]. *)
Theorem EdgeConv_forward_spec (self : @EdgeConv N M) (x : list N)
    (edge_index : list (nat * nat)) :
  Forall (λ e, e.1 < length x ∧ e.2 < length x) edge_index →
  ∃ out, forward self x edge_index = Ok out
       ∧ length out = length x
       ∧ ∀ i xi, x !! i = Some xi →
           (∃ xs, Forall2 (λ j xj, x !! j = Some xj)
                    (incoming edge_index i) xs
                ∧ out !! i
                  = Some (max_of ((λ xj, h self xi (tsub xj xi)) <$> xs)))
           ∧ (incoming edge_index i = [] → out !! i = Some mzero).
Proof.
  intros Hwf. unfold forward, propagate.
  assert (Forall (λ j, j < length x) (fst <$> edge_index)
          ∧ Forall (λ i, i < length x) (snd <$> edge_index)) as [Hsrc Hdst].
  { rewrite !Forall_fmap. split; (eapply Forall_impl; [exact Hwf|]);
      by intros [j i] [? ?]. }
  destruct (index_select_total x _ Hdst) as (x_i & -> & Hxi).
  destruct (index_select_total x _ Hsrc) as (x_j & -> & Hxj). simpl.
  destruct (scatter_max_rows (message self x_i x_j) (snd <$> edge_index)
              (length x)) as (out & -> & Hlen & Hrows); [|done|].
  { unfold message. rewrite length_zip_with.
    apply Forall2_length in Hxi, Hxj. rewrite !length_fmap in *. lia. }
  simpl. exists out. split; [done|]. split; [done|].
  intros i xi Hi.
  destruct (select_message self x i xi Hi edge_index x_i x_j Hxi Hxj)
    as (xs & Hxs & Heq).
  assert (out !! i = Some (max_of ((λ xj, h self xi (tsub xj xi)) <$> xs)))
    as Hout.
  { rewrite Hrows by (by eapply lookup_lt_Some). by rewrite Heq. }
  split; [by exists xs|].
  intros Hnone. rewrite Hnone in Hxs. inversion Hxs; subst. exact Hout.
Qed.

End edge_conv_facts.

(** Three nodes with features 5, -7 and 3, the edges 0 → 1, 2 → 1 and
    1 → 0, and [h(x_i, d) = x_i + 2 d]. *)
Lemma EdgeConv_forward_spec_witness :
  let conv := {| EdgeConvLayer.h := λ xi d, (xi + 2 * d)%Z |} in
  ∃ out, EdgeConvLayer.forward conv [5; -7; 3]%Z [(0, 1); (2, 1); (1, 0)]
           = Ok out
       ∧ length out = 3.
Proof.
  intros conv.
  destruct (EdgeConv_forward_spec conv [5; -7; 3]%Z [(0, 1); (2, 1); (1, 0)])
    as (out & Hout & Hlen & _).
  - repeat constructor; simpl; lia.
  - by exists out.
Defined.

(** Node 0 gets [5 + 2 (-7 - 5) = -19], node 1 the larger of
    [-7 + 2 (5 + 7) = 17] and [-7 + 2 (3 + 7) = 13], node 2 nothing. *)
Example EdgeConv_forward_small :
  EdgeConvLayer.forward {| EdgeConvLayer.h := λ xi d, (xi + 2 * d)%Z |}
    [5; -7; 3]%Z [(0, 1); (2, 1); (1, 0)] = Ok [-19; 17; 0]%Z.
Proof. reflexivity. Qed.

(** ** Tutorial 4: [test] and the driver *)

Section evaluation_facts.
Import Scatter Evaluation.
Context {X EI Logits : Type}.

Lemma select_length {A} (l : list A) : ∀ mask,
  length mask = length l → length (select l mask) = count_true mask.
Proof.
  unfold count_true.
  induction l as [|a l IH]; intros [|b mask] Hlen; simplify_eq/=; [done|].
  destruct b.
  - rewrite filter_cons_True by done. simpl. by rewrite IH.
  - rewrite filter_cons_False by done. by rewrite IH.
Qed.

Lemma count_true_zero (mask : list bool) :
  count_true mask = 0 ↔ Forall (λ b, b = false) mask.
Proof.
  unfold count_true. induction mask as [|[] mask IH].
  - split; [constructor|done].
  - rewrite filter_cons_True by done. simpl. split; [lia|].
    by intros [? _]%Forall_cons.
  - rewrite filter_cons_False by done. rewrite IH.
    split; [intros Hm; by apply Forall_cons|by intros [_ ?]%Forall_cons].
Qed.

(** What [test] does once the model has returned [out], for a mask and
    labels as long as [out]. *)
Lemma test_unfold (argmax : Logits → nat)
    (model : X → EI → result (list Logits)) (data : Data) (out : list Logits) :
  model (x data) (edge_index data) = Ok out →
  length (test_mask data) = length out →
  length (y data) = length out →
  test argmax model data
  = if decide (count_true (test_mask data) = 0) then ZeroDivisionError
    else Accuracy
           (length (filter (λ pt, pt.1 = pt.2)
                      (zip (select (argmax <$> out) (test_mask data))
                           (select (y data) (test_mask data)))))
           (count_true (test_mask data)).
Proof.
  intros Hout Hmask Hy. unfold test, masked_select. rewrite Hout.
  rewrite length_fmap. rewrite !decide_True by lia. done.
Qed.

(** The accuracy printed by [test] is a fraction of a positive number of
    test nodes: [0 <= correct <= total], [total > 0], and [total] is the
    number of nodes selected by [test_mask]. *)
Theorem test_accuracy_bounds (argmax : Logits → nat)
    (model : X → EI → result (list Logits)) (data : Data) (correct total : nat) :
  test argmax model data = Accuracy correct total →
  correct ≤ total ∧ 0 < total ∧ total = count_true (test_mask data).
Proof.
  unfold test, masked_select.
  destruct (model (x data) (edge_index data)) as [out|]; [|done].
  rewrite length_fmap.
  destruct (decide (length (test_mask data) = length out)) as [Hm|];
    [|done].
  destruct (decide (length (test_mask data) = length (y data))) as [Hy|];
    [|done].
  destruct (decide (count_true (test_mask data) = 0)) as [|Hpos]; [done|].
  intros [= <- <-]. split; [|split; [lia|done]].
  etrans; [apply length_filter|].
  rewrite length_zip, !select_length by (by rewrite ?length_fmap). lia.
Qed.

(** With no test node, [test] ends in the [ZeroDivisionError] of
    [correct / int(data.test_mask.sum())], and only then. *)
Theorem test_divides_by_zero_iff (argmax : Logits → nat)
    (model : X → EI → result (list Logits)) (data : Data) (out : list Logits) :
  model (x data) (edge_index data) = Ok out →
  length (test_mask data) = length out →
  length (y data) = length out →
  test argmax model data = ZeroDivisionError
  ↔ Forall (λ b, b = false) (test_mask data).
Proof.
  intros Hout Hmask Hy. rewrite (test_unfold _ _ _ out) by done.
  pose proof (count_true_zero (test_mask data)) as Hzero.
  destruct (decide (count_true (test_mask data) = 0)) as [Hz|Hz].
  - split; [intros _; by apply Hzero|done].
  - split; [done|]. intros Hall. by apply Hzero in Hall.
Qed.

(** When the driver cell stops inside [get_dataset], the exception is the
    one [Planetoid] raised for one of the three names: the assertion of
    [get_dataset] never fails there.  When it stops later, [Planetoid] had
    returned the dataset. *)
Theorem driver_never_trips_assertion {Dataset Failure : Type}
    (Planetoid : string → string → result Dataset)
    (run : string → Dataset → option Failure) :
  (∀ e, driver Planetoid run = Some (InGetDataset e) →
     ∃ name, name ∈ GCNTutorial.dataset_names
           ∧ Planetoid ("/tmp/" +:+ name) name = Raise e)
  ∧ (∀ name failure, driver Planetoid run = Some (InRun name failure) →
       ∃ dataset, Planetoid ("/tmp/" +:+ name) name = Ok dataset
                ∧ run name dataset = Some failure).
Proof.
  unfold driver. cbv zeta.
  set (body := λ dataset_name,
         match GCNTutorial.get_dataset Planetoid dataset_name with
         | Raise e => Some (InGetDataset e)
         | Ok dataset => InRun dataset_name <$> run dataset_name dataset
         end).
  assert (∀ names, (∀ name, name ∈ names → name ∈ GCNTutorial.dataset_names) →
    (∀ e, for_names body names = Some (InGetDataset e) →
       ∃ name, name ∈ GCNTutorial.dataset_names
             ∧ Planetoid ("/tmp/" +:+ name) name = Raise e)
    ∧ (∀ name failure, for_names body names = Some (InRun name failure) →
         ∃ dataset, Planetoid ("/tmp/" +:+ name) name = Ok dataset
                  ∧ run name dataset = Some failure)) as Hloop.
  { induction names as [|name names IH]; intros Hin; [by split|].
    destruct IH as [IH1 IH2]; [intros n Hn; apply Hin; by right|].
    assert (name ∈ GCNTutorial.dataset_names) as Hname by (apply Hin; left).
    simpl. unfold body at 1 3, GCNTutorial.get_dataset.
    rewrite decide_True by done.
    destruct (Planetoid ("/tmp/" +:+ name) name) as [dataset|e'] eqn:HP; simpl.
    - destruct (run name dataset) as [fl|] eqn:Hrun; simpl.
      + split; [done|]. intros n fl' [= <- <-]. by exists dataset.
      + by split.
    - split; [|done]. intros e [= <-]. by exists name. }
  apply Hloop. by intros name Hname.
Qed.

End evaluation_facts.

(** Four nodes, two of them test nodes, one of these predicted right. *)
Lemma test_accuracy_bounds_witness :
  1 ≤ 2 ∧ 0 < 2
  ∧ 2 = Evaluation.count_true [true; false; true; false].
Proof.
  apply (test_accuracy_bounds (X := ()) (EI := ()) (Logits := nat) id
           (λ _ _, Ok [0; 1; 2; 0])
           {| Evaluation.x := (); Evaluation.edge_index := ();
              Evaluation.y := [0; 0; 1; 1];
              Evaluation.test_mask := [true; false; true; false] |} 1 2).
  reflexivity.
Defined.

Lemma test_divides_by_zero_iff_witness :
  Evaluation.test (X := ()) (EI := ()) (Logits := nat) id
    (λ _ _, Ok [0; 1])
    {| Evaluation.x := (); Evaluation.edge_index := ();
       Evaluation.y := [0; 0]; Evaluation.test_mask := [false; false] |}
  = Evaluation.ZeroDivisionError.
Proof.
  apply (proj2 (test_divides_by_zero_iff (X := ()) (EI := ()) (Logits := nat)
                  id (λ _ _, Ok [0; 1])
                  {| Evaluation.x := (); Evaluation.edge_index := ();
                     Evaluation.y := [0; 0];
                     Evaluation.test_mask := [false; false] |} [0; 1]
                  eq_refl eq_refl eq_refl)).
  repeat constructor.
Defined.

(** The download of the second dataset fails. *)
Lemma driver_never_trips_assertion_witness :
  ∃ name, name ∈ GCNTutorial.dataset_names
        ∧ (λ (_ name : string),
             if String.eqb name "CiteSeer" then Raise LibraryError
             else Ok 0) ("/tmp/" +:+ name) name = Raise LibraryError.
Proof.
  apply (proj1 (driver_never_trips_assertion (Dataset := nat) (Failure := ())
                  (λ _ name, if String.eqb name "CiteSeer"
                             then Raise LibraryError else Ok 0)
                  (λ _ _, None)) LibraryError).
  reflexivity.
Defined.

(** ** Attaching random features to a DGL graph *)

Section dgl_features_facts.
Import DGL DGLFeatures.
Context `{TorchSpec}.

(** Cell 13 works on every graph: for non-negative feature dimensions it
    returns, keeps the nodes and the edges, stores under ['feat'] one row of
    [node_feat_dim] entries per node and one row of [edge_feat_dim] entries
    per edge, leaves the features stored under other keys alone, and keeps
    a consistent graph consistent. *)
Theorem attach_features_returns (g : DGLGraph) (node_feat_dim edge_feat_dim : Z)
    (g0 : rng) :
  (0 ≤ node_feat_dim)%Z → (0 ≤ edge_feat_dim)%Z →
  ∃ g' g1,
    attach_features g node_feat_dim edge_feat_dim g0 = Ok (g', g1)
    ∧ num_nodes g' = num_nodes g ∧ edges g' = edges g
    ∧ (∃ t, ndata g' !! "feat" = Some t
          ∧ length t = num_nodes g
          ∧ Forall (λ row, Z.of_nat (length row) = node_feat_dim) t)
    ∧ (∃ t, edata g' !! "feat" = Some t
          ∧ length t = length (edges g)
          ∧ Forall (λ row, Z.of_nat (length row) = edge_feat_dim) t)
    ∧ (∀ key, key ≠ "feat" →
         ndata g' !! key = ndata g !! key ∧ edata g' !! key = edata g !! key)
    ∧ (consistent g → consistent g').
Proof.
  intros Hnd Hed. unfold attach_features, number_of_nodes, number_of_edges.
  unfold bindM at 1.
  destruct (randn_returns (Z.of_nat (num_nodes g)) node_feat_dim g0)
    as (nf & g1 & Hnf); [lia|done|].
  rewrite Hnf. apply randn_shape in Hnf as [Hnf_len Hnf_rows].
  unfold bindM at 1, lift, set_ndata. rewrite decide_True by lia.
  cbn [edges]. unfold bindM at 1.
  destruct (randn_returns (Z.of_nat (length (edges g))) edge_feat_dim g1)
    as (ef & g2 & Hef); [lia|done|].
  rewrite Hef. apply randn_shape in Hef as [Hef_len Hef_rows].
  unfold bindM, set_edata. cbn [edges]. rewrite decide_True by lia.
  unfold ret. eexists _, _. split; [done|]. cbn.
  split; [done|]. split; [done|]. split_and!.
  - exists nf. rewrite lookup_insert_eq. split; [done|]. split; [lia|done].
  - exists ef. rewrite lookup_insert_eq. split; [done|]. split; [lia|done].
  - intros key Hkey. by rewrite !lookup_insert_ne.
  - intros [Hn He]. split; cbn; intros key t.
    + destruct (decide (key = "feat")) as [->|Hkey].
      * rewrite lookup_insert_eq. intros [= <-]. split; [lia|].
        exists (Z.to_nat node_feat_dim).
        eapply Forall_impl; [exact Hnf_rows|]. simpl. lia.
      * rewrite lookup_insert_ne by done. apply Hn.
    + destruct (decide (key = "feat")) as [->|Hkey].
      * rewrite lookup_insert_eq. intros [= <-]. split; [lia|].
        exists (Z.to_nat edge_feat_dim).
        eapply Forall_impl; [exact Hef_rows|]. simpl. lia.
      * rewrite lookup_insert_ne by done. apply He.
Qed.

End dgl_features_facts.

(** A graph with three nodes and one edge, on the deterministic generator. *)
Lemma attach_features_returns_witness :
  ∃ g' g1,
    DGLFeatures.attach_features (H := Pseudo.torch)
      {| DGL.num_nodes := 3; DGL.edges := [(0, 2)];
         DGL.ndata := ∅; DGL.edata := ∅ |} 7 3 (7%Z : @rng Pseudo.torch)
    = Ok (g', g1)
    ∧ DGL.num_nodes g' = 3.
Proof.
  destruct (attach_features_returns (H := Pseudo.torch)
              {| DGL.num_nodes := 3; DGL.edges := [(0, 2)];
                 DGL.ndata := ∅; DGL.edata := ∅ |} 7 3
              (7%Z : @rng Pseudo.torch))
    as (g' & g1 & Hrun & Hn & _); [lia..|].
  by exists g', g1.
Defined.
